(** * slang RenderScript backend: export metadata and helper functions

    A shallow embedding of [slang_rs_backend.cpp] (class [RSBackend]):
    the declaration guard [HandleTopLevelDecl], the unit validator
    [HandleTranslationUnitPre] and the export emitter
    [HandleTranslationUnitPost] together with the helper ("trampoline")
    functions it synthesises.

    Conventions of the embedding
    - C++ [std::string] / [llvm::StringRef] values are [string]; the names
      held by the export registry are C identifiers and type names, so the
      [.c_str()] round trip in the source is the identity on them.
    - [int], [unsigned], [uint32_t], [int64_t] are [Z], with the
      conversions written out where the source converts; an overflow of
      the [int] counter of the variable loop is undefined.
    - The LLVM module is a record of its function list and of its named
      metadata, the latter a finite map from the list's name to its
      operands. A data member that points to a named metadata list holds
      the name of the list.
    - The guard and the validator only act on their collaborators (the
      diagnostics engine, the reference counting visitor, [RSExportType],
      the base class): they are functions to the list of these effects,
      in program order.
    - The emitter changes the module and its own data members, and a
      failing [slangAssert] aborts the compiler: it runs in a
      state-and-error monad over [World].
    - The calls on the IRBuilder carry the builder's contract: values
      are built together with their types, and an address of a field the
      packet does not have, a load from a value that is no pointer, or a
      call that does not fit the signature of the callee ends the run as
      undefined. *)

From Stdlib Require Import ZArith String Ascii List Lia Bool Sorted.
From stdpp Require Import base option list strings gmap.

Local Open Scope string_scope.
Local Open Scope list_scope.
Local Open Scope Z_scope.

#[local] Set Warnings "-register-all".

(** ** llvm/ADT/StringExtras.h

    The number printers of LLVM that the emitter calls, transcribed from
    the LLVM header. *)

Module StringExtras.

(** ['0' + char(d)] *)
Definition digit_char (d : Z) : ascii := ascii_of_N (48 + Z.to_N d).

(** The loop [while (X) { *--BufPtr = '0' + char(X % 10); X /= 10; }].
    [fuel] is the room left in the buffer. *)
Fixpoint utostr_loop (fuel : nat) (X : Z) (Buf : string) : string :=
  match fuel with
  | O => Buf
  | S fuel' =>
      if X =? 0 then Buf
      else utostr_loop fuel' (X / 10) (String (digit_char (X mod 10)) Buf)
  end.

(** [utostr_32(uint32_t X, bool isNeg = false)], with [char Buffer[11]]. *)
Definition utostr_32 (X : Z) (isNeg : bool) : string :=
  let X := X mod 2 ^ 32 in
  let Buf := if X =? 0 then "0" else "" in
  let Buf := utostr_loop 10 X Buf in
  if isNeg then String "-" Buf else Buf.

(** [utostr(uint64_t X, bool isNeg = false)], with [char Buffer[21]]. *)
Definition utostr (X : Z) (isNeg : bool) : string :=
  let X := X mod 2 ^ 64 in
  let Buf := if X =? 0 then "0" else "" in
  let Buf := utostr_loop 20 X Buf in
  if isNeg then String "-" Buf else Buf.

(** [itostr(int64_t X)] *)
Definition itostr (X : Z) : string :=
  if X <? 0 then utostr (- X) true else utostr X false.

End StringExtras.

(** ** Reading decimal strings (the consumer's side of the descriptors) *)

Module Decimal.

Definition digit_value (c : ascii) : option Z :=
  let n := Z.of_N (N_of_ascii c) in
  if (48 <=? n) && (n <=? 57) then Some (n - 48) else None.

Fixpoint value_from (acc : Z) (s : string) : option Z :=
  match s with
  | EmptyString => Some acc
  | String c rest =>
      match digit_value c with
      | Some d => value_from (10 * acc + d) rest
      | None => None
      end
  end.

(** The number a non-empty string of decimal digits denotes. *)
Definition value (s : string) : option Z :=
  match s with
  | EmptyString => None
  | _ => value_from 0 s
  end.

(** No superfluous leading zero. *)
Definition no_leading_zero (s : string) : bool :=
  match s with
  | String "0" (String _ _) => false
  | _ => true
  end.

(** [s] is the decimal numeral of [n]. *)
Definition is_decimal_of (s : string) (n : Z) : Prop :=
  value s = Some n /\ no_leading_zero s = true.

End Decimal.


(** ** The clang declarations the backend inspects *)

(** [clang::Linkage] *)
Inductive Linkage :=
| NoLinkage | InternalLinkage | UniqueExternalLinkage | ExternalLinkage.

(** A [clang::FunctionDecl], as one call of the backend sees it.
    [FD_hasBody] and [FD_isGlobal] are the answers of [FD->hasBody()] and
    [FD->isGlobal()] at the time of that call, [FD_InRSHeaderFile] is the
    answer of [SlangRS::IsFunctionInRSHeaderFile(FD, mSourceMgr)].
    [hasBody] and [getBody] follow the chain of redeclarations of the
    function: a prototype answers for the definition once that is parsed,
    so the answer of one declaration can differ between two calls, and
    two declarations of one function hand over the same body. The
    embedding therefore speaks of the declarations a call visits, one
    call at a time, and never identifies or counts bodies across
    calls. *)
Record FunctionDecl := mkFunctionDecl {
  FD_Name : string;
  FD_hasBody : bool;
  FD_isGlobal : bool;
  FD_InRSHeaderFile : bool
}.

(** A [clang::VarDecl]. [VD_NormalizeType] and [VD_ValidateVarDecl] are the
    answers of [RSExportType::NormalizeType] and
    [RSExportType::ValidateVarDecl] on it. *)
Record VarDecl := mkVarDecl {
  VD_Name : string;
  VD_Linkage : Linkage;
  VD_NormalizeType : bool;
  VD_ValidateVarDecl : bool
}.

Inductive Decl :=
| Decl_Var (VD : VarDecl)
| Decl_Function (FD : FunctionDecl)
| Decl_Other.

(** [clang::DeclGroupRef] and the declarations of a
    [clang::TranslationUnitDecl]. *)
Abbreviation DeclGroupRef := (list Decl).

Definition Linkage_eqb (a b : Linkage) : bool :=
  match a, b with
  | NoLinkage, NoLinkage | InternalLinkage, InternalLinkage
  | UniqueExternalLinkage, UniqueExternalLinkage
  | ExternalLinkage, ExternalLinkage => true
  | _, _ => false
  end.

(** ** The export registry (slang_rs_export_*.h, slang_rs_context.h)

    The classes of the registry are declared in headers that are not among
    the sources at hand. They are modelled by the data the backend reads
    through their accessors. *)

Inductive ExportClass :=
| ExportClassPrimitive
| ExportClassPointer
| ExportClassVector
| ExportClassMatrix
| ExportClassConstantArray
| ExportClassRecord.

(** [RSExportType] and its subclasses. [mType] is the [DataType] code and
    [mKind] the [DataKind] code of a primitive or vector type. *)
Inductive RSExportType :=
| RSExportPrimitiveType (Name : string) (mType mKind : Z)
| RSExportPointerType (Name : string) (mPointeeType : RSExportType)
| RSExportVectorType (Name : string) (mType mKind : Z) (mNumElement : Z)
| RSExportMatrixType (Name : string) (mDim : Z)
| RSExportConstantArrayType (Name : string) (mElementType : RSExportType)
                            (mSize : Z)
| RSExportRecordType (Name : string) (mFields : list (string * RSExportType)).

Definition getClass (ET : RSExportType) : ExportClass :=
  match ET with
  | RSExportPrimitiveType _ _ _ => ExportClassPrimitive
  | RSExportPointerType _ _ => ExportClassPointer
  | RSExportVectorType _ _ _ _ => ExportClassVector
  | RSExportMatrixType _ _ => ExportClassMatrix
  | RSExportConstantArrayType _ _ _ => ExportClassConstantArray
  | RSExportRecordType _ _ => ExportClassRecord
  end.

Definition getName (ET : RSExportType) : string :=
  match ET with
  | RSExportPrimitiveType n _ _ | RSExportPointerType n _
  | RSExportVectorType n _ _ _ | RSExportMatrixType n _
  | RSExportConstantArrayType n _ _ | RSExportRecordType n _ => n
  end.

(** [RSExportRecordType::Field] *)
Abbreviation Field := (string * RSExportType)%type.
Definition Field_getName (F : Field) : string := fst F.
Definition Field_getType (F : Field) : RSExportType := snd F.

Record RSExportVar := mkRSExportVar {
  EV_Name : string;
  EV_Type : RSExportType
}.

Record RSExportFunc := mkRSExportFunc {
  EF_Name : string;
  EF_Params : list (string * RSExportType);
  EF_ParamPacketType : option RSExportType
}.

(** Modelled from the spec: [RSExportFunc::hasParam], declared in
    slang_rs_export_func.h, which is not among the sources. The
    specification separates the exported functions that take no parameters
    from those with at least one. *)
Definition hasParam (EF : RSExportFunc) : bool :=
  negb (Nat.eqb (length (EF_Params EF)) 0).

(** Modelled from the spec: [RSExportFunc::getNumParameters], declared in
    the same header: the number of parameter positions of the exported
    function. *)
Definition getNumParameters (EF : RSExportFunc) : nat := length (EF_Params EF).

Record RSExportForEach := mkRSExportForEach {
  EFE_Name : string;
  EFE_MetadataEncoding : Z
}.

(** [RSContext], as far as the backend reads it: [getVersion] and
    [processExport] are the answers of the methods of these names,
    [export_types] lists the entries of the type map (a string map, keyed
    by type name) in iteration order. *)
Record RSContext := mkRSContext {
  getVersion : Z;
  processExport : bool;
  export_vars : list RSExportVar;
  export_funcs : list RSExportFunc;
  export_foreach : list RSExportForEach;
  export_types : list (string * RSExportType)
}.

(** Modelled from the spec: [RSContext::hasExportVar], declared in
    slang_rs_context.h, which is not among the sources. The variables are
    emitted only if the unit has at least one. *)
Definition hasExportVar (C : RSContext) : bool :=
  negb (Nat.eqb (length (export_vars C)) 0).

(** Modelled from the spec: [RSContext::hasExportFunc], declared in the
    same header. The functions are emitted only if the unit has at least
    one. *)
Definition hasExportFunc (C : RSContext) : bool :=
  negb (Nat.eqb (length (export_funcs C)) 0).

(** Modelled from the spec: [RSContext::hasExportForEach], declared in the
    same header; the kernels are treated like the functions. *)
Definition hasExportForEach (C : RSContext) : bool :=
  negb (Nat.eqb (length (export_foreach C)) 0).

(** Modelled from the spec: [RSContext::hasExportType], declared in the
    same header. The types are emitted only if the unit has at least
    one. *)
Definition hasExportType (C : RSContext) : bool :=
  negb (Nat.eqb (length (export_types C)) 0).

(** ** The LLVM module the emitter writes into

    The part of LLVM's intermediate representation that the emitter
    creates and inspects. *)

Inductive LLVMType :=
| VoidTy
| IntegerTy (NumBits : N)
| FloatTy
| DoubleTy
| NamedTy (Name : string)
| PointerTy (ElementType : LLVMType)
| StructTy (Elements : list LLVMType).

Definition isVoidTy (T : LLVMType) : bool :=
  match T with VoidTy => true | _ => false end.

(** [llvm::GlobalValue::LinkageTypes] *)
Inductive LinkageTypes :=
| GV_ExternalLinkage | GV_InternalLinkage | GV_PrivateLinkage
| GV_WeakAnyLinkage.

Inductive Attribute := NoInline | NoUnwind | AlwaysInline.

(** [llvm::CallingConv::ID]; [CallingConv_C] is the default. *)
Abbreviation CallingConv := Z (only parsing).
Definition CallingConv_C : CallingConv := 0.

(** A value is an argument of the enclosing function, a constant, or the
    result of the instruction at a position of the block under
    construction. *)
Inductive Value :=
| Argument (ArgNo : nat)
| ConstantInt (Ty : LLVMType) (V : Z)
| InstResult (Pos : nat).

Inductive Instruction :=
| GetElementPtr (InBounds : bool) (Ptr : Value) (IdxList : list Value)
| Load (Ptr : Value)
| Call (Callee : string) (Args : list Value) (CC : CallingConv)
| RetVoid
| Ret (V : Value).

Record BasicBlock := mkBasicBlock {
  BB_Name : string;
  BB_InstList : list Instruction
}.

Record LLVMFunction := mkLLVMFunction {
  F_Name : string;
  F_ReturnType : LLVMType;
  F_ArgumentList : list LLVMType;
  F_Linkage : LinkageTypes;
  F_CallingConv : CallingConv;
  F_Attributes : list Attribute;
  F_BasicBlocks : list BasicBlock
}.

(** An [MDNode] of [MDString]s, and the handle of a named metadata list:
    the name under which the module holds it. *)
Abbreviation MDNode := (list string).
Abbreviation NamedMDNode := string (only parsing).

Record LLVMModule := mkLLVMModule {
  FunctionList : list LLVMFunction;
  NamedMDList : gmap string (list MDNode)
}.

(** ** What the backend does to the outside world *)

(** [clang::DiagnosticsEngine::Level] *)
Inductive Level := Ignored | Note | Warning | Error | Fatal.

(** The calls the backend makes on its collaborators, in program order:
    diagnostics reported through [mDiagEngine], calls on the reference
    counting visitor [mRefCount], on [RSExportType], on the base class
    [Backend], and text written to [stderr]. *)
Inductive Effect :=
| Report (L : Level) (Format : string) (Args : list string)
| RSExportType_NormalizeType (VD : VarDecl)
| RSExportType_ValidateVarDecl (VD : VarDecl)
| RefCount_Init
| RefCount_Visit (FD : FunctionDecl)
| RefCount_CreateStaticGlobalDtor
| Backend_HandleTopLevelDecl (D : DeclGroupRef)
| Stderr (Text : string)
| Dump_RSExportType (T : RSExportType)
| Dump_LLVMType (T : LLVMType).

Definition is_Report (e : Effect) : bool :=
  match e with Report _ _ _ => true | _ => false end.

(** The diagnostics among the effects. *)
Definition reports (es : list Effect) : list Effect := List.filter is_Report es.

(** ** Declaration guard and unit validator *)

Definition startswith (s prefix : string) : bool := String.prefix prefix s.

(** The double quote character, for the message texts that contain it. *)
Definition dquote : string := String (ascii_of_nat 34) EmptyString.

Definition diag_invalid_prefix : string :=
  "invalid function name prefix, " +:+ dquote +:+ "rs" +:+ dquote
  +:+ " is reserved: '%0'".
Definition diag_missing_version : string :=
  "Missing pragma for version in source file".
Definition diag_bad_version : string :=
  "Pragma for version in source file must be set to 1".

(** [RSBackend::AnnotateFunction] *)
Definition AnnotateFunction (FD : FunctionDecl) : list Effect :=
  if FD_hasBody FD && negb (FD_InRSHeaderFile FD)
  then [RefCount_Init; RefCount_Visit FD]
  else [].

(** First loop of [HandleTopLevelDecl]: the reserved prefix. *)
Fixpoint checkRSPrefix (D : DeclGroupRef) : list Effect :=
  match D with
  | [] => []
  | Decl_Function FD :: rest =>
      (if negb (startswith (FD_Name FD) "rs") then []
       else if negb (FD_InRSHeaderFile FD)
            then [Report Error diag_invalid_prefix [FD_Name FD]]
            else [])
      ++ checkRSPrefix rest
  | _ :: rest => checkRSPrefix rest
  end.

(** Second loop of [HandleTopLevelDecl]: non-static functions. *)
Fixpoint annotateGlobalFunctions (D : DeclGroupRef) : list Effect :=
  match D with
  | [] => []
  | Decl_Function FD :: rest =>
      (if FD_isGlobal FD then AnnotateFunction FD else [])
      ++ annotateGlobalFunctions rest
  | _ :: rest => annotateGlobalFunctions rest
  end.

(** [RSBackend::HandleTopLevelDecl] *)
Definition HandleTopLevelDecl (mAllowRSPrefix : bool) (D : DeclGroupRef)
  : list Effect :=
  (if negb mAllowRSPrefix then checkRSPrefix D else [])
  ++ annotateGlobalFunctions D
  ++ [Backend_HandleTopLevelDecl D].

(** The file-static [ValidateVarDecl]: both checks are always made. *)
Definition ValidateVarDecl (VD : VarDecl) : bool * list Effect :=
  let valid := true in
  let '(valid, e1) :=
    if Linkage_eqb (VD_Linkage VD) ExternalLinkage
    then (if negb (VD_NormalizeType VD) then false else valid,
          [RSExportType_NormalizeType VD])
    else (valid, []) in
  (valid && VD_ValidateVarDecl VD, e1 ++ [RSExportType_ValidateVarDecl VD]).

(** The file-static [ValidateASTContext]. *)
Fixpoint ValidateASTContext_loop (decls : list Decl) (valid : bool)
  : bool * list Effect :=
  match decls with
  | [] => (valid, [])
  | Decl_Var VD :: rest =>
      let '(ok, e) := ValidateVarDecl VD in
      let '(valid', es) :=
        ValidateASTContext_loop rest (if negb ok then false else valid) in
      (valid', e ++ es)
  | _ :: rest => ValidateASTContext_loop rest valid
  end.

Definition ValidateASTContext (TUDecl : list Decl) : bool * list Effect :=
  ValidateASTContext_loop TUDecl true.

(** The version check of [HandleTranslationUnitPre]. *)
Definition checkVersion (version : Z) : list Effect :=
  if version =? 0
  then [Report Error diag_missing_version []]
  else if version >? 1
  then [Report Error diag_bad_version []]
  else [].

(** Last loop of [HandleTranslationUnitPre]: static functions. *)
Fixpoint annotateStaticFunctions (decls : list Decl) : list Effect :=
  match decls with
  | [] => []
  | Decl_Function FD :: rest =>
      (if negb (FD_isGlobal FD) then AnnotateFunction FD else [])
      ++ annotateStaticFunctions rest
  | _ :: rest => annotateStaticFunctions rest
  end.

(** [RSBackend::HandleTranslationUnitPre]. [StaticGlobalDtor] is what
    [mRefCount.CreateStaticGlobalDtor()] returns when it is called. *)
Definition HandleTranslationUnitPre (mAllowRSPrefix : bool)
    (mContext : RSContext) (StaticGlobalDtor : option FunctionDecl)
    (TUDecl : list Decl) : list Effect :=
  let '(valid, validation) := ValidateASTContext TUDecl in
  if negb valid then validation
  else
    validation
    ++ checkVersion (getVersion mContext)
    ++ [RefCount_CreateStaticGlobalDtor]
    ++ match StaticGlobalDtor with
       | Some FD => HandleTopLevelDecl mAllowRSPrefix [Decl_Function FD]
       | None => []
       end
    ++ annotateStaticFunctions TUDecl.

(** ** The emitter's state and its monad *)

(** The data members of [RSBackend] that [HandleTranslationUnitPost]
    reads and writes: the lazily obtained named metadata lists. *)
Record RSBackend := mkRSBackend {
  mExportVarMetadata : option NamedMDNode;
  mExportFuncMetadata : option NamedMDNode;
  mExportForEachMetadata : option NamedMDNode;
  mExportTypeMetadata : option NamedMDNode;
  mRSObjectSlotsMetadata : option NamedMDNode
}.

(** The constructor leaves every list unset. *)
Definition RSBackend_new : RSBackend := mkRSBackend None None None None None.

Record World := mkWorld {
  this : RSBackend;
  theModule : LLVMModule;
  effects : list Effect
}.

Inductive Outcome (A : Type) :=
| Normal (a : A)
| AssertionFailed (msg : string)
| Undefined (what : string).
Arguments Normal {A} a.
Arguments AssertionFailed {A} msg.
Arguments Undefined {A} what.

Definition Emit (A : Type) : Type := World -> Outcome (A * World).

Definition ret {A} (a : A) : Emit A := fun w => Normal (a, w).

Definition bind {A B} (m : Emit A) (k : A -> Emit B) : Emit B :=
  fun w =>
    match m w with
    | Normal (a, w') => k a w'
    | AssertionFailed msg => AssertionFailed msg
    | Undefined what => Undefined what
    end.

Notation "'let*' x ':=' m 'in' k" := (bind m (fun x => k))
  (at level 10, x name, m at level 100, k at level 200).
Notation "m ';;' k" := (bind m (fun _ => k))
  (at level 100, k at level 200, right associativity).

(** Sequencing of computations that do not touch the world, and their
    use inside the emitter. *)
Definition andThen {A B} (o : Outcome A) (k : A -> Outcome B) : Outcome B :=
  match o with
  | Normal a => k a
  | AssertionFailed msg => AssertionFailed msg
  | Undefined what => Undefined what
  end.

Definition liftOutcome {A} (o : Outcome A) : Emit A :=
  fun w => andThen o (fun a => Normal (a, w)).

(** The world a run leaves when it completes ([d] otherwise). *)
Definition worldOf {A} (o : Outcome (A * World)) (d : World) : World :=
  match o with
  | Normal (_, w) => w
  | _ => d
  end.

Definition when (b : bool) (m : Emit unit) : Emit unit :=
  if b then m else ret tt.

Fixpoint forEach {A} (l : list A) (body : A -> Emit unit) : Emit unit :=
  match l with
  | [] => ret tt
  | x :: rest => body x ;; forEach rest body
  end.

(** Modelled from the spec: the macro [slangAssert], defined in
    slang_assert.h, which is not among the sources. A violated invariant is
    rejected: the compiler aborts with the message of the assertion. *)
Definition slangAssert (cond : bool) (msg : string) : Emit unit :=
  fun w => if cond then Normal (tt, w) else AssertionFailed msg.

Definition getThis : Emit RSBackend := fun w => Normal (this w, w).
Definition setThis (b : RSBackend) : Emit unit :=
  fun w => Normal (tt, mkWorld b (theModule w) (effects w)).

Definition emitEffect (e : Effect) : Emit unit :=
  fun w => Normal (tt, mkWorld (this w) (theModule w) (effects w ++ [e])).

(** Using a pointer member: a null pointer cannot be followed. *)
Definition deref {A} (p : option A) : Emit A :=
  fun w => match p with
           | Some a => Normal (a, w)
           | None => Undefined "null pointer dereference"
           end.

(** [llvm::Module::getOrInsertNamedMetadata] *)
Definition getOrInsertNamedMetadata (Name : string) : Emit NamedMDNode :=
  fun w =>
    let M := theModule w in
    let MD := match NamedMDList M !! Name with
              | Some _ => NamedMDList M
              | None => <[Name := []]> (NamedMDList M)
              end in
    Normal (Name, mkWorld (this w) (mkLLVMModule (FunctionList M) MD) (effects w)).

(** [llvm::NamedMDNode::addOperand] *)
Definition addOperand (N : NamedMDNode) (Op : MDNode) : Emit unit :=
  fun w =>
    let M := theModule w in
    Normal (tt, mkWorld (this w)
                  (mkLLVMModule (FunctionList M)
                     (alter (fun ops => ops ++ [Op]) N (NamedMDList M)))
                  (effects w)).

(** [llvm::NamedMDNode::getNumOperands] *)
Definition getNumOperands (N : NamedMDNode) : Emit nat :=
  fun w => Normal (length (default [] (NamedMDList (theModule w) !! N)), w).

(** [llvm::Module::getFunction] *)
Definition lookupFunction (Name : string) (fs : list LLVMFunction)
  : option LLVMFunction :=
  List.find (fun F => String.eqb (F_Name F) Name) fs.

Definition getFunction (Name : string) : Emit (option LLVMFunction) :=
  fun w => Normal (lookupFunction Name (FunctionList (theModule w)), w).

(** Adding a finished function to the module's function list. The names
    of the helper functions start with a dot, which no function of the
    translated C source does. *)
Definition addFunction (F : LLVMFunction) : Emit unit :=
  fun w =>
    let M := theModule w in
    Normal (tt, mkWorld (this w)
                  (mkLLVMModule (FunctionList M ++ [F]) (NamedMDList M))
                  (effects w)).

(** ** Names of the metadata lists (slang_rs_metadata.h) *)

(** Modelled from the spec: the header [slang_rs_metadata.h] that defines
    these five macros is not part of the sources at hand; the names are the
    ones the external interface section of the specification fixes. *)
Definition RS_EXPORT_VAR_MN : string := "#rs_export_var".
Definition RS_EXPORT_FUNC_MN : string := "#rs_export_func".
Definition RS_EXPORT_FOREACH_MN : string := "#rs_export_foreach".
Definition RS_EXPORT_TYPE_MN : string := "#rs_export_type".
Definition RS_OBJECT_SLOTS_MN : string := "#rs_object_slots".

(** Setters for the data members. *)
Definition set_mExportVarMetadata (h : NamedMDNode) (b : RSBackend) :=
  mkRSBackend (Some h) (mExportFuncMetadata b) (mExportForEachMetadata b)
              (mExportTypeMetadata b) (mRSObjectSlotsMetadata b).
Definition set_mExportFuncMetadata (h : NamedMDNode) (b : RSBackend) :=
  mkRSBackend (mExportVarMetadata b) (Some h) (mExportForEachMetadata b)
              (mExportTypeMetadata b) (mRSObjectSlotsMetadata b).
Definition set_mExportForEachMetadata (h : NamedMDNode) (b : RSBackend) :=
  mkRSBackend (mExportVarMetadata b) (mExportFuncMetadata b) (Some h)
              (mExportTypeMetadata b) (mRSObjectSlotsMetadata b).
Definition set_mExportTypeMetadata (h : NamedMDNode) (b : RSBackend) :=
  mkRSBackend (mExportVarMetadata b) (mExportFuncMetadata b)
              (mExportForEachMetadata b) (Some h) (mRSObjectSlotsMetadata b).
Definition set_mRSObjectSlotsMetadata (h : NamedMDNode) (b : RSBackend) :=
  mkRSBackend (mExportVarMetadata b) (mExportFuncMetadata b)
              (mExportForEachMetadata b) (mExportTypeMetadata b) (Some h).

(** The idiom [if (m == NULL) m = M->getOrInsertNamedMetadata(Name);]. *)
Definition ensureMetadata (get : RSBackend -> option NamedMDNode)
    (set : NamedMDNode -> RSBackend -> RSBackend) (Name : string)
  : Emit unit :=
  let* b := getThis in
  match get b with
  | Some _ => ret tt
  | None =>
      let* h := getOrInsertNamedMetadata Name in
      setThis (set h b)
  end.

(** [m->addOperand(llvm::MDNode::get(mLLVMContext, Info))] on a member. *)
Definition addOperandTo (get : RSBackend -> option NamedMDNode) (Info : MDNode)
  : Emit unit :=
  let* b := getThis in
  let* h := deref (get b) in
  addOperand h Info.

(** ** The export emitter *)

Definition INT_MAX : Z := 2 ^ 31 - 1.

Section Emitter.
Import StringExtras.

(** Constants and predicates of headers outside the sources at hand:
    [RSExportPrimitiveType::DataTypeRSMatrix2x2] and
    [RSExportPrimitiveType::DataKindUser] (slang_rs_export_type.h),
    [RSExportPrimitiveType::isRSObjectType] as a predicate on the
    [DataType] code, and [RSExportFunc::checkParameterPacketType]
    (slang_rs_export_func.h). *)
Variable DataTypeRSMatrix2x2 : Z.
Variable DataKindUser : Z.
Variable isRSObjectType : Z -> bool.
Variable checkParameterPacketType : RSExportFunc -> option LLVMType -> bool.

(** *** Exported variables *)

(** The [switch (ET->getClass())] of the variable loop: the string pushed
    onto [ExportVarInfo] and the value left in [countsAsRSObject]. *)
Definition exportVarTypeInfo (ET : RSExportType) : string * bool :=
  match ET with
  | RSExportPrimitiveType _ mType _ =>
      (utostr_32 mType false, if isRSObjectType mType then true else false)
  | RSExportPointerType _ mPointeeType =>
      ("*" +:+ getName mPointeeType, false)
  | RSExportMatrixType _ mDim =>
      (utostr_32 (DataTypeRSMatrix2x2 + mDim - 2) false, false)
  | RSExportVectorType _ _ _ _
  | RSExportConstantArrayType _ _ _
  | RSExportRecordType _ _ =>
      (getName ET, false)
  end.

(** The body of the loop over the exported variables, up to the
    increment of the local counter [slotCount]. *)
Definition exportVar (EV : RSExportVar) (slotCount : Z) : Emit unit :=
  let ET := EV_Type EV in
  let '(TypeName, countsAsRSObject) := exportVarTypeInfo ET in
  let ExportVarInfo := [EV_Name EV; TypeName] in
  addOperandTo mExportVarMetadata ExportVarInfo ;;
  ensureMetadata mRSObjectSlotsMetadata set_mRSObjectSlotsMetadata
                 RS_OBJECT_SLOTS_MN ;;
  when countsAsRSObject
       (addOperandTo mRSObjectSlotsMetadata [utostr_32 slotCount false]).

(** [slotCount++] on an [int]: overflow is undefined. *)
Definition increment (slotCount : Z) : Emit Z :=
  fun w => if slotCount <? INT_MAX then Normal (slotCount + 1, w)
           else Undefined "signed integer overflow".

(** The loop over the exported variables; the counter is returned as it
    stands when the loop ends. *)
Fixpoint exportVarLoop (vars : list RSExportVar) (slotCount : Z) : Emit Z :=
  match vars with
  | [] => ret slotCount
  | EV :: rest =>
      exportVar EV slotCount ;;
      let* slotCount := increment slotCount in
      exportVarLoop rest slotCount
  end.

Definition dumpExportVars (mContext : RSContext) : Emit unit :=
  when (hasExportVar mContext)
    (ensureMetadata mExportVarMetadata set_mExportVarMetadata
                    RS_EXPORT_VAR_MN ;;
     let* _ := exportVarLoop (export_vars mContext) 0 in
     ret tt).

(** *** Exported functions and their helper functions *)

Definition helperFunctionName (EF : RSExportFunc) : string :=
  ".helper_" +:+ EF_Name EF.

(** [HelperFunctionParameterTy]: null unless [F] has arguments. *)
Definition helperFunctionParameterTy (F : LLVMFunction) : option LLVMType :=
  if negb (Nat.eqb (length (F_ArgumentList F)) 0)
  then Some (StructTy (F_ArgumentList F))
  else None.

(** [llvm::Function::Create] followed by [addFnAttr(NoInline)] and
    [setCallingConv(F->getCallingConv())]: the helper before its body. *)
Definition createHelperFunction (F : LLVMFunction) (Name : string)
    (HelperFunctionParameterTy : option LLVMType) : LLVMFunction :=
  let Params := match HelperFunctionParameterTy with
                | Some T => [PointerTy T]
                | None => []
                end in
  let HelperFunction :=
    mkLLVMFunction Name (F_ReturnType F) Params GV_ExternalLinkage
                   CallingConv_C [] [] in
  let HelperFunction :=
    mkLLVMFunction (F_Name HelperFunction) (F_ReturnType HelperFunction)
      (F_ArgumentList HelperFunction) (F_Linkage HelperFunction)
      (F_CallingConv HelperFunction)
      (F_Attributes HelperFunction ++ [NoInline])
      (F_BasicBlocks HelperFunction) in
  mkLLVMFunction (F_Name HelperFunction) (F_ReturnType HelperFunction)
    (F_ArgumentList HelperFunction) (F_Linkage HelperFunction)
    (F_CallingConv F)
    (F_Attributes HelperFunction)
    (F_BasicBlocks HelperFunction).

(** Equality of LLVM types, which are uniqued: two types are the same
    when they are built alike. *)
Fixpoint LLVMType_eqb (a b : LLVMType) {struct a} : bool :=
  match a, b with
  | VoidTy, VoidTy | FloatTy, FloatTy | DoubleTy, DoubleTy => true
  | IntegerTy n, IntegerTy m => N.eqb n m
  | NamedTy s, NamedTy t => String.eqb s t
  | PointerTy x, PointerTy y => LLVMType_eqb x y
  | StructTy xs, StructTy ys =>
      (fix all_eqb (xs ys : list LLVMType) {struct xs} : bool :=
         match xs, ys with
         | [], [] => true
         | x :: xs', y :: ys' => LLVMType_eqb x y && all_eqb xs' ys'
         | _, _ => false
         end) xs ys
  | _, _ => false
  end.

(** A value together with its type, as the builder hands it back. *)
Abbreviation TypedValue := (Value * LLVMType)%type.

(** The IRBuilder appends to the block and hands back the new value. *)
Definition IRBuilder_insert (I : Instruction) (Ty : LLVMType)
    (BB : list Instruction) : TypedValue * list Instruction :=
  ((InstResult (length BB), Ty), BB ++ [I]).

(** [llvm::GetElementPtrInst::getIndexedType]: the first index steps
    over the pointer; every further index selects a field of a structure
    and has to be a 32-bit constant below the number of its fields. The
    types of the embedding have no arrays and no vectors. *)
Fixpoint getIndexedType_fields (Agg : LLVMType) (IdxList : list Value)
  : option LLVMType :=
  match IdxList with
  | [] => Some Agg
  | Idx :: rest =>
      match Agg, Idx with
      | StructTy Elements, ConstantInt (IntegerTy NumBits) V =>
          if N.eqb NumBits 32
          then match Elements !! Z.to_nat V with
               | Some Ty => getIndexedType_fields Ty rest
               | None => None
               end
          else None
      | _, _ => None
      end
  end.

Definition getIndexedType (PtrTy : LLVMType) (IdxList : list Value)
  : option LLVMType :=
  match PtrTy, IdxList with
  | PointerTy Agg, _ :: rest => getIndexedType_fields Agg rest
  | _, _ => None
  end.

(** [IRBuilder::CreateInBoundsGEP]. Indices that address no field of the
    pointee leave the instruction without a result type: LLVM asserts
    ("Invalid GetElementPtrInst indices for type!") and, built without
    assertions, follows a null type. *)
Definition CreateInBoundsGEP (Ptr : TypedValue) (IdxList : list Value)
    (BB : list Instruction) : Outcome (TypedValue * list Instruction) :=
  match getIndexedType (snd Ptr) IdxList with
  | Some Ty =>
      Normal (IRBuilder_insert (GetElementPtr true (fst Ptr) IdxList)
                               (PointerTy Ty) BB)
  | None => Undefined "getelementptr with invalid indices for the type"
  end.

(** [IRBuilder::CreateLoad]: the operand has to be a pointer. *)
Definition CreateLoad (Ptr : TypedValue) (BB : list Instruction)
  : Outcome (TypedValue * list Instruction) :=
  match snd Ptr with
  | PointerTy Ty => Normal (IRBuilder_insert (Load (fst Ptr)) Ty BB)
  | _ => Undefined "load from a value that is not a pointer"
  end.

(** [IRBuilder::CreateCall(F, Params)]. The builder requires one argument
    per parameter of [F], each of the type of its parameter ("Calling a
    function with a bad signature!"); outside this contract what is built
    is not a call of [F], and the behaviour is not defined. A function
    with a variable argument list may take more arguments than
    parameters, but the helper never has more values than the packet has
    fields. *)
Definition CreateCall (F : LLVMFunction) (Args : list TypedValue)
    (BB : list Instruction) : Outcome (TypedValue * list Instruction) :=
  if LLVMType_eqb (StructTy (map snd Args)) (StructTy (F_ArgumentList F))
  then Normal (IRBuilder_insert (Call (F_Name F) (map fst Args) CallingConv_C)
                                (F_ReturnType F) BB)
  else Undefined "call with a bad signature".

(** The loop [for (size_t i = 0; i < EF->getNumParameters(); i++)]:
    [count] iterations remain, [i] is the loop variable. *)
Fixpoint loadParameters (count : nat) (i : Z)
    (HelperFunctionParameter : TypedValue) (Idx0 : Value)
    (BB : list Instruction) (Params : list TypedValue)
  : Outcome (list Instruction * list TypedValue) :=
  match count with
  | O => Normal (BB, Params)
  | S count' =>
      let Idx1 := ConstantInt (IntegerTy 32) (i mod 2 ^ 32) in
      andThen (CreateInBoundsGEP HelperFunctionParameter [Idx0; Idx1] BB)
        (fun '(Ptr, BB) =>
           andThen (CreateLoad Ptr BB)
             (fun '(V, BB) =>
                loadParameters count' (i + 1) HelperFunctionParameter Idx0 BB
                               (Params ++ [V])))
  end.

(** [CI->setCallingConv] on the call at position [pos]. *)
Definition setCallingConv (CC : CallingConv) (I : Instruction) : Instruction :=
  match I with
  | Call Callee Args _ => Call Callee Args CC
  | _ => I
  end.

(** The body of the helper: the instructions of its block "entry", when
    the builder can build them. *)
Definition createHelperFunctionBody (EF : RSExportFunc) (F : LLVMFunction)
    (HelperFunctionParameter : TypedValue) : Outcome (list Instruction) :=
  let Idx0 := ConstantInt (IntegerTy 32) 0 in
  andThen
    (loadParameters (getNumParameters EF) 0 HelperFunctionParameter Idx0 [] [])
    (fun '(BB, Params) =>
       let pos := length BB in
       andThen (CreateCall F Params BB)
         (fun '(CI, BB) =>
            let BB := alter (setCallingConv (F_CallingConv F)) pos BB in
            if isVoidTy (F_ReturnType F)
            then Normal (snd (IRBuilder_insert RetVoid VoidTy BB))
            else Normal (snd (IRBuilder_insert (Ret (fst CI)) VoidTy BB)))).

(** [llvm::BasicBlock::Create(mLLVMContext, "entry", HelperFunction)],
    filled with [insts]. *)
Definition addEntryBlock (HelperFunction : LLVMFunction)
    (insts : list Instruction) : LLVMFunction :=
  mkLLVMFunction (F_Name HelperFunction) (F_ReturnType HelperFunction)
    (F_ArgumentList HelperFunction) (F_Linkage HelperFunction)
    (F_CallingConv HelperFunction) (F_Attributes HelperFunction)
    (F_BasicBlocks HelperFunction ++ [mkBasicBlock "entry" insts]).

Definition newline : string := String (ascii_of_nat 10) EmptyString.

(** The report of a parameter packet mismatch: text on [stderr] and
    dumps of the two types, nothing else. *)
Definition reportParameterMismatch (EF : RSExportFunc)
    (HelperFunctionParameterTy : option LLVMType) : Emit unit :=
  when (negb (checkParameterPacketType EF HelperFunctionParameterTy))
    (emitEffect
       (Stderr ("Failed to export function " +:+ EF_Name EF +:+
                ": parameter type mismatch during creation of helper function."
                +:+ newline)) ;;
     match EF_ParamPacketType EF with
     | Some Expected =>
         emitEffect (Stderr ("Expected:" +:+ newline)) ;;
         emitEffect (Dump_RSExportType Expected)
     | None => ret tt
     end ;;
     match HelperFunctionParameterTy with
     | Some T =>
         emitEffect (Stderr ("Got:" +:+ newline)) ;;
         emitEffect (Dump_LLVMType T)
     | None => ret tt
     end).

(** The helper is created in the module and then given its body in
    place; the embedding builds the finished function and adds it to the
    function list, which is the same module. Taking the first argument
    of a helper that has none is undefined, and so is a body that the
    builder cannot build. *)
Definition synthesizeHelperFunction (EF : RSExportFunc) (F : LLVMFunction)
  : Emit string :=
  let HelperFunctionName := helperFunctionName EF in
  let HelperFunctionParameterTy := helperFunctionParameterTy F in
  reportParameterMismatch EF HelperFunctionParameterTy ;;
  let HelperFunction :=
    createHelperFunction F HelperFunctionName HelperFunctionParameterTy in
  match F_ArgumentList HelperFunction with
  | [] => fun _ => Undefined "arg_begin() of a function without arguments"
  | ParameterTy :: _ =>
      let HelperFunctionParameter := (Argument 0, ParameterTy) in
      let* insts :=
        liftOutcome (createHelperFunctionBody EF F HelperFunctionParameter) in
      addFunction (addEntryBlock HelperFunction insts) ;;
      ret HelperFunctionName
  end.

(** One iteration of the loop over the exported functions. *)
Definition exportFunc (EF : RSExportFunc) : Emit unit :=
  let* ExportFuncInfo :=
    (if negb (hasParam EF) then ret [EF_Name EF]
     else
       let* F := getFunction (EF_Name EF) in
       slangAssert (match F with Some _ => true | None => false end)
                   "Function marked as exported disappeared in Bitcode" ;;
       let* F := deref F in
       let* HelperFunctionName := synthesizeHelperFunction EF F in
       ret [HelperFunctionName]) in
  addOperandTo mExportFuncMetadata ExportFuncInfo.

Definition dumpExportFuncs (mContext : RSContext) : Emit unit :=
  when (hasExportFunc mContext)
    (ensureMetadata mExportFuncMetadata set_mExportFuncMetadata
                    RS_EXPORT_FUNC_MN ;;
     forEach (export_funcs mContext) exportFunc).

(** *** Exported kernels *)

Definition exportForEach (EFE : RSExportForEach) : Emit unit :=
  addOperandTo mExportForEachMetadata
               [utostr_32 (EFE_MetadataEncoding EFE) false].

Definition dumpExportForEach (mContext : RSContext) : Emit unit :=
  when (hasExportForEach mContext)
    (ensureMetadata mExportForEachMetadata set_mExportForEachMetadata
                    RS_EXPORT_FOREACH_MN ;;
     forEach (export_foreach mContext) exportForEach).

(** *** Exported types *)

(** The [switch (F->getType()->getClass())] of the field loop. *)
Definition fieldKind (FT : RSExportType) : string :=
  match FT with
  | RSExportPrimitiveType _ _ mKind
  | RSExportVectorType _ _ mKind _ => itostr mKind
  | _ => itostr DataKindUser
  end.

Definition exportField (StructInfoMetadata : NamedMDNode) (F : Field)
  : Emit unit :=
  let FieldInfo := [Field_getName F;
                    getName (Field_getType F);
                    fieldKind (Field_getType F)] in
  addOperand StructInfoMetadata FieldInfo.

Definition structInfoMetadataName (ET : RSExportType) : string :=
  "%" +:+ getName ET.

(** One iteration of the loop over the exported types. *)
Definition exportType (entry : string * RSExportType) : Emit unit :=
  let ET := snd entry in
  let ExportTypeInfo := [getName ET] in
  match ET with
  | RSExportRecordType _ mFields =>
      ensureMetadata mExportTypeMetadata set_mExportTypeMetadata
                     RS_EXPORT_TYPE_MN ;;
      addOperandTo mExportTypeMetadata ExportTypeInfo ;;
      let* StructInfoMetadata :=
        getOrInsertNamedMetadata (structInfoMetadataName ET) in
      let* n := getNumOperands StructInfoMetadata in
      slangAssert (Nat.eqb n 0) "Metadata with same name was created before" ;;
      forEach mFields (exportField StructInfoMetadata)
  | _ => ret tt
  end.

Definition dumpExportTypes (mContext : RSContext) : Emit unit :=
  when (hasExportType mContext)
    (forEach (export_types mContext) exportType).

(** [RSBackend::HandleTranslationUnitPost] *)
Definition HandleTranslationUnitPost (mContext : RSContext) : Emit unit :=
  if negb (processExport mContext) then ret tt
  else
    dumpExportVars mContext ;;
    dumpExportFuncs mContext ;;
    dumpExportForEach mContext ;;
    dumpExportTypes mContext.

(** Modelled from the spec: [Backend::HandleTranslationUnit], the method
    of the base class that drives a unit (slang_backend.cpp, which is not
    among the sources). In the specification the unit validator runs
    once, after the unit is parsed and before code generation, and the
    export descriptor emitter runs once, after the code of the unit is
    generated; no phase consults the diagnostics of an earlier one ("the
    pass itself never aborts outright; overall compilation failure is
    determined externally by whether any error-severity diagnostic was
    recorded"). [generated] is the module as code generation leaves it,
    [afterCodeGeneration] the world in which the emitter starts. *)
Definition afterCodeGeneration (mAllowRSPrefix : bool) (mContext : RSContext)
    (StaticGlobalDtor : option FunctionDecl) (TUDecl : list Decl)
    (generated : LLVMModule) (w : World) : World :=
  mkWorld (this w) generated
    (effects w
     ++ HandleTranslationUnitPre mAllowRSPrefix mContext StaticGlobalDtor
                                 TUDecl).

Definition HandleTranslationUnit (mAllowRSPrefix : bool) (mContext : RSContext)
    (StaticGlobalDtor : option FunctionDecl) (TUDecl : list Decl)
    (generated : LLVMModule) : Emit unit :=
  fun w =>
    HandleTranslationUnitPost mContext
      (afterCodeGeneration mAllowRSPrefix mContext StaticGlobalDtor TUDecl
                           generated w).

(** *** The consumer's view of the descriptors *)

(** Reading a pointer descriptor ["*<name>"] back. *)
Definition decodePointerDescriptor (s : string) : option string :=
  match s with
  | String "*" name => Some name
  | _ => None
  end.

(** A variable takes an object slot when its type is a primitive type
    whose data type is a reference counted RS object type. *)
Definition takesObjectSlot (EV : RSExportVar) : bool :=
  match EV_Type EV with
  | RSExportPrimitiveType _ mType _ => isRSObjectType mType
  | _ => false
  end.

(** The positions, counted from [k], of the variables that take a slot. *)
Fixpoint objectSlots (k : nat) (vars : list RSExportVar) : list nat :=
  match vars with
  | [] => []
  | EV :: rest =>
      (if takesObjectSlot EV then [k] else []) ++ objectSlots (S k) rest
  end.

(** The named metadata list [n] of the module of [w], and its operands
    (none when the list does not exist). *)
Definition namedMetadata (w : World) (n : string) : option (list MDNode) :=
  NamedMDList (theModule w) !! n.

Definition operands (w : World) (n : string) : list MDNode :=
  default [] (namedMetadata w n).

(** The kind code of a field entry, as the interface describes it. *)
Definition fieldKindCode (FT : RSExportType) : Z :=
  match getClass FT with
  | ExportClassPrimitive | ExportClassVector =>
      match FT with
      | RSExportPrimitiveType _ _ k | RSExportVectorType _ _ k _ => k
      | _ => DataKindUser
      end
  | _ => DataKindUser
  end.

(** The descriptor of an exported function. *)
Definition funcDescriptor (EF : RSExportFunc) : string :=
  if hasParam EF then ".helper_" +:+ EF_Name EF else EF_Name EF.

Definition isRecord (ET : RSExportType) : bool :=
  match ET with RSExportRecordType _ _ => true | _ => false end.

(** *** Auxiliary notions for the statements below *)

(** The object slots list is either not obtained yet, or obtained under
    its name and present in the module. *)
Definition slots_ready (w : World) : Prop :=
  mRSObjectSlotsMetadata (this w) = None \/
  (mRSObjectSlotsMetadata (this w) = Some RS_OBJECT_SLOTS_MN /\
   is_Some (namedMetadata w RS_OBJECT_SLOTS_MN)).

Definition varRecord (EV : RSExportVar) : MDNode :=
  [EV_Name EV; fst (exportVarTypeInfo (EV_Type EV))].

Definition slotRecord (k : Z) : MDNode := [utostr_32 k false].

(** What a parameter packet mismatch writes. *)
Definition mismatchOutput (EF : RSExportFunc) (Ty : option LLVMType)
  : list Effect :=
  if checkParameterPacketType EF Ty then []
  else
    [Stderr ("Failed to export function " +:+ EF_Name EF +:+
             ": parameter type mismatch during creation of helper function."
             +:+ newline)]
    ++ match EF_ParamPacketType EF with
       | Some Expected =>
           [Stderr ("Expected:" +:+ newline); Dump_RSExportType Expected]
       | None => []
       end
    ++ match Ty with
       | Some T => [Stderr ("Got:" +:+ newline); Dump_LLVMType T]
       | None => []
       end.

(** The two instructions that fetch parameter [i]: the address of field
    [i] of the packet, and the load from it. *)
Definition fetchParameter (i : nat) : list Instruction :=
  [GetElementPtr true (Argument 0)
     [ConstantInt (IntegerTy 32) 0;
      ConstantInt (IntegerTy 32) (Z.of_nat i mod 2 ^ 32)];
   Load (InstResult (2 * i))].

(** The value loaded for parameter [i]. *)
Definition loadedParameter (i : nat) : Value := InstResult (2 * i + 1).

(** The body the interface describes for a function of [n] parameters. *)
Definition helperBody (n : nat) (F : LLVMFunction) : list Instruction :=
  concat (map fetchParameter (seq 0 n))
  ++ [Call (F_Name F) (map loadedParameter (seq 0 n)) (F_CallingConv F);
      if isVoidTy (F_ReturnType F) then RetVoid
      else Ret (InstResult (2 * n))].

(** The finished helper function of [EF], built over the function [F]
    of the module. *)
Definition helperFunction (EF : RSExportFunc) (F : LLVMFunction)
  : LLVMFunction :=
  addEntryBlock
    (createHelperFunction F (helperFunctionName EF)
                          (helperFunctionParameterTy F))
    (helperBody (getNumParameters EF) F).

(** The world after one iteration of the function loop; [F] is the
    function the helper was built over, if one was built. *)
Definition afterExportFunc (EF : RSExportFunc) (F : option LLVMFunction)
    (w : World) : World :=
  mkWorld (this w)
    (mkLLVMModule
       (FunctionList (theModule w)
        ++ match F with Some F => [helperFunction EF F] | None => [] end)
       (alter (fun ops => ops ++ [[funcDescriptor EF]]) RS_EXPORT_FUNC_MN
              (NamedMDList (theModule w))))
    (effects w
     ++ match F with
        | Some F => mismatchOutput EF (helperFunctionParameterTy F)
        | None => []
        end).

(** What every part of the emitter does at most to the function list and
    to the outside world: it adds functions, and it writes effects none
    of which is a diagnostic. *)
Definition grows (w w' : World) : Prop :=
  (exists hs, FunctionList (theModule w') = FunctionList (theModule w) ++ hs) /\
  (exists out, effects w' = effects w ++ out /\ reports out = []).

Definition funcRecord (EF : RSExportFunc) : MDNode := [funcDescriptor EF].

Definition forEachRecord (EFE : RSExportForEach) : MDNode :=
  [utostr_32 (EFE_MetadataEncoding EFE) false].

Definition fieldRecord (F : Field) : MDNode :=
  [Field_getName F; getName (Field_getType F); fieldKind (Field_getType F)].

Definition typeRecord (ET : RSExportType) : MDNode := [getName ET].

(** The record types among the exported types, in iteration order. *)
Definition recordTypes (types : list (string * RSExportType))
  : list RSExportType :=
  List.filter isRecord (List.map snd types).

Definition type_ready (w : World) : Prop :=
  mExportTypeMetadata (this w) = None \/
  (mExportTypeMetadata (this w) = Some RS_EXPORT_TYPE_MN /\
   is_Some (namedMetadata w RS_EXPORT_TYPE_MN)).

(** The module with one more operand on the list [h], and the module
    with the list [Name] in place. *)
Definition withOperand (h : string) (Info : MDNode) (w : World) : World :=
  mkWorld (this w)
    (mkLLVMModule (FunctionList (theModule w))
       (alter (fun ops => ops ++ [Info]) h (NamedMDList (theModule w))))
    (effects w).

Definition withList (Name : string) (w : World) : World :=
  mkWorld (this w)
    (mkLLVMModule (FunctionList (theModule w))
       (match NamedMDList (theModule w) !! Name with
        | Some _ => NamedMDList (theModule w)
        | None => <[Name := []]> (NamedMDList (theModule w))
        end))
    (effects w).

Definition is_validation_call (e : Effect) : bool :=
  match e with
  | RSExportType_NormalizeType _ | RSExportType_ValidateVarDecl _ => true
  | _ => false
  end.

(** Every diagnostic among [es] has error severity. *)
Definition reports_are_errors (es : list Effect) : Prop :=
  forall L Format Args, In (Report L Format Args) es -> L = Error.

(** Modelled from the spec: what [RSExportType::NormalizeType] and
    [RSExportType::ValidateVarDecl] (slang_rs_export_type.cpp, which is
    not among the sources) report when they answer false. The
    specification counts the unexportable type of a global variable and
    the unexportable shape of a variable declaration among the error
    kinds, reported by the collaborator and, like every kind, "through a
    diagnostic sink as errors (severity fixed), never as warnings". It
    does not give the texts of the messages: they are [TypeFormat] and
    [ShapeFormat]. *)
Definition RSExportType_reports (TypeFormat ShapeFormat : string) (e : Effect)
  : list Effect :=
  match e with
  | RSExportType_NormalizeType VD =>
      if VD_NormalizeType VD then []
      else [Report Error TypeFormat [VD_Name VD]]
  | RSExportType_ValidateVarDecl VD =>
      if VD_ValidateVarDecl VD then []
      else [Report Error ShapeFormat [VD_Name VD]]
  | _ => []
  end.

(** The diagnostics that reach the sink during [es]: those of the
    backend itself and those of its calls on [RSExportType]. *)
Definition sinkReports (TypeFormat ShapeFormat : string) (es : list Effect)
  : list Effect :=
  flat_map (fun e => if is_Report e then [e]
                     else RSExportType_reports TypeFormat ShapeFormat e) es.

(** The context with another version value. *)
Definition withVersion (version : Z) (C : RSContext) : RSContext :=
  mkRSContext version (processExport C) (export_vars C) (export_funcs C)
              (export_foreach C) (export_types C).

(** The function declarations and the variable declarations among the
    declarations [D], in order. *)
Definition functionDecls (D : list Decl) : list FunctionDecl :=
  omap (fun d => match d with Decl_Function FD => Some FD | _ => None end) D.

Definition variableDecls (D : list Decl) : list VarDecl :=
  omap (fun d => match d with Decl_Var VD => Some VD | _ => None end) D.

(** The functions whose bodies were handed to the reference counting
    visitor, and the groups handed to the base class, in program order. *)
Definition visits (es : list Effect) : list FunctionDecl :=
  omap (fun e => match e with RefCount_Visit FD => Some FD | _ => None end) es.

Definition forwarded (es : list Effect) : list DeclGroupRef :=
  omap (fun e => match e with
                 | Backend_HandleTopLevelDecl D => Some D
                 | _ => None
                 end) es.

(** The variable declarations on which [RSExportType::NormalizeType] and
    [RSExportType::ValidateVarDecl] were called, in program order. *)
Definition normalizedDecls (es : list Effect) : list VarDecl :=
  omap (fun e => match e with
                 | RSExportType_NormalizeType VD => Some VD
                 | _ => None
                 end) es.

Definition validatedDecls (es : list Effect) : list VarDecl :=
  omap (fun e => match e with
                 | RSExportType_ValidateVarDecl VD => Some VD
                 | _ => None
                 end) es.

Definition hasExternalLinkage (VD : VarDecl) : bool :=
  Linkage_eqb (VD_Linkage VD) ExternalLinkage.

(** A variable declaration that passes the checks that apply to it. *)
Definition passesValidation (VD : VarDecl) : bool :=
  (if hasExternalLinkage VD then VD_NormalizeType VD else true)
  && VD_ValidateVarDecl VD.

(** A function declaration that the reserved prefix rule rejects: its
    name starts with ["rs"] and it is not declared in an RS header. *)
Definition usesReservedPrefix (FD : FunctionDecl) : bool :=
  startswith (FD_Name FD) "rs" && negb (FD_InRSHeaderFile FD).

(** A function declaration whose body [AnnotateFunction] visits. *)
Definition isAnnotated (FD : FunctionDecl) : bool :=
  FD_hasBody FD && negb (FD_InRSHeaderFile FD).

(** Every visit of a body comes directly after a reset of the visitor. *)
Definition initBeforeVisit (es : list Effect) : Prop :=
  forall es1 FD es2,
    es = es1 ++ RefCount_Visit FD :: es2 ->
    exists es0, es1 = es0 ++ [RefCount_Init].

(** No effect list of the annotation starts with a visit. *)
Definition startsWithoutVisit (es : list Effect) : Prop :=
  forall FD rest, es <> RefCount_Visit FD :: rest.

(** The function of the module of [w] that an exported function names. *)
Definition moduleFunction (w : World) (EF : RSExportFunc)
  : option LLVMFunction :=
  lookupFunction (EF_Name EF) (FunctionList (theModule w)).

(** The helper functions of the exported functions with parameters, each
    built over the function of the module of [w] that it wraps, and what
    the parameter packet checks of these functions write. *)
Definition helperFunctions (w : World) (funcs : list RSExportFunc)
  : list LLVMFunction :=
  omap (fun EF => helperFunction EF <$> moduleFunction w EF)
       (List.filter hasParam funcs).

Definition mismatchOutputs (w : World) (funcs : list RSExportFunc)
  : list Effect :=
  flat_map (fun EF => match moduleFunction w EF with
                      | Some F => mismatchOutput EF (helperFunctionParameterTy F)
                      | None => []
                      end)
           (List.filter hasParam funcs).

(** What stops the emitter at an exported function with [n] parameters
    whose function in the module has [m] arguments, [m] other than [n]:
    the first argument of a helper without arguments, a field index
    beyond the packet, or a call with too few arguments. *)
Definition miscountFault (m n : nat) : string :=
  if Nat.eqb m 0 then "arg_begin() of a function without arguments"
  else if (m <? n)%nat then "getelementptr with invalid indices for the type"
  else "call with a bad signature".

(** The values an instruction reads, and the instructions that end a
    block. *)
Definition usedValues (I : Instruction) : list Value :=
  match I with
  | GetElementPtr _ Ptr IdxList => Ptr :: IdxList
  | Load Ptr => [Ptr]
  | Call _ Args _ => Args
  | RetVoid => []
  | Ret V => [V]
  end.

Definition isTerminator (I : Instruction) : bool :=
  match I with RetVoid | Ret _ => true | _ => false end.

(** *** Sample header values and sample units

    Closed inputs on which the statements below are instantiated at the
    end of the file. The header values are samples, not the values of the
    slang headers. *)

Definition sample_isRSObjectType (mType : Z) : bool :=
  (20 <=? mType) && (mType <=? 30).

Definition packet_accepted (EF : RSExportFunc) (T : option LLVMType) : bool :=
  true.

Definition packet_rejected (EF : RSExportFunc) (T : option LLVMType) : bool :=
  false.

Definition sample_int : RSExportType := RSExportPrimitiveType "int" 7 1.
Definition sample_float : RSExportType := RSExportPrimitiveType "float" 9 1.
Definition sample_allocation : RSExportType :=
  RSExportPrimitiveType "rs_allocation" 21 1.
Definition sample_empty_record : RSExportType := RSExportRecordType "E" [].
Definition sample_record : RSExportType :=
  RSExportRecordType "S" [("x", sample_int); ("e", sample_empty_record)].

(** [void bar(int a, float b)] and [void baz()]. *)
Definition sample_bar : RSExportFunc :=
  mkRSExportFunc "bar" [("a", sample_int); ("b", sample_float)] None.
Definition sample_baz : RSExportFunc := mkRSExportFunc "baz" [] None.

Definition sample_bar_function : LLVMFunction :=
  mkLLVMFunction "bar" VoidTy [IntegerTy 32; FloatTy] GV_ExternalLinkage 5 [] [].

(** A unit with version 1: [int foo; rs_allocation a; rs_matrix3x3 m;
    int *p;], the two functions, one kernel, and the types [S] and [int]. *)
Definition sample_context : RSContext :=
  mkRSContext 1 true
    [mkRSExportVar "foo" sample_int;
     mkRSExportVar "a" sample_allocation;
     mkRSExportVar "m" (RSExportMatrixType "rs_matrix3x3" 3);
     mkRSExportVar "p" (RSExportPointerType "*int" sample_int)]
    [sample_bar; sample_baz]
    [mkRSExportForEach "root" 5]
    [("S", sample_record); ("int", sample_int)].

Definition sample_module : LLVMModule :=
  mkLLVMModule [sample_bar_function] ∅.

(** The world as the emitter finds it. *)
Definition sample_world : World := mkWorld RSBackend_new sample_module [].

(** A world in the middle of the emitter's run: the five lists obtained
    and still without operands. *)
Definition sample_world_obtained : World :=
  mkWorld
    (mkRSBackend (Some RS_EXPORT_VAR_MN) (Some RS_EXPORT_FUNC_MN)
                 (Some RS_EXPORT_FOREACH_MN) (Some RS_EXPORT_TYPE_MN)
                 (Some RS_OBJECT_SLOTS_MN))
    (mkLLVMModule [sample_bar_function]
       (<[RS_EXPORT_VAR_MN := []]>
          (<[RS_EXPORT_FUNC_MN := []]>
             (<[RS_EXPORT_FOREACH_MN := []]>
                (<[RS_EXPORT_TYPE_MN := []]>
                   (<[RS_OBJECT_SLOTS_MN := []]> ∅))))))
    [].

(** [struct E {}; void f(struct E e)], for a target whose calling
    convention passes nothing for an empty structure: the exported
    function has one parameter, the function of the module has no
    argument. *)
Definition empty_struct_func : RSExportFunc :=
  mkRSExportFunc "f" [("e", sample_empty_record)] None.

Definition empty_struct_function : LLVMFunction :=
  mkLLVMFunction "f" VoidTy [] GV_ExternalLinkage 0 [] [].

Definition empty_struct_context : RSContext :=
  mkRSContext 1 true [] [empty_struct_func] [] [].

Definition empty_struct_world : World :=
  mkWorld RSBackend_new (mkLLVMModule [empty_struct_function] ∅) [].

(** A unit that exports the type [int] and no record type. *)
Definition int_only_context : RSContext :=
  mkRSContext 1 true [] [] [] [("int", sample_int)].

(** A unit with a global variable that fails validation and a static
    function with a body, and the same unit with the variable in order. *)
Definition sample_static_function : FunctionDecl :=
  mkFunctionDecl "helper" true false false.

Definition invalid_unit : list Decl :=
  [Decl_Var (mkVarDecl "v" ExternalLinkage false true);
   Decl_Function sample_static_function].

Definition valid_unit : list Decl :=
  [Decl_Var (mkVarDecl "v" ExternalLinkage true true);
   Decl_Function sample_static_function].

(** [struct E {}; void g(int a, struct E e)] for the same target: the
    exported function has two parameters, the function of the module has
    one argument. *)
Definition short_packet_func : RSExportFunc :=
  mkRSExportFunc "g" [("a", sample_int); ("e", sample_empty_record)] None.

Definition short_packet_function : LLVMFunction :=
  mkLLVMFunction "g" VoidTy [IntegerTy 32] GV_ExternalLinkage 0 [] [].

Definition short_packet_context : RSContext :=
  mkRSContext 1 true [] [short_packet_func] [] [].

Definition short_packet_world : World :=
  mkWorld RSBackend_new (mkLLVMModule [short_packet_function] ∅) [].

(** The world of a module from which the function [bar] is missing. *)
Definition bare_world : World :=
  mkWorld RSBackend_new (mkLLVMModule [] ∅) [].

(** The sample module with a named metadata list of another producer. *)
Definition sample_ident_world : World :=
  mkWorld RSBackend_new
    (mkLLVMModule [sample_bar_function] (<["llvm.ident" := [["slang"]]]> ∅))
    [].

Section DecimalFacts.
Import StringExtras Decimal.

Lemma digit_value_digit_char d :
  0 <= d < 10 -> digit_value (digit_char d) = Some d.
Proof.
  intros Hd. unfold digit_value, digit_char.
  rewrite N_ascii_embedding by lia.
  replace (Z.of_N (48 + Z.to_N d)) with (48 + d) by lia.
  replace (48 <=? 48 + d) with true by (symmetry; apply Z.leb_le; lia).
  replace (48 + d <=? 57) with true by (symmetry; apply Z.leb_le; lia).
  simpl. f_equal. lia.
Qed.

(** The digits written by the loop, read back in front of an accumulator. *)
Lemma value_from_utostr_loop fuel :
  forall X Buf, 0 <= X < 10 ^ Z.of_nat fuel ->
    exists k, 0 <= k /\ X < 10 ^ k /\
      forall acc, value_from acc (utostr_loop fuel X Buf)
                  = value_from (acc * 10 ^ k + X) Buf.
Proof.
  induction fuel as [|fuel IH]; intros X Buf HX.
  - exists 0. simpl in *. repeat split; try lia.
    intros acc. f_equal. lia.
  - cbn [utostr_loop]. destruct (Z.eqb_spec X 0) as [->|Hnz].
    + exists 0. repeat split; try lia. intros acc. f_equal. lia.
    + assert (Hdiv : 0 <= X / 10 < 10 ^ Z.of_nat fuel).
      { split; [apply Z.div_pos; lia|].
        apply Z.div_lt_upper_bound; [lia|].
        replace (Z.of_nat (S fuel)) with (Z.succ (Z.of_nat fuel)) in HX by lia.
        rewrite Z.pow_succ_r in HX by lia. lia. }
      destruct (IH (X / 10) (String (digit_char (X mod 10)) Buf) Hdiv)
        as (k & Hk & Hlt & Hval).
      exists (Z.succ k). split; [lia|]. split.
      * rewrite Z.pow_succ_r by lia.
        pose proof (Z.div_mod X 10 ltac:(lia)).
        pose proof (Z.mod_pos_bound X 10 ltac:(lia)). lia.
      * intros acc. rewrite Hval. cbn [value_from].
        rewrite digit_value_digit_char by (apply Z.mod_pos_bound; lia).
        f_equal. rewrite Z.pow_succ_r by lia.
        pose proof (Z.div_mod X 10 ltac:(lia)). lia.
Qed.

(** The first character written for a positive number is a non-zero digit. *)
Lemma utostr_loop_head fuel :
  forall X Buf, 0 < X < 10 ^ Z.of_nat fuel ->
    exists d rest, 1 <= d <= 9 /\
      utostr_loop fuel X Buf = String (digit_char d) rest.
Proof.
  induction fuel as [|fuel IH]; intros X Buf HX.
  - simpl in HX. lia.
  - cbn [utostr_loop]. destruct (Z.eqb_spec X 0); [lia|].
    replace (Z.of_nat (S fuel)) with (Z.succ (Z.of_nat fuel)) in HX by lia.
    rewrite Z.pow_succ_r in HX by lia.
    destruct (Z.eqb_spec (X / 10) 0) as [E|E].
    + rewrite E. exists (X mod 10), Buf.
      assert (X < 10) by (apply Z.div_small_iff in E; lia).
      rewrite Z.mod_small by lia. split; [lia|].
      destruct fuel; reflexivity.
    + apply IH. split.
      * assert (0 <= X / 10) by (apply Z.div_pos; lia). lia.
      * apply Z.div_lt_upper_bound; lia.
Qed.

Lemma digit_char_nonzero d : 1 <= d <= 9 -> digit_char d <> "0"%char.
Proof.
  intros Hd E. apply (f_equal N_of_ascii) in E.
  unfold digit_char in E. rewrite N_ascii_embedding in E by lia.
  simpl in E. lia.
Qed.

Lemma utostr_loop_decimal fuel X :
  0 < X < 10 ^ Z.of_nat fuel ->
  is_decimal_of (utostr_loop fuel X "") X.
Proof.
  intros HX.
  destruct (utostr_loop_head fuel X "" HX) as (d & rest & Hd & E).
  destruct (value_from_utostr_loop fuel X "" ltac:(lia)) as (k & _ & _ & Hval).
  split.
  - unfold value. rewrite E at 1. rewrite Hval. reflexivity.
  - rewrite E. unfold no_leading_zero.
    pose proof (digit_char_nonzero d Hd) as Hne.
    destruct (digit_char d) as [[] [] [] [] [] [] [] []]; try reflexivity.
    destruct rest; [reflexivity|]. exfalso. apply Hne. reflexivity.
Qed.

(** [utostr_32] prints the decimal numeral of its argument, taken as a
    [uint32_t]. *)
Lemma utostr_32_decimal X :
  is_decimal_of (utostr_32 X false) (X mod 2 ^ 32).
Proof.
  unfold utostr_32.
  pose proof (Z.mod_pos_bound X (2 ^ 32) ltac:(lia)) as Hb.
  destruct (Z.eqb_spec (X mod 2 ^ 32) 0) as [E|E].
  - rewrite E. split; reflexivity.
  - apply utostr_loop_decimal. change (10 ^ Z.of_nat 10) with 10000000000.
    change (2 ^ 32) with 4294967296 in *. lia.
Qed.

Lemma utostr_32_decimal_small X :
  0 <= X < 2 ^ 32 -> is_decimal_of (utostr_32 X false) X.
Proof.
  intros HX. pose proof (utostr_32_decimal X) as H.
  rewrite Z.mod_small in H by lia. exact H.
Qed.

Lemma utostr_32_inj X Y :
  0 <= X < 2 ^ 32 -> 0 <= Y < 2 ^ 32 ->
  utostr_32 X false = utostr_32 Y false -> X = Y.
Proof.
  intros HX HY E.
  destruct (utostr_32_decimal_small X HX) as [VX _].
  destruct (utostr_32_decimal_small Y HY) as [VY _].
  rewrite E in VX. congruence.
Qed.

End DecimalFacts.

(** ** The monad *)

Lemma bind_Normal {A B} (m : Emit A) (k : A -> Emit B) w r :
  bind m k w = Normal r <->
  exists a w1, m w = Normal (a, w1) /\ k a w1 = Normal r.
Proof.
  unfold bind. split.
  - destruct (m w) as [[a w1]| |]; [eauto|discriminate..].
  - intros (a & w1 & -> & H). exact H.
Qed.

Lemma bind_run {A B} (m : Emit A) (k : A -> Emit B) w a w1 :
  m w = Normal (a, w1) -> bind m k w = k a w1.
Proof. unfold bind. intros ->. reflexivity. Qed.

(** ** Exported variables *)

Lemma exportVarTypeInfo_counts EV :
  snd (exportVarTypeInfo (EV_Type EV)) = takesObjectSlot EV.
Proof.
  unfold takesObjectSlot. destruct (EV_Type EV); simpl; try reflexivity.
  destruct (isRSObjectType mType); reflexivity.
Qed.

(** One iteration of the variable loop. *)
Lemma exportVar_run EV k w :
  mExportVarMetadata (this w) = Some RS_EXPORT_VAR_MN ->
  slots_ready w ->
  exists w',
    exportVar EV k w = Normal (tt, w') /\
    this w' = set_mRSObjectSlotsMetadata RS_OBJECT_SLOTS_MN (this w) /\
    FunctionList (theModule w') = FunctionList (theModule w) /\
    effects w' = effects w /\
    namedMetadata w' RS_EXPORT_VAR_MN
      = (fun ops => ops ++ [varRecord EV]) <$> namedMetadata w RS_EXPORT_VAR_MN /\
    namedMetadata w' RS_OBJECT_SLOTS_MN
      = Some (operands w RS_OBJECT_SLOTS_MN
              ++ if takesObjectSlot EV then [slotRecord k] else []) /\
    (forall n, n <> RS_EXPORT_VAR_MN -> n <> RS_OBJECT_SLOTS_MN ->
               namedMetadata w' n = namedMetadata w n).
Proof.
  destruct w as [[v f fe t s] [fs MD] e]. unfold slots_ready, operands, namedMetadata.
  cbn. intros -> Hs.
  unfold exportVar, varRecord. rewrite <- exportVarTypeInfo_counts.
  destruct (exportVarTypeInfo (EV_Type EV)) as [TypeName counts]. cbn [fst snd].
  assert (Hne : RS_EXPORT_VAR_MN <> RS_OBJECT_SLOTS_MN) by discriminate.
  destruct Hs as [-> | [-> [old Hold]]].
  - unfold bind, addOperandTo, ensureMetadata, getThis, setThis, deref,
      getOrInsertNamedMetadata, addOperand, when, ret. cbn.
    rewrite lookup_alter_ne by done.
    destruct (MD !! RS_OBJECT_SLOTS_MN) as [old|] eqn:E; destruct counts; cbn;
      eexists; (split; [reflexivity|]); cbn;
      repeat split; intros;
      rewrite ?lookup_alter_eq, ?lookup_alter_ne, ?lookup_insert_eq,
        ?lookup_insert_ne, ?lookup_alter_eq, ?lookup_alter_ne, ?E by done;
      cbn; rewrite ?app_nil_r; try done.
  - unfold bind, addOperandTo, ensureMetadata, getThis, setThis, deref,
      getOrInsertNamedMetadata, addOperand, when, ret. cbn.
    destruct counts; cbn;
      eexists; (split; [reflexivity|]); cbn;
      repeat split; intros;
      rewrite ?lookup_alter_eq, ?lookup_alter_ne, ?lookup_alter_eq,
        ?lookup_alter_ne, ?Hold by done;
      cbn; rewrite ?app_nil_r; try done.
Qed.

Lemma increment_run (k : nat) w :
  Z.of_nat k < INT_MAX -> increment (Z.of_nat k) w = Normal (Z.of_nat (S k), w).
Proof.
  intros H. unfold increment.
  destruct (Z.ltb_spec (Z.of_nat k) INT_MAX); [|lia].
  do 2 f_equal. lia.
Qed.

Lemma increment_overflow (k : Z) w :
  INT_MAX <= k -> increment k w = Undefined "signed integer overflow".
Proof.
  intros H. unfold increment. destruct (Z.ltb_spec k INT_MAX); [lia|done].
Qed.

(** The whole loop, when the counter stays in range. *)
Lemma exportVarLoop_run vars : forall (k : nat) w,
  mExportVarMetadata (this w) = Some RS_EXPORT_VAR_MN ->
  slots_ready w ->
  Z.of_nat (k + length vars) <= INT_MAX ->
  exists w',
    exportVarLoop vars (Z.of_nat k) w
      = Normal (Z.of_nat (k + length vars), w') /\
    this w' = match vars with
              | [] => this w
              | _ => set_mRSObjectSlotsMetadata RS_OBJECT_SLOTS_MN (this w)
              end /\
    FunctionList (theModule w') = FunctionList (theModule w) /\
    effects w' = effects w /\
    namedMetadata w' RS_EXPORT_VAR_MN
      = (fun ops => ops ++ map varRecord vars)
          <$> namedMetadata w RS_EXPORT_VAR_MN /\
    namedMetadata w' RS_OBJECT_SLOTS_MN
      = match vars with
        | [] => namedMetadata w RS_OBJECT_SLOTS_MN
        | _ => Some (operands w RS_OBJECT_SLOTS_MN
                     ++ map (fun i => slotRecord (Z.of_nat i))
                            (objectSlots k vars))
        end /\
    (forall n, n <> RS_EXPORT_VAR_MN -> n <> RS_OBJECT_SLOTS_MN ->
               namedMetadata w' n = namedMetadata w n).
Proof.
  induction vars as [|EV rest IH]; intros k w Hv Hs Hk.
  - exists w. cbn. replace (k + 0)%nat with k by lia.
    repeat split; try done.
    match goal with |- ?x = _ <$> ?x => destruct x as [ops|] end; cbn; [|done].
    by rewrite app_nil_r.
  - cbn [length] in Hk.
    destruct (exportVar_run EV (Z.of_nat k) w Hv Hs)
      as (w1 & Hrun & Hthis & Hfs & Heff & Hvar & Hslots & Hother).
    assert (Hv1 : mExportVarMetadata (this w1) = Some RS_EXPORT_VAR_MN)
      by (rewrite Hthis; exact Hv).
    assert (Hs1 : slots_ready w1).
    { right. split; [by rewrite Hthis|]. rewrite Hslots. eauto. }
    destruct (IH (S k) w1 Hv1 Hs1 ltac:(lia))
      as (w' & Hloop & Hthis' & Hfs' & Heff' & Hvar' & Hslots' & Hother').
    exists w'. cbn [exportVarLoop].
    rewrite (bind_run _ _ _ _ _ Hrun).
    rewrite (bind_run _ _ _ _ _ (increment_run k w1 ltac:(lia))).
    rewrite Hloop. replace (S k + length rest)%nat with (k + S (length rest))%nat by lia.
    split; [reflexivity|].
    split. { rewrite Hthis', Hthis. by destruct rest. }
    split; [congruence|]. split; [congruence|].
    split.
    { rewrite Hvar', Hvar.
      destruct (namedMetadata w RS_EXPORT_VAR_MN) as [ops|]; cbn; [|done].
      by rewrite <- app_assoc. }
    split.
    { rewrite Hslots'. unfold operands at 1. rewrite Hslots.
      cbn [objectSlots]. rewrite map_app, app_assoc.
      destruct rest as [|EV' rest'].
      - cbn. rewrite app_nil_r. f_equal. f_equal.
        by destruct (takesObjectSlot EV).
      - cbn [default]. f_equal. f_equal. f_equal.
        by destruct (takesObjectSlot EV). }
    intros n H1 H2. rewrite Hother', Hother; done.
Qed.

(** The loop does not survive a counter beyond [INT_MAX]. *)
Lemma exportVarLoop_overflow vars : forall (k : nat) w,
  mExportVarMetadata (this w) = Some RS_EXPORT_VAR_MN ->
  slots_ready w ->
  Z.of_nat k <= INT_MAX ->
  INT_MAX < Z.of_nat (k + length vars) ->
  exportVarLoop vars (Z.of_nat k) w = Undefined "signed integer overflow".
Proof.
  induction vars as [|EV rest IH]; intros k w Hv Hs Hk Hover.
  - cbn in Hover. lia.
  - cbn [length] in Hover.
    destruct (exportVar_run EV (Z.of_nat k) w Hv Hs)
      as (w1 & Hrun & Hthis & Hfs & Heff & Hvar & Hslots & Hother).
    cbn [exportVarLoop]. rewrite (bind_run _ _ _ _ _ Hrun).
    destruct (Z.eq_dec (Z.of_nat k) INT_MAX) as [E|E].
    + unfold bind at 1. by rewrite increment_overflow by lia.
    + rewrite (bind_run _ _ _ _ _ (increment_run k w1 ltac:(lia))).
      apply IH; [by rewrite Hthis| |lia|lia].
      right. split; [by rewrite Hthis|]. rewrite Hslots. eauto.
Qed.

(** Obtaining a list that the backend has not obtained yet. *)
Lemma ensureMetadata_run get set Name w :
  get (this w) = None ->
  exists w0,
    ensureMetadata get set Name w = Normal (tt, w0) /\
    this w0 = set Name (this w) /\
    FunctionList (theModule w0) = FunctionList (theModule w) /\
    effects w0 = effects w /\
    namedMetadata w0 Name = Some (operands w Name) /\
    (forall n, n <> Name -> namedMetadata w0 n = namedMetadata w n).
Proof.
  intros Hget. destruct w as [b [fs MD] e]. cbn in Hget.
  unfold ensureMetadata, bind, getThis, setThis, getOrInsertNamedMetadata,
    operands, namedMetadata. cbn. rewrite Hget. cbn.
  eexists. split; [reflexivity|]. cbn. repeat split; try done.
  - destruct (MD !! Name) as [ops|] eqn:E; cbn; [done|].
    by rewrite lookup_insert_eq.
  - intros n Hn. destruct (MD !! Name); [done|].
    by rewrite lookup_insert_ne.
Qed.

Lemma ensureMetadata_skip get set Name w h :
  get (this w) = Some h -> ensureMetadata get set Name w = Normal (tt, w).
Proof.
  intros Hget. unfold ensureMetadata, bind, getThis. cbn. by rewrite Hget.
Qed.

(** The variable section of the emitter, from the state the constructor
    leaves. *)
Lemma dumpExportVars_run mContext w :
  mExportVarMetadata (this w) = None ->
  mRSObjectSlotsMetadata (this w) = None ->
  export_vars mContext <> [] ->
  Z.of_nat (length (export_vars mContext)) <= INT_MAX ->
  exists w',
    dumpExportVars mContext w = Normal (tt, w') /\
    this w' = set_mRSObjectSlotsMetadata RS_OBJECT_SLOTS_MN
                (set_mExportVarMetadata RS_EXPORT_VAR_MN (this w)) /\
    FunctionList (theModule w') = FunctionList (theModule w) /\
    effects w' = effects w /\
    namedMetadata w' RS_EXPORT_VAR_MN
      = Some (operands w RS_EXPORT_VAR_MN
              ++ map varRecord (export_vars mContext)) /\
    namedMetadata w' RS_OBJECT_SLOTS_MN
      = Some (operands w RS_OBJECT_SLOTS_MN
              ++ map (fun i => slotRecord (Z.of_nat i))
                     (objectSlots 0 (export_vars mContext))) /\
    (forall n, n <> RS_EXPORT_VAR_MN -> n <> RS_OBJECT_SLOTS_MN ->
               namedMetadata w' n = namedMetadata w n).
Proof.
  intros Hv Hs Hne Hlen. unfold dumpExportVars, hasExportVar.
  destruct (export_vars mContext) as [|EV rest] eqn:Evars; [done|].
  rewrite <- Evars in *. replace (length (export_vars mContext)) with
    (S (length rest)) by (by rewrite Evars). cbn [Nat.eqb negb when].
  destruct (ensureMetadata_run mExportVarMetadata set_mExportVarMetadata
              RS_EXPORT_VAR_MN w Hv)
    as (w0 & Hrun0 & Hthis0 & Hfs0 & Heff0 & Hvar0 & Hother0).
  assert (Hv0 : mExportVarMetadata (this w0) = Some RS_EXPORT_VAR_MN)
    by (by rewrite Hthis0).
  assert (Hs0 : slots_ready w0) by (left; by rewrite Hthis0).
  destruct (exportVarLoop_run (export_vars mContext) 0 w0 Hv0 Hs0 ltac:(lia))
    as (w' & Hloop & Hthis & Hfs & Heff & Hvar & Hslots & Hother).
  exists w'. rewrite (bind_run _ _ _ _ _ Hrun0).
  change 0 with (Z.of_nat 0). rewrite (bind_run _ _ _ _ _ Hloop).
  split; [reflexivity|].
  split. { rewrite Hthis, Hthis0, Evars. reflexivity. }
  split; [congruence|]. split; [congruence|].
  split. { rewrite Hvar, Hvar0. reflexivity. }
  split.
  { rewrite Hslots. rewrite Evars at 1. f_equal. f_equal.
    unfold operands. by rewrite Hother0. }
  intros n H1 H2. rewrite Hother, Hother0; done.
Qed.

Lemma dumpExportVars_empty mContext w :
  export_vars mContext = [] -> dumpExportVars mContext w = Normal (tt, w).
Proof. intros E. unfold dumpExportVars, hasExportVar. by rewrite E. Qed.

Lemma dumpExportVars_overflow mContext w :
  mExportVarMetadata (this w) = None ->
  mRSObjectSlotsMetadata (this w) = None ->
  INT_MAX < Z.of_nat (length (export_vars mContext)) ->
  dumpExportVars mContext w = Undefined "signed integer overflow".
Proof.
  intros Hv Hs Hlen. unfold dumpExportVars, hasExportVar.
  destruct (export_vars mContext) as [|EV rest] eqn:Evars;
    [cbn in Hlen; unfold INT_MAX in Hlen; lia|].
  rewrite <- Evars in *. replace (length (export_vars mContext)) with
    (S (length rest)) by (by rewrite Evars). cbn [Nat.eqb negb when].
  destruct (ensureMetadata_run mExportVarMetadata set_mExportVarMetadata
              RS_EXPORT_VAR_MN w Hv)
    as (w0 & Hrun0 & Hthis0 & Hfs0 & Heff0 & Hvar0 & Hother0).
  rewrite (bind_run _ _ _ _ _ Hrun0).
  unfold bind at 1. change 0 with (Z.of_nat 0).
  rewrite exportVarLoop_overflow; try done.
  all: first [ by rewrite Hthis0
             | left; by rewrite Hthis0
             | unfold INT_MAX; cbn; lia ].
Qed.

(** ** The body of a helper function *)

Lemma LLVMType_eqb_refl : forall a, LLVMType_eqb a a = true.
Proof.
  fix IH 1. intros [ |n| | |s|x|xs]; cbn; try reflexivity.
  - apply N.eqb_refl.
  - apply String.eqb_refl.
  - apply IH.
  - revert xs. fix IHxs 1. intros [|x xs]; [reflexivity|].
    rewrite (IH x). apply IHxs.
Qed.

Lemma LLVMType_eqb_fields_length xs : forall ys,
  LLVMType_eqb (StructTy xs) (StructTy ys) = true -> length xs = length ys.
Proof.
  induction xs as [|x xs IH]; intros [|y ys] H; try done.
  cbn in H. apply andb_true_iff in H as [_ H].
  cbn [length]. f_equal. by apply IH.
Qed.

Lemma length_fetchParameters n i :
  length (concat (map fetchParameter (seq i n))) = (2 * n)%nat.
Proof.
  revert i. induction n as [|n IH]; intros i; [done|].
  cbn [seq map concat]. rewrite length_app, IH. cbn. lia.
Qed.

(** One iteration of the parameter loop on the packet structure. *)
Lemma loadParameters_step T count (i : nat) BB Params :
  loadParameters (S count) (Z.of_nat i) (Argument 0, T)
                 (ConstantInt (IntegerTy 32) 0) BB Params
  = match getIndexedType T [ConstantInt (IntegerTy 32) 0;
                            ConstantInt (IntegerTy 32)
                                        (Z.of_nat i mod 2 ^ 32)] with
    | Some Ty =>
        loadParameters count (Z.of_nat (S i)) (Argument 0, T)
          (ConstantInt (IntegerTy 32) 0)
          (BB ++ [GetElementPtr true (Argument 0)
                    [ConstantInt (IntegerTy 32) 0;
                     ConstantInt (IntegerTy 32) (Z.of_nat i mod 2 ^ 32)];
                  Load (InstResult (length BB))])
          (Params ++ [(InstResult (S (length BB)), Ty)])
    | None => Undefined "getelementptr with invalid indices for the type"
    end.
Proof.
  cbn [loadParameters]. unfold CreateInBoundsGEP. cbn [fst snd].
  destruct (getIndexedType T _) as [Ty|]; [|done].
  cbn [andThen IRBuilder_insert CreateLoad fst snd].
  replace (Z.of_nat i + 1) with (Z.of_nat (S i)) by lia.
  rewrite length_app, <- app_assoc. cbn [length app].
  by replace (length BB + 1)%nat with (S (length BB)) by lia.
Qed.

(** Whatever the loop builds is the fetch of the parameters in order. *)
Lemma loadParameters_Normal T count : forall (i : nat) BB Params BB' Params',
  length BB = (2 * i)%nat ->
  loadParameters count (Z.of_nat i) (Argument 0, T)
                 (ConstantInt (IntegerTy 32) 0) BB Params
  = Normal (BB', Params') ->
  BB' = BB ++ concat (map fetchParameter (seq i count)) /\
  map fst Params' = map fst Params ++ map loadedParameter (seq i count).
Proof.
  induction count as [|count IH]; intros i BB Params BB' Params' Hlen Hrun.
  - cbn in Hrun. injection Hrun as <- <-. cbn. by rewrite !app_nil_r.
  - rewrite loadParameters_step in Hrun.
    destruct (getIndexedType T _) as [Ty|]; [|done].
    apply IH in Hrun as [-> ->]; [|rewrite length_app, Hlen; cbn; lia].
    cbn [seq map concat]. unfold fetchParameter at 2, loadedParameter at 2.
    rewrite Hlen, map_app, <- !app_assoc. cbn [map fst app].
    by replace (S (2 * i)) with (2 * i + 1)%nat by lia.
Qed.

Lemma getIndexedType_field fields (i : nat) :
  Z.of_nat i < 2 ^ 32 ->
  getIndexedType (PointerTy (StructTy fields))
    [ConstantInt (IntegerTy 32) 0;
     ConstantInt (IntegerTy 32) (Z.of_nat i mod 2 ^ 32)]
  = fields !! i.
Proof.
  intros Hi. cbn. rewrite Z.mod_small by lia. rewrite Nat2Z.id.
  by destruct (fields !! i).
Qed.

(** On a packet with enough fields the loop completes and loads values
    of the types of the fields. *)
Lemma loadParameters_run fields count : forall (i : nat) BB Params,
  (i + count <= length fields)%nat ->
  Z.of_nat (i + count) <= 2 ^ 32 ->
  exists BB' Params',
    loadParameters count (Z.of_nat i) (Argument 0, PointerTy (StructTy fields))
                   (ConstantInt (IntegerTy 32) 0) BB Params
    = Normal (BB', Params') /\
    map snd Params' = map snd Params ++ take count (drop i fields).
Proof.
  induction count as [|count IH]; intros i BB Params Hfit H32.
  - exists BB, Params. cbn. by rewrite app_nil_r.
  - rewrite loadParameters_step, getIndexedType_field by lia.
    destruct (fields !! i) as [Ty|] eqn:E.
    + destruct (IH (S i)
                  (BB ++ [GetElementPtr true (Argument 0)
                            [ConstantInt (IntegerTy 32) 0;
                             ConstantInt (IntegerTy 32)
                                         (Z.of_nat i mod 2 ^ 32)];
                          Load (InstResult (length BB))])
                  (Params ++ [(InstResult (S (length BB)), Ty)]))
        as (BB' & Params' & Hrun & Htys); [lia|lia|].
      exists BB', Params'. split; [done|].
      rewrite Htys, map_app, (drop_S _ _ _ E), <- app_assoc. done.
    + apply lookup_ge_None in E. lia.
Qed.

(** On a packet with too few fields the loop stops at the first index
    beyond them. *)
Lemma loadParameters_overrun fields count : forall (i : nat) BB Params,
  (i <= length fields < i + count)%nat ->
  Z.of_nat (length fields) < 2 ^ 32 ->
  loadParameters count (Z.of_nat i) (Argument 0, PointerTy (StructTy fields))
                 (ConstantInt (IntegerTy 32) 0) BB Params
  = Undefined "getelementptr with invalid indices for the type".
Proof.
  induction count as [|count IH]; intros i BB Params Hfit H32; [lia|].
  rewrite loadParameters_step, getIndexedType_field by lia.
  destruct (fields !! i) as [Ty|] eqn:E; [|done].
  apply lookup_lt_Some in E. apply IH; lia.
Qed.

(** The end of the body: the call and the return. *)
Lemma createHelperFunctionBody_unfold EF F P :
  createHelperFunctionBody EF F P
  = andThen
      (loadParameters (getNumParameters EF) 0 P (ConstantInt (IntegerTy 32) 0)
                      [] [])
      (fun '(BB, Params) =>
         if LLVMType_eqb (StructTy (map snd Params))
                         (StructTy (F_ArgumentList F))
         then Normal (BB ++ [Call (F_Name F) (map fst Params) (F_CallingConv F);
                             if isVoidTy (F_ReturnType F) then RetVoid
                             else Ret (InstResult (length BB))])
         else Undefined "call with a bad signature").
Proof.
  unfold createHelperFunctionBody.
  destruct (loadParameters _ _ _ _ _ _) as [[BB Params]| |]; [|done|done].
  cbn [andThen]. unfold CreateCall.
  destruct (LLVMType_eqb _ _); [|done].
  cbn [andThen IRBuilder_insert fst snd].
  rewrite alter_app_r_alt by lia.
  replace (length BB - length BB)%nat with O by lia.
  cbn [alter list_alter setCallingConv].
  destruct (isVoidTy (F_ReturnType F)); unfold IRBuilder_insert; cbn [snd];
    rewrite <- app_assoc; reflexivity.
Qed.

(** Whatever body is built is the body of the interface. *)
Lemma createHelperFunctionBody_Normal EF F T BB :
  createHelperFunctionBody EF F (Argument 0, T) = Normal BB ->
  BB = helperBody (getNumParameters EF) F.
Proof.
  rewrite createHelperFunctionBody_unfold.
  destruct (loadParameters _ _ _ _ _ _) as [[BB' Params]| |] eqn:E;
    [|done|done].
  cbn [andThen]. destruct (LLVMType_eqb _ _); [|done].
  intros [= <-]. change 0 with (Z.of_nat 0) in E.
  apply loadParameters_Normal in E as [-> ->]; [|done].
  cbn [app map]. rewrite length_fetchParameters. done.
Qed.

(** The body is built when the exported function has as many parameters
    as the function of the module has arguments. *)
Lemma createHelperFunctionBody_builds EF F :
  getNumParameters EF = length (F_ArgumentList F) ->
  Z.of_nat (length (F_ArgumentList F)) <= 2 ^ 32 ->
  createHelperFunctionBody EF F
    (Argument 0, PointerTy (StructTy (F_ArgumentList F)))
  = Normal (helperBody (getNumParameters EF) F).
Proof.
  intros Hn H32.
  destruct (loadParameters_run (F_ArgumentList F) (getNumParameters EF) 0 [] [])
    as (BB & Params & Hrun & Htys); [lia|lia|].
  assert (Hbuilt : createHelperFunctionBody EF F
            (Argument 0, PointerTy (StructTy (F_ArgumentList F)))
          = Normal (BB ++ [Call (F_Name F) (map fst Params) (F_CallingConv F);
                           if isVoidTy (F_ReturnType F) then RetVoid
                           else Ret (InstResult (length BB))])).
  { rewrite createHelperFunctionBody_unfold.
    change (Z.of_nat 0) with 0 in Hrun. rewrite Hrun. cbn [andThen].
    rewrite Htys. cbn [map app drop]. rewrite Hn, firstn_all.
    by rewrite LLVMType_eqb_refl. }
  rewrite Hbuilt. f_equal.
  by apply createHelperFunctionBody_Normal in Hbuilt.
Qed.

(** Otherwise the builder is used outside its contract. *)
Lemma createHelperFunctionBody_miscounted EF F :
  getNumParameters EF <> length (F_ArgumentList F) ->
  Z.of_nat (length (F_ArgumentList F)) < 2 ^ 32 ->
  createHelperFunctionBody EF F
    (Argument 0, PointerTy (StructTy (F_ArgumentList F)))
  = Undefined (if (length (F_ArgumentList F) <? getNumParameters EF)%nat
               then "getelementptr with invalid indices for the type"
               else "call with a bad signature").
Proof.
  intros Hn H32. rewrite createHelperFunctionBody_unfold.
  destruct (length (F_ArgumentList F) <? getNumParameters EF)%nat eqn:E.
  - apply Nat.ltb_lt in E.
    change 0 with (Z.of_nat 0).
    rewrite (loadParameters_overrun (F_ArgumentList F)) by lia. done.
  - apply Nat.ltb_ge in E.
    destruct (loadParameters_run (F_ArgumentList F) (getNumParameters EF)
                                 0 [] [])
      as (BB & Params & Hrun & Htys); [lia|lia|].
    change (Z.of_nat 0) with 0 in Hrun. rewrite Hrun. cbn [andThen].
    destruct (LLVMType_eqb _ _) eqn:Heq; [|done].
    apply LLVMType_eqb_fields_length in Heq.
    rewrite Htys in Heq. cbn [map app drop] in Heq.
    rewrite length_take in Heq. lia.
Qed.

(** ** Exported functions *)

Lemma reportParameterMismatch_run EF Ty w :
  reportParameterMismatch EF Ty w
  = Normal (tt, mkWorld (this w) (theModule w)
                        (effects w ++ mismatchOutput EF Ty)).
Proof.
  destruct w as [b M e].
  unfold reportParameterMismatch, mismatchOutput, when, bind, emitEffect, ret.
  destruct (checkParameterPacketType EF Ty); cbn.
  - by rewrite app_nil_r.
  - destruct (EF_ParamPacketType EF), Ty; cbn;
      rewrite <- ?app_assoc; reflexivity.
Qed.

Lemma mismatchOutput_no_report EF Ty : reports (mismatchOutput EF Ty) = [].
Proof.
  unfold mismatchOutput.
  destruct (checkParameterPacketType EF Ty); [done|].
  destruct (EF_ParamPacketType EF), Ty; reflexivity.
Qed.

Lemma exportFunc_noParam EF w :
  hasParam EF = false ->
  mExportFuncMetadata (this w) = Some RS_EXPORT_FUNC_MN ->
  exportFunc EF w = Normal (tt, afterExportFunc EF None w).
Proof.
  intros Hp Hh. destruct w as [b [fs MD] e]. cbn in Hh.
  unfold exportFunc, afterExportFunc, funcDescriptor. rewrite Hp. cbn.
  unfold bind, ret, addOperandTo, getThis, deref, addOperand. cbn.
  rewrite Hh. cbn. by rewrite !app_nil_r.
Qed.

(** An iteration on an exported function with parameters whose function
    in the module has arguments ends as the building of the body ends. *)
Lemma exportFunc_body EF F w :
  hasParam EF = true ->
  mExportFuncMetadata (this w) = Some RS_EXPORT_FUNC_MN ->
  lookupFunction (EF_Name EF) (FunctionList (theModule w)) = Some F ->
  F_ArgumentList F <> [] ->
  exportFunc EF w
  = andThen (createHelperFunctionBody EF F
               (Argument 0, PointerTy (StructTy (F_ArgumentList F))))
            (fun _ => Normal (tt, afterExportFunc EF (Some F) w)).
Proof.
  intros Hp Hh HF Hargs. destruct w as [b [fs MD] e]. cbn in Hh, HF.
  unfold exportFunc, afterExportFunc, funcDescriptor. rewrite Hp. cbn.
  unfold bind at 1. unfold bind at 1. unfold getFunction. cbn. rewrite HF.
  unfold bind at 1. cbn. unfold bind at 1. cbn.
  unfold bind at 1. unfold synthesizeHelperFunction.
  unfold bind at 1. rewrite reportParameterMismatch_run. cbn.
  unfold helperFunctionParameterTy.
  destruct (F_ArgumentList F) as [|T Ts] eqn:EA; [done|]. cbn.
  unfold bind at 1. unfold liftOutcome. rewrite <- EA.
  destruct (createHelperFunctionBody EF F _) as [BB| |] eqn:EB; [|done|done].
  apply createHelperFunctionBody_Normal in EB as ->. cbn [andThen].
  unfold bind, ret, addOperandTo, getThis, deref, addOperand, addFunction.
  cbn. rewrite Hh. cbn. unfold helperFunction, helperFunctionParameterTy.
  rewrite EA. reflexivity.
Qed.

Lemma hasParam_arguments EF F :
  hasParam EF = true ->
  getNumParameters EF = length (F_ArgumentList F) ->
  F_ArgumentList F <> [].
Proof.
  unfold hasParam, getNumParameters. intros Hp Hn Hnil.
  rewrite Hn, Hnil in Hp. discriminate.
Qed.

Lemma exportFunc_helper EF F w :
  hasParam EF = true ->
  mExportFuncMetadata (this w) = Some RS_EXPORT_FUNC_MN ->
  lookupFunction (EF_Name EF) (FunctionList (theModule w)) = Some F ->
  getNumParameters EF = length (F_ArgumentList F) ->
  Z.of_nat (length (F_ArgumentList F)) <= 2 ^ 32 ->
  exportFunc EF w = Normal (tt, afterExportFunc EF (Some F) w).
Proof.
  intros Hp Hh HF Hn H32.
  rewrite (exportFunc_body EF F w Hp Hh HF (hasParam_arguments EF F Hp Hn)).
  by rewrite createHelperFunctionBody_builds.
Qed.

Lemma exportFunc_miscounted EF F w :
  hasParam EF = true ->
  mExportFuncMetadata (this w) = Some RS_EXPORT_FUNC_MN ->
  lookupFunction (EF_Name EF) (FunctionList (theModule w)) = Some F ->
  F_ArgumentList F <> [] ->
  getNumParameters EF <> length (F_ArgumentList F) ->
  Z.of_nat (length (F_ArgumentList F)) < 2 ^ 32 ->
  exportFunc EF w
  = Undefined (if (length (F_ArgumentList F) <? getNumParameters EF)%nat
               then "getelementptr with invalid indices for the type"
               else "call with a bad signature").
Proof.
  intros Hp Hh HF Hargs Hn H32.
  rewrite (exportFunc_body EF F w Hp Hh HF Hargs).
  by rewrite createHelperFunctionBody_miscounted.
Qed.

Lemma exportFunc_disappeared EF w :
  hasParam EF = true ->
  lookupFunction (EF_Name EF) (FunctionList (theModule w)) = None ->
  exportFunc EF w
  = AssertionFailed "Function marked as exported disappeared in Bitcode".
Proof.
  intros Hp HF. unfold exportFunc. rewrite Hp. cbn.
  unfold bind, getFunction. rewrite HF. reflexivity.
Qed.

Lemma exportFunc_noArguments EF F w :
  hasParam EF = true ->
  lookupFunction (EF_Name EF) (FunctionList (theModule w)) = Some F ->
  F_ArgumentList F = [] ->
  exportFunc EF w = Undefined "arg_begin() of a function without arguments".
Proof.
  intros Hp HF Hargs. unfold exportFunc. rewrite Hp. cbn.
  unfold bind at 1. unfold bind at 1. unfold getFunction. rewrite HF.
  unfold bind at 1. cbn. unfold bind at 1. cbn.
  unfold bind at 1. unfold synthesizeHelperFunction.
  unfold bind at 1. rewrite reportParameterMismatch_run.
  unfold helperFunctionParameterTy. rewrite Hargs. reflexivity.
Qed.

(** Whenever an iteration of the function loop completes, it completes
    as one of the two regular cases. *)
Lemma exportFunc_Normal EF w w' :
  mExportFuncMetadata (this w) = Some RS_EXPORT_FUNC_MN ->
  exportFunc EF w = Normal (tt, w') ->
  (hasParam EF = false /\ w' = afterExportFunc EF None w) \/
  (hasParam EF = true /\
   exists F, lookupFunction (EF_Name EF) (FunctionList (theModule w)) = Some F
             /\ F_ArgumentList F <> []
             /\ w' = afterExportFunc EF (Some F) w).
Proof.
  intros Hh Hrun. destruct (hasParam EF) eqn:Hp.
  - right. split; [done|].
    destruct (lookupFunction (EF_Name EF) (FunctionList (theModule w)))
      as [F|] eqn:HF.
    + destruct (F_ArgumentList F) as [|T Ts] eqn:EA.
      * by rewrite (exportFunc_noArguments EF F w Hp HF EA) in Hrun.
      * exists F. rewrite (exportFunc_body EF F w Hp Hh HF) in Hrun
          by (by rewrite EA).
        destruct (createHelperFunctionBody EF F _); [|done|done].
        cbn [andThen] in Hrun.
        split; [done|]. split; [by rewrite EA|]. congruence.
    + by rewrite (exportFunc_disappeared EF w Hp HF) in Hrun.
  - left. split; [done|].
    rewrite (exportFunc_noParam EF w Hp Hh) in Hrun. congruence.
Qed.

Lemma grows_refl w : grows w w.
Proof. split; exists []; rewrite app_nil_r; done. Qed.

Lemma grows_same w w' :
  FunctionList (theModule w') = FunctionList (theModule w) ->
  effects w' = effects w -> grows w w'.
Proof. intros H1 H2. split; exists []; rewrite app_nil_r; done. Qed.

Lemma reports_app es1 es2 : reports (es1 ++ es2) = reports es1 ++ reports es2.
Proof. unfold reports. apply List.filter_app. Qed.

Lemma grows_trans w1 w2 w3 : grows w1 w2 -> grows w2 w3 -> grows w1 w3.
Proof.
  intros [[h1 H1] [o1 [E1 R1]]] [[h2 H2] [o2 [E2 R2]]]. split.
  - exists (h1 ++ h2). by rewrite H2, H1, app_assoc.
  - exists (o1 ++ o2). split; [by rewrite E2, E1, app_assoc|].
    by rewrite reports_app, R1, R2.
Qed.

Lemma lookupFunction_app Name fs hs F :
  lookupFunction Name fs = Some F -> lookupFunction Name (fs ++ hs) = Some F.
Proof.
  unfold lookupFunction. induction fs as [|G fs IH]; [done|]. cbn.
  destruct (String.eqb (F_Name G) Name); auto.
Qed.

Lemma grows_lookupFunction w w' Name F :
  grows w w' ->
  lookupFunction Name (FunctionList (theModule w)) = Some F ->
  lookupFunction Name (FunctionList (theModule w')) = Some F.
Proof. intros [[hs ->] _]. apply lookupFunction_app. Qed.

Lemma grows_In w w' F :
  grows w w' -> In F (FunctionList (theModule w)) ->
  In F (FunctionList (theModule w')).
Proof. intros [[hs ->] _] H. apply in_or_app. by left. Qed.

Lemma afterExportFunc_grows EF F w : grows w (afterExportFunc EF F w).
Proof.
  split; cbn; [eauto|]. eexists. split; [reflexivity|].
  destruct F; [apply mismatchOutput_no_report|done].
Qed.

(** The loop over the exported functions, when it completes. *)
Lemma forEach_exportFunc_Normal funcs : forall w w',
  mExportFuncMetadata (this w) = Some RS_EXPORT_FUNC_MN ->
  forEach funcs exportFunc w = Normal (tt, w') ->
  this w' = this w /\
  grows w w' /\
  namedMetadata w' RS_EXPORT_FUNC_MN
    = (fun ops => ops ++ map funcRecord funcs)
        <$> namedMetadata w RS_EXPORT_FUNC_MN /\
  (forall n, n <> RS_EXPORT_FUNC_MN ->
             namedMetadata w' n = namedMetadata w n) /\
  (forall EF, In EF funcs -> hasParam EF = true ->
     exists F,
       lookupFunction (EF_Name EF) (FunctionList (theModule w')) = Some F /\
       F_ArgumentList F <> [] /\
       In (helperFunction EF F) (FunctionList (theModule w'))).
Proof.
  induction funcs as [|EF rest IH]; intros w w' Hh Hrun.
  - cbn in Hrun. injection Hrun as <-. split; [done|].
    split; [apply grows_refl|]. split.
    { destruct (namedMetadata w RS_EXPORT_FUNC_MN); cbn; [|done].
      by rewrite app_nil_r. }
    split; [done|]. intros EF [].
  - cbn [forEach] in Hrun. apply bind_Normal in Hrun.
    destruct Hrun as ([] & w1 & Hstep & Hrest).
    assert (Hstep' := exportFunc_Normal EF w w1 Hh Hstep).
    assert (Hw1 : exists F, w1 = afterExportFunc EF F w)
      by (destruct Hstep' as [[_ ->]|[_ (F & _ & _ & ->)]]; eauto).
    destruct Hw1 as [Fo Hw1].
    assert (Hh1 : mExportFuncMetadata (this w1) = Some RS_EXPORT_FUNC_MN)
      by (by rewrite Hw1).
    destruct (IH w1 w' Hh1 Hrest) as (Hthis & Hgrow & Hlist & Hother & Hhelp).
    assert (Hg1 : grows w w1) by (rewrite Hw1; apply afterExportFunc_grows).
    split; [by rewrite Hthis, Hw1|].
    split; [by eapply grows_trans|].
    split.
    { rewrite Hlist, Hw1. unfold namedMetadata, afterExportFunc. cbn.
      rewrite lookup_alter_eq.
      destruct (NamedMDList (theModule w) !! RS_EXPORT_FUNC_MN); cbn; [|done].
      by rewrite <- app_assoc. }
    split.
    { intros n Hn. rewrite Hother by done. rewrite Hw1.
      unfold namedMetadata, afterExportFunc. cbn.
      by rewrite lookup_alter_ne. }
    intros EF' [<-|Hin] Hp; [|by apply Hhelp].
    destruct Hstep' as [[Hp' _]|[_ (F & HF & Hargs & Hw1')]]; [congruence|].
    exists F. split; [|split; [done|]].
    + eapply grows_lookupFunction; [by eapply grows_trans|done].
    + eapply grows_In; [done|]. rewrite Hw1'. cbn.
      apply in_or_app. right. by left.
Qed.

(** The function section, from the state the constructor leaves. *)
Lemma dumpExportFuncs_Normal mContext w w' :
  mExportFuncMetadata (this w) = None ->
  dumpExportFuncs mContext w = Normal (tt, w') ->
  this w' = match export_funcs mContext with
            | [] => this w
            | _ => set_mExportFuncMetadata RS_EXPORT_FUNC_MN (this w)
            end /\
  grows w w' /\
  namedMetadata w' RS_EXPORT_FUNC_MN
    = match export_funcs mContext with
      | [] => namedMetadata w RS_EXPORT_FUNC_MN
      | _ => Some (operands w RS_EXPORT_FUNC_MN
                   ++ map funcRecord (export_funcs mContext))
      end /\
  (forall n, n <> RS_EXPORT_FUNC_MN ->
             namedMetadata w' n = namedMetadata w n) /\
  (forall EF, In EF (export_funcs mContext) -> hasParam EF = true ->
     exists F,
       lookupFunction (EF_Name EF) (FunctionList (theModule w')) = Some F /\
       F_ArgumentList F <> [] /\
       In (helperFunction EF F) (FunctionList (theModule w'))).
Proof.
  intros Hh Hrun. unfold dumpExportFuncs, hasExportFunc in Hrun.
  destruct (export_funcs mContext) as [|EF rest] eqn:E.
  - cbn in Hrun. injection Hrun as <-.
    repeat split; try done; try apply grows_refl; try (by exists []; rewrite app_nil_r).
  - rewrite <- E in *. replace (length (export_funcs mContext))
      with (S (length rest)) in Hrun by (by rewrite E).
    cbn [Nat.eqb negb when] in Hrun.
    destruct (ensureMetadata_run mExportFuncMetadata set_mExportFuncMetadata
                RS_EXPORT_FUNC_MN w Hh)
      as (w0 & Hrun0 & Hthis0 & Hfs0 & Heff0 & Hl0 & Hother0).
    rewrite (bind_run _ _ _ _ _ Hrun0) in Hrun.
    assert (Hh0 : mExportFuncMetadata (this w0) = Some RS_EXPORT_FUNC_MN)
      by (by rewrite Hthis0).
    destruct (forEach_exportFunc_Normal _ _ _ Hh0 Hrun)
      as (Hthis & Hgrow & Hlist & Hother & Hhelp).
    split; [by rewrite Hthis, Hthis0|].
    split; [eapply grows_trans; [by apply grows_same|done]|].
    split; [by rewrite Hlist, Hl0|].
    split; [|done].
    intros n Hn. by rewrite Hother, Hother0.
Qed.

(** ** Exported kernels *)

Lemma forEach_exportForEach_run kernels : forall w,
  mExportForEachMetadata (this w) = Some RS_EXPORT_FOREACH_MN ->
  exists w',
    forEach kernels exportForEach w = Normal (tt, w') /\
    this w' = this w /\
    FunctionList (theModule w') = FunctionList (theModule w) /\
    effects w' = effects w /\
    namedMetadata w' RS_EXPORT_FOREACH_MN
      = (fun ops => ops ++ map forEachRecord kernels)
          <$> namedMetadata w RS_EXPORT_FOREACH_MN /\
    (forall n, n <> RS_EXPORT_FOREACH_MN ->
               namedMetadata w' n = namedMetadata w n).
Proof.
  induction kernels as [|EFE rest IH]; intros w Hh.
  - exists w. cbn. repeat split; try done.
    match goal with |- ?x = _ <$> ?x => destruct x as [ops|] end; cbn; [|done].
    by rewrite app_nil_r.
  - set (w1 := mkWorld (this w)
                 (mkLLVMModule (FunctionList (theModule w))
                    (alter (fun ops => ops ++ [forEachRecord EFE])
                           RS_EXPORT_FOREACH_MN (NamedMDList (theModule w))))
                 (effects w)).
    assert (Hstep : exportForEach EFE w = Normal (tt, w1)).
    { unfold exportForEach, addOperandTo, bind, getThis, deref, addOperand.
      cbn. by rewrite Hh. }
    destruct (IH w1 Hh) as (w' & Hrun & Hthis & Hfs & Heff & Hlist & Hother).
    exists w'. cbn [forEach]. rewrite (bind_run _ _ _ _ _ Hstep).
    split; [done|]. split; [done|]. split; [done|]. split; [done|].
    split.
    + rewrite Hlist. unfold namedMetadata, w1. cbn. rewrite lookup_alter_eq.
      destruct (NamedMDList (theModule w) !! RS_EXPORT_FOREACH_MN); cbn; [|done].
      by rewrite <- app_assoc.
    + intros n Hn. rewrite Hother by done. unfold namedMetadata, w1. cbn.
      by rewrite lookup_alter_ne.
Qed.

(** The kernel section always completes. *)
Lemma dumpExportForEach_run mContext w :
  mExportForEachMetadata (this w) = None ->
  exists w',
    dumpExportForEach mContext w = Normal (tt, w') /\
    this w' = match export_foreach mContext with
              | [] => this w
              | _ => set_mExportForEachMetadata RS_EXPORT_FOREACH_MN (this w)
              end /\
    FunctionList (theModule w') = FunctionList (theModule w) /\
    effects w' = effects w /\
    namedMetadata w' RS_EXPORT_FOREACH_MN
      = match export_foreach mContext with
        | [] => namedMetadata w RS_EXPORT_FOREACH_MN
        | _ => Some (operands w RS_EXPORT_FOREACH_MN
                     ++ map forEachRecord (export_foreach mContext))
        end /\
    (forall n, n <> RS_EXPORT_FOREACH_MN ->
               namedMetadata w' n = namedMetadata w n).
Proof.
  intros Hh. unfold dumpExportForEach, hasExportForEach.
  destruct (export_foreach mContext) as [|EFE rest] eqn:E.
  - exists w. cbn. repeat split; done.
  - rewrite <- E. replace (length (export_foreach mContext))
      with (S (length rest)) by (by rewrite E).
    cbn [Nat.eqb negb when].
    destruct (ensureMetadata_run mExportForEachMetadata
                set_mExportForEachMetadata RS_EXPORT_FOREACH_MN w Hh)
      as (w0 & Hrun0 & Hthis0 & Hfs0 & Heff0 & Hl0 & Hother0).
    assert (Hh0 : mExportForEachMetadata (this w0) = Some RS_EXPORT_FOREACH_MN)
      by (by rewrite Hthis0).
    destruct (forEach_exportForEach_run (export_foreach mContext) w0 Hh0)
      as (w' & Hrun & Hthis & Hfs & Heff & Hlist & Hother).
    exists w'. rewrite (bind_run _ _ _ _ _ Hrun0).
    split; [done|]. split; [by rewrite Hthis, Hthis0|].
    split; [congruence|]. split; [congruence|].
    split; [by rewrite Hlist, Hl0|].
    intros n Hn. by rewrite Hother, Hother0.
Qed.

(** ** Exported types *)

Lemma forEach_exportField_run h fields : forall w,
  exists w',
    forEach fields (exportField h) w = Normal (tt, w') /\
    this w' = this w /\
    FunctionList (theModule w') = FunctionList (theModule w) /\
    effects w' = effects w /\
    namedMetadata w' h
      = (fun ops => ops ++ map fieldRecord fields) <$> namedMetadata w h /\
    (forall n, n <> h -> namedMetadata w' n = namedMetadata w n).
Proof.
  induction fields as [|F rest IH]; intros w.
  - exists w. cbn. repeat split; try done.
    match goal with |- ?x = _ <$> ?x => destruct x as [ops|] end; cbn; [|done].
    by rewrite app_nil_r.
  - set (w1 := mkWorld (this w)
                 (mkLLVMModule (FunctionList (theModule w))
                    (alter (fun ops => ops ++ [fieldRecord F]) h
                           (NamedMDList (theModule w))))
                 (effects w)).
    assert (Hstep : exportField h F w = Normal (tt, w1)) by reflexivity.
    destruct (IH w1) as (w' & Hrun & Hthis & Hfs & Heff & Hlist & Hother).
    exists w'. cbn [forEach]. rewrite (bind_run _ _ _ _ _ Hstep).
    split; [done|]. split; [done|]. split; [done|]. split; [done|].
    split.
    + rewrite Hlist. unfold namedMetadata, w1. cbn. rewrite lookup_alter_eq.
      destruct (NamedMDList (theModule w) !! h); cbn; [|done].
      by rewrite <- app_assoc.
    + intros n Hn. rewrite Hother by done. unfold namedMetadata, w1. cbn.
      by rewrite lookup_alter_ne.
Qed.

Lemma structInfoMetadataName_not_type ET :
  structInfoMetadataName ET <> RS_EXPORT_TYPE_MN.
Proof. discriminate. Qed.

Lemma structInfoMetadataName_inj ET1 ET2 :
  structInfoMetadataName ET1 = structInfoMetadataName ET2 ->
  getName ET1 = getName ET2.
Proof. unfold structInfoMetadataName. cbn. intros H. by injection H. Qed.

Lemma addOperandTo_run get Info w h :
  get (this w) = Some h ->
  addOperandTo get Info w = Normal (tt, withOperand h Info w).
Proof.
  intros Hh. unfold addOperandTo, bind, getThis, deref. cbn. by rewrite Hh.
Qed.

Lemma getOrInsertNamedMetadata_run Name w :
  getOrInsertNamedMetadata Name w = Normal (Name, withList Name w).
Proof. reflexivity. Qed.

Lemma namedMetadata_withOperand_eq h Info w :
  namedMetadata (withOperand h Info w) h
  = (fun ops => ops ++ [Info]) <$> namedMetadata w h.
Proof. unfold namedMetadata. cbn. by rewrite lookup_alter_eq. Qed.

Lemma namedMetadata_withOperand_ne h Info w n :
  n <> h -> namedMetadata (withOperand h Info w) n = namedMetadata w n.
Proof. intros Hn. unfold namedMetadata. cbn. by rewrite lookup_alter_ne. Qed.

Lemma namedMetadata_withList_eq Name w :
  namedMetadata (withList Name w) Name = Some (operands w Name).
Proof.
  unfold operands, namedMetadata. cbn.
  destruct (NamedMDList (theModule w) !! Name) eqn:E; cbn; [done|].
  by rewrite lookup_insert_eq.
Qed.

Lemma namedMetadata_withList_ne Name w n :
  n <> Name -> namedMetadata (withList Name w) n = namedMetadata w n.
Proof.
  intros Hn. unfold namedMetadata. cbn.
  destruct (NamedMDList (theModule w) !! Name); [done|].
  by rewrite lookup_insert_ne.
Qed.

Lemma ensure_type_list w :
  type_ready w ->
  exists w0,
    ensureMetadata mExportTypeMetadata set_mExportTypeMetadata
                   RS_EXPORT_TYPE_MN w = Normal (tt, w0) /\
    this w0 = set_mExportTypeMetadata RS_EXPORT_TYPE_MN (this w) /\
    FunctionList (theModule w0) = FunctionList (theModule w) /\
    effects w0 = effects w /\
    namedMetadata w0 RS_EXPORT_TYPE_MN = Some (operands w RS_EXPORT_TYPE_MN) /\
    (forall n, n <> RS_EXPORT_TYPE_MN -> namedMetadata w0 n = namedMetadata w n).
Proof.
  intros [Hn|[Hs [ops Hops]]].
  - by apply ensureMetadata_run.
  - exists w. rewrite (ensureMetadata_skip _ _ _ _ _ Hs).
    repeat split; try done.
    + destruct w as [[v f fe t s] M e]. cbn in *. by subst.
    + unfold operands. by rewrite Hops.
Qed.

Lemma exportType_other entry w :
  isRecord (snd entry) = false -> exportType entry w = Normal (tt, w).
Proof. unfold exportType. by destruct (snd entry). Qed.

(** One record type: the assertion decides. *)
Lemma exportType_record key n fields w :
  type_ready w ->
  let ET := RSExportRecordType n fields in
  (operands w (structInfoMetadataName ET) <> [] ->
   exportType (key, ET) w
   = AssertionFailed "Metadata with same name was created before") /\
  (operands w (structInfoMetadataName ET) = [] ->
   exists w',
     exportType (key, ET) w = Normal (tt, w') /\
     this w' = set_mExportTypeMetadata RS_EXPORT_TYPE_MN (this w) /\
     FunctionList (theModule w') = FunctionList (theModule w) /\
     effects w' = effects w /\
     namedMetadata w' RS_EXPORT_TYPE_MN
       = Some (operands w RS_EXPORT_TYPE_MN ++ [typeRecord ET]) /\
     namedMetadata w' (structInfoMetadataName ET)
       = Some (map fieldRecord fields) /\
     (forall n', n' <> RS_EXPORT_TYPE_MN ->
                 n' <> structInfoMetadataName ET ->
                 namedMetadata w' n' = namedMetadata w n')).
Proof.
  intros Hready ET.
  destruct (ensure_type_list w Hready)
    as (w0 & Hrun0 & Hthis0 & Hfs0 & Heff0 & Hl0 & Hother0).
  assert (Hh0 : mExportTypeMetadata (this w0) = Some RS_EXPORT_TYPE_MN)
    by (by rewrite Hthis0).
  pose proof (structInfoMetadataName_not_type ET) as Hne.
  set (S := structInfoMetadataName ET) in *.
  set (w1 := withOperand RS_EXPORT_TYPE_MN [getName ET] w0).
  set (w2 := withList S w1).
  assert (Hops : operands w1 S = operands w S).
  { unfold operands, w1. rewrite namedMetadata_withOperand_ne by done.
    by rewrite Hother0. }
  assert (Hunfold :
    exportType (key, ET) w
    = (slangAssert (Nat.eqb (length (operands w S)) 0)
                   "Metadata with same name was created before" ;;
       forEach fields (exportField S)) w2).
  { unfold exportType. cbn [snd ET].
    rewrite (bind_run _ _ _ _ _ Hrun0).
    rewrite (bind_run _ _ _ _ _ (addOperandTo_run _ _ _ _ Hh0)).
    rewrite (bind_run _ _ _ _ _ (getOrInsertNamedMetadata_run _ _)).
    fold S w1 w2. unfold bind at 1. unfold getNumOperands.
    fold (namedMetadata w2 S). unfold w2 at 1.
    rewrite namedMetadata_withList_eq. cbn [default]. by rewrite Hops. }
  split.
  - intros Hnonempty. rewrite Hunfold. unfold bind, slangAssert.
    destruct (operands w S); done.
  - intros Hempty. rewrite Hunfold, Hempty. cbn [length Nat.eqb].
    unfold bind at 1. cbn [slangAssert].
    destruct (forEach_exportField_run S fields w2)
      as (w' & Hrun & Hthis & Hfs & Heff & Hlist & Hother).
    exists w'. split; [done|].
    split; [by rewrite Hthis|]. split; [by rewrite Hfs|].
    split; [by rewrite Heff|].
    split.
    { rewrite Hother by done. unfold w2.
      rewrite namedMetadata_withList_ne by done. unfold w1.
      rewrite namedMetadata_withOperand_eq, Hl0. reflexivity. }
    split.
    { rewrite Hlist. unfold w2. rewrite namedMetadata_withList_eq.
      by rewrite Hops, Hempty. }
    intros n' H1 H2. rewrite Hother by done. unfold w2.
    rewrite namedMetadata_withList_ne by done. unfold w1.
    rewrite namedMetadata_withOperand_ne by done. by apply Hother0.
Qed.

Lemma recordTypes_cons_record key n fields types :
  recordTypes ((key, RSExportRecordType n fields) :: types)
  = RSExportRecordType n fields :: recordTypes types.
Proof. reflexivity. Qed.

Lemma recordTypes_cons_other entry types :
  isRecord (snd entry) = false ->
  recordTypes (entry :: types) = recordTypes types.
Proof. intros H. unfold recordTypes. cbn. by rewrite H. Qed.

Lemma In_recordTypes n fields types :
  In (RSExportRecordType n fields) (List.map snd types) ->
  In (RSExportRecordType n fields) (recordTypes types).
Proof. intros H. unfold recordTypes. apply List.filter_In. by split. Qed.

(** The loop over the exported types, when it completes. *)
Lemma forEach_exportType_Normal types : forall w w',
  type_ready w ->
  forEach types exportType w = Normal (tt, w') ->
  type_ready w' /\
  this w' = match recordTypes types with
            | [] => this w
            | _ => set_mExportTypeMetadata RS_EXPORT_TYPE_MN (this w)
            end /\
  FunctionList (theModule w') = FunctionList (theModule w) /\
  effects w' = effects w /\
  namedMetadata w' RS_EXPORT_TYPE_MN
    = match recordTypes types with
      | [] => namedMetadata w RS_EXPORT_TYPE_MN
      | _ => Some (operands w RS_EXPORT_TYPE_MN
                   ++ map typeRecord (recordTypes types))
      end /\
  (forall n, n <> RS_EXPORT_TYPE_MN ->
     (forall ET, In ET (recordTypes types) -> n <> structInfoMetadataName ET) ->
     namedMetadata w' n = namedMetadata w n) /\
  (NoDup (map getName (recordTypes types)) ->
   forall n fields,
     In (RSExportRecordType n fields) (List.map snd types) ->
     namedMetadata w' (structInfoMetadataName (RSExportRecordType n fields))
     = Some (map fieldRecord fields)).
Proof.
  induction types as [|[key ET] rest IH]; intros w w' Hready Hrun.
  - cbn in Hrun. injection Hrun as <-. cbn. repeat split; try done.
    all: by destruct Hready.
  - cbn [forEach] in Hrun. apply bind_Normal in Hrun.
    destruct Hrun as ([] & w1 & Hstep & Hrest).
    destruct (isRecord ET) eqn:Hrec.
    + destruct ET as [| | | | |n fields]; try discriminate.
      destruct (exportType_record key n fields w Hready) as [Hfail Hok].
      destruct (operands w (structInfoMetadataName (RSExportRecordType n fields)))
        as [|op ops] eqn:Hops; [|by rewrite Hfail in Hstep].
      destruct (Hok eq_refl)
        as (w1' & Hrun1 & Hthis1 & Hfs1 & Heff1 & Hl1 & Hs1 & Hother1).
      assert (w1' = w1) as -> by congruence.
      assert (Hready1 : type_ready w1).
      { right. split; [by rewrite Hthis1|]. rewrite Hl1. eauto. }
      destruct (IH w1 w' Hready1 Hrest)
        as (Hready' & Hthis & Hfs & Heff & Hl & Hother & Hstruct).
      rewrite recordTypes_cons_record.
      split; [done|].
      split. { rewrite Hthis, Hthis1. by destruct (recordTypes rest). }
      split; [congruence|]. split; [congruence|].
      split.
      { rewrite Hl. unfold operands at 1. rewrite Hl1. cbn [default map].
        destruct (recordTypes rest); cbn [map]; [done|].
        unfold id. by rewrite <- app_assoc. }
      split.
      { intros m Hm Hfresh. rewrite Hother, Hother1; try done.
        - apply Hfresh. by left.
        - intros ET' Hin. apply Hfresh. by right. }
      intros Hnodup m mfields Hin. cbn [map] in Hnodup.
      apply NoDup_cons in Hnodup as [Hnotin Hnodup].
      cbn [List.map snd] in Hin. destruct Hin as [Heq|Hin].
      * injection Heq as <- <-. rewrite Hother; [done| |].
        -- apply structInfoMetadataName_not_type.
        -- intros ET' Hin' Heq'. apply Hnotin.
           apply structInfoMetadataName_inj in Heq'. cbn in Heq'.
           cbn [getName]. rewrite Heq'. apply list_elem_of_In.
           by apply in_map.
      * by apply Hstruct.
    + rewrite (exportType_other (key, ET) w Hrec) in Hstep.
      injection Hstep as <-.
      rewrite (recordTypes_cons_other (key, ET) rest Hrec).
      destruct (IH w w' Hready Hrest)
        as (Hready' & Hthis & Hfs & Heff & Hl & Hother & Hstruct).
      repeat split; try done.
      intros Hnodup m mfields Hin. cbn [List.map snd] in Hin.
      destruct Hin as [Heq|Hin]; [by subst ET|by apply Hstruct].
Qed.

(** The type section, from the state the constructor leaves. *)
Lemma dumpExportTypes_Normal mContext w w' :
  mExportTypeMetadata (this w) = None ->
  dumpExportTypes mContext w = Normal (tt, w') ->
  FunctionList (theModule w') = FunctionList (theModule w) /\
  effects w' = effects w /\
  namedMetadata w' RS_EXPORT_TYPE_MN
    = match recordTypes (export_types mContext) with
      | [] => namedMetadata w RS_EXPORT_TYPE_MN
      | _ => Some (operands w RS_EXPORT_TYPE_MN
                   ++ map typeRecord (recordTypes (export_types mContext)))
      end /\
  (forall n, n <> RS_EXPORT_TYPE_MN ->
     (forall ET, In ET (recordTypes (export_types mContext)) ->
                 n <> structInfoMetadataName ET) ->
     namedMetadata w' n = namedMetadata w n) /\
  (NoDup (map getName (recordTypes (export_types mContext))) ->
   forall n fields,
     In (RSExportRecordType n fields) (List.map snd (export_types mContext)) ->
     namedMetadata w' (structInfoMetadataName (RSExportRecordType n fields))
     = Some (map fieldRecord fields)).
Proof.
  intros Hh Hrun. unfold dumpExportTypes, hasExportType in Hrun.
  destruct (export_types mContext) as [|entry rest] eqn:E.
  - cbn in Hrun. injection Hrun as <-. cbn. repeat split; try done.
  - rewrite <- E in *. replace (length (export_types mContext))
      with (S (length rest)) in Hrun by (by rewrite E).
    cbn [Nat.eqb negb when] in Hrun.
    destruct (forEach_exportType_Normal _ w w' (or_introl Hh) Hrun)
      as (_ & _ & Hfs & Heff & Hl & Hother & Hstruct).
    repeat split; done.
Qed.

(** ** The emitter as a whole *)

(** The variable section, when it completes. *)
Lemma dumpExportVars_Normal mContext w w1 :
  mExportVarMetadata (this w) = None ->
  mRSObjectSlotsMetadata (this w) = None ->
  dumpExportVars mContext w = Normal (tt, w1) ->
  Z.of_nat (length (export_vars mContext)) <= INT_MAX /\
  this w1 = match export_vars mContext with
            | [] => this w
            | _ => set_mRSObjectSlotsMetadata RS_OBJECT_SLOTS_MN
                     (set_mExportVarMetadata RS_EXPORT_VAR_MN (this w))
            end /\
  FunctionList (theModule w1) = FunctionList (theModule w) /\
  effects w1 = effects w /\
  namedMetadata w1 RS_EXPORT_VAR_MN
    = match export_vars mContext with
      | [] => namedMetadata w RS_EXPORT_VAR_MN
      | _ => Some (operands w RS_EXPORT_VAR_MN
                   ++ map varRecord (export_vars mContext))
      end /\
  namedMetadata w1 RS_OBJECT_SLOTS_MN
    = match export_vars mContext with
      | [] => namedMetadata w RS_OBJECT_SLOTS_MN
      | _ => Some (operands w RS_OBJECT_SLOTS_MN
                   ++ map (fun i => slotRecord (Z.of_nat i))
                          (objectSlots 0 (export_vars mContext)))
      end /\
  (forall n, n <> RS_EXPORT_VAR_MN -> n <> RS_OBJECT_SLOTS_MN ->
             namedMetadata w1 n = namedMetadata w n).
Proof.
  intros Hv Hs Hrun.
  destruct (export_vars mContext) as [|EV rest] eqn:E.
  - rewrite (dumpExportVars_empty mContext w E) in Hrun.
    injection Hrun as <-. cbn. unfold INT_MAX. repeat split; done.
  - rewrite <- E in *.
    destruct (Z_le_gt_dec (Z.of_nat (length (export_vars mContext))) INT_MAX)
      as [Hle|Hgt].
    + destruct (dumpExportVars_run mContext w Hv Hs) as (w' & Hrun' & H);
        [by rewrite E|done|].
      assert (w' = w1) as -> by congruence.
      split; [done|]. exact H.
    + rewrite (dumpExportVars_overflow mContext w Hv Hs) in Hrun by lia.
      discriminate.
Qed.

(** The names of the five lists differ, and none is the name of a
    per-record list. *)
Lemma structInfoMetadataName_not_var ET :
  RS_EXPORT_VAR_MN <> structInfoMetadataName ET.
Proof. discriminate. Qed.
Lemma structInfoMetadataName_not_slots ET :
  RS_OBJECT_SLOTS_MN <> structInfoMetadataName ET.
Proof. discriminate. Qed.
Lemma structInfoMetadataName_not_func ET :
  RS_EXPORT_FUNC_MN <> structInfoMetadataName ET.
Proof. discriminate. Qed.

(** What a completed run of [HandleTranslationUnitPost] leaves, from the
    state the constructor leaves. *)
Lemma HandleTranslationUnitPost_Normal mContext w w' :
  processExport mContext = true ->
  this w = RSBackend_new ->
  HandleTranslationUnitPost mContext w = Normal (tt, w') ->
  Z.of_nat (length (export_vars mContext)) <= INT_MAX /\
  grows w w' /\
  namedMetadata w' RS_EXPORT_VAR_MN
    = match export_vars mContext with
      | [] => namedMetadata w RS_EXPORT_VAR_MN
      | _ => Some (operands w RS_EXPORT_VAR_MN
                   ++ map varRecord (export_vars mContext))
      end /\
  namedMetadata w' RS_OBJECT_SLOTS_MN
    = match export_vars mContext with
      | [] => namedMetadata w RS_OBJECT_SLOTS_MN
      | _ => Some (operands w RS_OBJECT_SLOTS_MN
                   ++ map (fun i => slotRecord (Z.of_nat i))
                          (objectSlots 0 (export_vars mContext)))
      end /\
  namedMetadata w' RS_EXPORT_FUNC_MN
    = match export_funcs mContext with
      | [] => namedMetadata w RS_EXPORT_FUNC_MN
      | _ => Some (operands w RS_EXPORT_FUNC_MN
                   ++ map funcRecord (export_funcs mContext))
      end /\
  (forall EF, In EF (export_funcs mContext) -> hasParam EF = true ->
     exists F,
       lookupFunction (EF_Name EF) (FunctionList (theModule w')) = Some F /\
       F_ArgumentList F <> [] /\
       In (helperFunction EF F) (FunctionList (theModule w'))) /\
  namedMetadata w' RS_EXPORT_TYPE_MN
    = match recordTypes (export_types mContext) with
      | [] => namedMetadata w RS_EXPORT_TYPE_MN
      | _ => Some (operands w RS_EXPORT_TYPE_MN
                   ++ map typeRecord (recordTypes (export_types mContext)))
      end /\
  (NoDup (map getName (recordTypes (export_types mContext))) ->
   forall n fields,
     In (RSExportRecordType n fields) (List.map snd (export_types mContext)) ->
     namedMetadata w' (structInfoMetadataName (RSExportRecordType n fields))
     = Some (map fieldRecord fields)).
Proof.
  intros Hproc Hnew Hrun. unfold HandleTranslationUnitPost in Hrun.
  rewrite Hproc in Hrun. cbn [negb] in Hrun.
  apply bind_Normal in Hrun. destruct Hrun as ([] & w1 & Hvars & Hrun).
  apply bind_Normal in Hrun. destruct Hrun as ([] & w2 & Hfuncs & Hrun).
  apply bind_Normal in Hrun. destruct Hrun as ([] & w3 & Hforeach & Htypes).
  destruct (dumpExportVars_Normal mContext w w1) as
    (Hlen & Hthis1 & Hfs1 & Heff1 & Hvar1 & Hslots1 & Hother1);
    [by rewrite Hnew|by rewrite Hnew|done|].
  assert (Hf1 : mExportFuncMetadata (this w1) = None)
    by (rewrite Hthis1, Hnew; by destruct (export_vars mContext)).
  destruct (dumpExportFuncs_Normal mContext w1 w2 Hf1 Hfuncs)
    as (Hthis2 & Hgrow2 & Hfunc2 & Hother2 & Hhelp2).
  assert (Hfe2 : mExportForEachMetadata (this w2) = None).
  { rewrite Hthis2, Hthis1, Hnew.
    by destruct (export_vars mContext), (export_funcs mContext). }
  destruct (dumpExportForEach_run mContext w2 Hfe2)
    as (w3' & Hrun3 & Hthis3 & Hfs3 & Heff3 & _ & Hother3).
  assert (w3' = w3) as -> by congruence.
  assert (Ht3 : mExportTypeMetadata (this w3) = None).
  { rewrite Hthis3, Hthis2, Hthis1, Hnew.
    by destruct (export_vars mContext), (export_funcs mContext),
                (export_foreach mContext). }
  destruct (dumpExportTypes_Normal mContext w3 w' Ht3 Htypes)
    as (Hfs4 & Heff4 & Htype4 & Hother4 & Hstruct4).
  assert (Hkeep : forall n,
    n <> RS_EXPORT_FOREACH_MN -> n <> RS_EXPORT_TYPE_MN ->
    (forall ET, n <> structInfoMetadataName ET) ->
    namedMetadata w' n = namedMetadata w2 n).
  { intros n H1 H2 H3. rewrite Hother4, Hother3; done. }
  split; [done|].
  split.
  { eapply grows_trans; [by apply grows_same|].
    eapply grows_trans; [done|].
    eapply grows_trans; by apply grows_same. }
  split.
  { rewrite Hkeep, Hother2, Hvar1; try done;
      try apply structInfoMetadataName_not_var. }
  split.
  { rewrite Hkeep, Hother2, Hslots1; try done;
      try apply structInfoMetadataName_not_slots. }
  split.
  { rewrite Hkeep, Hfunc2; try done;
      try apply structInfoMetadataName_not_func.
    unfold operands. by rewrite Hother1. }
  split.
  { intros EF Hin Hp. destruct (Hhelp2 EF Hin Hp) as (F & H1 & H2 & H3).
    exists F. rewrite Hfs4, Hfs3. done. }
  split; [|done].
  rewrite Htype4. unfold operands.
  rewrite Hother3, Hother2, Hother1; done.
Qed.

(** ** When the emitter completes *)

Lemma forEach_exportFunc_completes funcs : forall w,
  mExportFuncMetadata (this w) = Some RS_EXPORT_FUNC_MN ->
  (forall EF, In EF funcs -> hasParam EF = true ->
     exists F,
       lookupFunction (EF_Name EF) (FunctionList (theModule w)) = Some F /\
       getNumParameters EF = length (F_ArgumentList F) /\
       Z.of_nat (length (F_ArgumentList F)) <= 2 ^ 32) ->
  exists w', forEach funcs exportFunc w = Normal (tt, w').
Proof.
  induction funcs as [|EF rest IH]; intros w Hh Hfound; [by exists w|].
  assert (Hstep : exists Fo, exportFunc EF w = Normal (tt, afterExportFunc EF Fo w)).
  { destruct (hasParam EF) eqn:Hp.
    - destruct (Hfound EF (or_introl eq_refl) Hp) as (F & HF & Hn & H32).
      exists (Some F). by apply exportFunc_helper.
    - exists None. by apply exportFunc_noParam. }
  destruct Hstep as [Fo Hstep].
  destruct (IH (afterExportFunc EF Fo w)) as [w' Hrest]; [done| |].
  - intros EF' Hin Hp. destruct (Hfound EF' (or_intror Hin) Hp) as (F & HF & Hargs).
    exists F. split; [|done].
    eapply grows_lookupFunction; [apply afterExportFunc_grows|done].
  - exists w'. cbn [forEach]. by rewrite (bind_run _ _ _ _ _ Hstep).
Qed.

Lemma forEach_exportType_completes types : forall w,
  type_ready w ->
  NoDup (map getName (recordTypes types)) ->
  (forall ET, In ET (recordTypes types) ->
              operands w (structInfoMetadataName ET) = []) ->
  exists w', forEach types exportType w = Normal (tt, w').
Proof.
  induction types as [|[key ET] rest IH]; intros w Hready Hnodup Hfresh;
    [by exists w|].
  destruct (isRecord ET) eqn:Hrec.
  - destruct ET as [| | | | |n fields]; try discriminate.
    rewrite recordTypes_cons_record in Hnodup, Hfresh. cbn [map] in Hnodup.
    apply NoDup_cons in Hnodup as [Hnotin Hnodup].
    destruct (exportType_record key n fields w Hready) as [_ Hok].
    destruct (Hok (Hfresh _ (or_introl eq_refl)))
      as (w1 & Hrun1 & Hthis1 & _ & _ & Hl1 & _ & Hother1).
    destruct (IH w1) as [w' Hrest]; [| done | |].
    + right. split; [by rewrite Hthis1|]. rewrite Hl1. eauto.
    + intros ET' Hin. unfold operands. rewrite Hother1.
      * apply (Hfresh ET'). by right.
      * apply structInfoMetadataName_not_type.
      * intros Heq. apply Hnotin. apply structInfoMetadataName_inj in Heq.
        cbn [getName] in *. rewrite <- Heq. apply list_elem_of_In.
        by apply in_map.
    + exists w'. cbn [forEach]. by rewrite (bind_run _ _ _ _ _ Hrun1).
  - rewrite (recordTypes_cons_other (key, ET) rest Hrec) in Hnodup, Hfresh.
    destruct (IH w Hready Hnodup Hfresh) as [w' Hrest]. exists w'.
    cbn [forEach].
    by rewrite (bind_run _ _ _ _ _ (exportType_other (key, ET) w Hrec)).
Qed.

Lemma structInfoMetadataName_not_foreach ET :
  structInfoMetadataName ET <> RS_EXPORT_FOREACH_MN.
Proof. discriminate. Qed.

(** X14. When the emitter completes. From the state the constructor
    leaves, [HandleTranslationUnitPost] runs to its end, without a failed
    assertion and without undefined behaviour, on every unit whose
    exported variables can be counted in an [int], whose exported
    functions with parameters each name a function of the module that
    takes exactly one argument per parameter of the exported function
    (the arguments being numbered in 32 bits, as in every LLVM function
    type), and whose exported record types have distinct names and no
    field list with operands in the module yet. Exported functions
    without parameters, kernels and types that are not records put no
    condition on the module. *)
Theorem HandleTranslationUnitPost_completes mContext w :
  this w = RSBackend_new ->
  Z.of_nat (length (export_vars mContext)) <= INT_MAX ->
  (forall EF, In EF (export_funcs mContext) -> hasParam EF = true ->
     exists F,
       lookupFunction (EF_Name EF) (FunctionList (theModule w)) = Some F /\
       getNumParameters EF = length (F_ArgumentList F) /\
       Z.of_nat (length (F_ArgumentList F)) <= 2 ^ 32) ->
  NoDup (map getName (recordTypes (export_types mContext))) ->
  (forall ET, In ET (recordTypes (export_types mContext)) ->
              operands w (structInfoMetadataName ET) = []) ->
  exists w', HandleTranslationUnitPost mContext w = Normal (tt, w').
Proof.
  intros Hnew Hlen Hfound Hnodup Hfresh. unfold HandleTranslationUnitPost.
  destruct (processExport mContext); [|by exists w]. cbn [negb].
  (* the variables *)
  assert (Hvars : exists w1,
    dumpExportVars mContext w = Normal (tt, w1) /\
    mExportFuncMetadata (this w1) = None /\
    mExportForEachMetadata (this w1) = None /\
    mExportTypeMetadata (this w1) = None /\
    FunctionList (theModule w1) = FunctionList (theModule w) /\
    (forall n, n <> RS_EXPORT_VAR_MN -> n <> RS_OBJECT_SLOTS_MN ->
               namedMetadata w1 n = namedMetadata w n)).
  { destruct (export_vars mContext) as [|EV rest] eqn:E.
    - exists w. rewrite (dumpExportVars_empty mContext w E), Hnew. done.
    - destruct (dumpExportVars_run mContext w)
        as (w1 & Hrun & Hthis & Hfs & _ & _ & _ & Hother);
        [by rewrite Hnew|by rewrite Hnew|by rewrite E|by rewrite E|].
      exists w1. rewrite Hthis, Hnew. done. }
  destruct Hvars as (w1 & Hrun1 & Hf1 & Hfe1 & Ht1 & Hfs1 & Hother1).
  rewrite (bind_run _ _ _ _ _ Hrun1).
  (* the functions *)
  assert (Hfuncs : exists w2, dumpExportFuncs mContext w1 = Normal (tt, w2)).
  { unfold dumpExportFuncs, hasExportFunc.
    destruct (export_funcs mContext) as [|EF rest] eqn:E; [by exists w1|].
    rewrite <- E in *. replace (length (export_funcs mContext))
      with (S (length rest)) by (by rewrite E).
    cbn [Nat.eqb negb when].
    destruct (ensureMetadata_run mExportFuncMetadata set_mExportFuncMetadata
                RS_EXPORT_FUNC_MN w1 Hf1)
      as (w0 & Hrun0 & Hthis0 & Hfs0 & _).
    rewrite (bind_run _ _ _ _ _ Hrun0).
    apply forEach_exportFunc_completes; [by rewrite Hthis0|].
    intros EF' Hin Hp. rewrite Hfs0, Hfs1. by apply Hfound. }
  destruct Hfuncs as [w2 Hrun2].
  destruct (dumpExportFuncs_Normal mContext w1 w2 Hf1 Hrun2)
    as (Hthis2 & _ & _ & Hother2 & _).
  rewrite (bind_run _ _ _ _ _ Hrun2).
  (* the kernels *)
  assert (Hfe2 : mExportForEachMetadata (this w2) = None).
  { rewrite Hthis2. by destruct (export_funcs mContext). }
  destruct (dumpExportForEach_run mContext w2 Hfe2)
    as (w3 & Hrun3 & Hthis3 & _ & _ & _ & Hother3).
  rewrite (bind_run _ _ _ _ _ Hrun3).
  (* the types *)
  assert (Ht3 : mExportTypeMetadata (this w3) = None).
  { rewrite Hthis3, Hthis2.
    by destruct (export_funcs mContext), (export_foreach mContext). }
  unfold dumpExportTypes, hasExportType.
  destruct (export_types mContext) as [|entry rest] eqn:E; [by exists w3|].
  rewrite <- E in *. replace (length (export_types mContext))
    with (S (length rest)) by (by rewrite E).
  cbn [Nat.eqb negb when].
  apply forEach_exportType_completes; [by left|done|].
  intros ET Hin. unfold operands.
  rewrite Hother3 by apply structInfoMetadataName_not_foreach.
  rewrite Hother2
    by (intros Heq; by apply (structInfoMetadataName_not_func ET)).
  rewrite Hother1.
  - by apply Hfresh.
  - intros Heq. by apply (structInfoMetadataName_not_var ET).
  - intros Heq. by apply (structInfoMetadataName_not_slots ET).
Qed.

(** ** Object slots *)

Lemma objectSlots_In vars : forall (k i : nat),
  In i (objectSlots k vars) <->
  exists EV, (k <= i)%nat /\ vars !! (i - k)%nat = Some EV
             /\ takesObjectSlot EV = true.
Proof.
  induction vars as [|EV rest IH]; intros k i; cbn [objectSlots].
  - split; [intros []|]. by intros (EV & _ & H & _).
  - rewrite in_app_iff, IH. split.
    + intros [Hhead|(EV' & Hle & Hlook & Htakes)].
      * destruct (takesObjectSlot EV) eqn:Ht; [|by destruct Hhead].
        destruct Hhead as [<-|[]]. exists EV.
        replace (k - k)%nat with O by lia. done.
      * exists EV'. split; [lia|]. split; [|done].
        replace (i - k)%nat with (S (i - S k)) by lia. done.
    + intros (EV' & Hle & Hlook & Htakes).
      destruct (decide (i = k)) as [->|Hne].
      * left. replace (k - k)%nat with O in Hlook by lia.
        cbn in Hlook. injection Hlook as ->. rewrite Htakes. by left.
      * right. exists EV'. split; [lia|]. split; [|done].
        replace (i - k)%nat with (S (i - S k)) in Hlook by lia. done.
Qed.

Lemma objectSlots_sorted vars : forall k,
  StronglySorted lt (objectSlots k vars).
Proof.
  induction vars as [|EV rest IH]; intros k; cbn [objectSlots].
  - constructor.
  - destruct (takesObjectSlot EV); cbn; [|apply IH].
    constructor; [apply IH|]. apply Forall_forall. intros i Hi.
    apply list_elem_of_In, objectSlots_In in Hi.
    destruct Hi as (_ & Hle & _). lia.
Qed.

Lemma takesObjectSlot_spec EV :
  takesObjectSlot EV = true <->
  exists n mType mKind,
    EV_Type EV = RSExportPrimitiveType n mType mKind /\
    isRSObjectType mType = true.
Proof.
  unfold takesObjectSlot. split.
  - destruct (EV_Type EV); try discriminate. eauto.
  - intros (n & t & k & -> & H). done.
Qed.

(** ** The body of a helper function *)

(** ** Declaration guard and unit validator *)

Lemma reports_are_errors_app es1 es2 :
  reports_are_errors es1 -> reports_are_errors es2 ->
  reports_are_errors (es1 ++ es2).
Proof.
  intros H1 H2 L Fmt Args Hin. apply in_app_or in Hin as [Hin|Hin]; eauto.
Qed.

Lemma reports_are_errors_none es :
  (forall e, In e es -> is_Report e = false) -> reports_are_errors es.
Proof. intros H L Fmt Args Hin. by apply H in Hin. Qed.

Lemma reports_none es :
  (forall e, In e es -> is_Report e = false) -> reports es = [].
Proof.
  induction es as [|e es IH]; intros H; [done|]. cbn.
  rewrite (H e) by (by left). apply IH. intros e' He'. apply H. by right.
Qed.

Lemma ValidateVarDecl_calls VD e :
  In e (snd (ValidateVarDecl VD)) -> is_validation_call e = true.
Proof.
  unfold ValidateVarDecl.
  destruct (Linkage_eqb (VD_Linkage VD) ExternalLinkage); cbn;
    intros H; repeat destruct H as [<-|H]; done.
Qed.

Lemma ValidateASTContext_loop_calls decls : forall valid e,
  In e (snd (ValidateASTContext_loop decls valid)) ->
  is_validation_call e = true.
Proof.
  induction decls as [|[VD|FD|] rest IH]; intros valid e; cbn; [done| |by apply IH..].
  destruct (ValidateVarDecl VD) as [ok ev] eqn:EV.
  destruct (ValidateASTContext_loop rest (if negb ok then false else valid))
    as [valid' es] eqn:EL. cbn.
  intros Hin. apply in_app_or in Hin as [Hin|Hin].
  - apply (ValidateVarDecl_calls VD). by rewrite EV.
  - apply (IH (if negb ok then false else valid)). by rewrite EL.
Qed.

Lemma ValidateASTContext_loop_valid decls : forall valid,
  fst (ValidateASTContext_loop decls valid) = true <->
  valid = true /\
  forall VD, In (Decl_Var VD) decls -> fst (ValidateVarDecl VD) = true.
Proof.
  induction decls as [|[VD|FD|] rest IH]; intros valid; cbn.
  - split; [intros ->|]; [split; [done|by intros ? []]|by intros [-> _]].
  - destruct (ValidateVarDecl VD) as [ok ev] eqn:EV.
    destruct (ValidateASTContext_loop rest (if negb ok then false else valid))
      as [valid' es] eqn:EL. cbn.
    pose proof (IH (if negb ok then false else valid)) as IH'.
    rewrite EL in IH'. cbn in IH'. rewrite IH'. split.
    + intros [Hv Hall]. destruct ok; cbn in Hv; [|done]. split; [done|].
      intros VD' [Heq|Hin]; [|by apply Hall].
      injection Heq as <-. by rewrite EV.
    + intros [-> Hall]. split.
      * specialize (Hall VD (or_introl eq_refl)). rewrite EV in Hall.
        cbn in Hall. by subst ok.
      * intros VD' Hin. apply Hall. by right.
  - rewrite IH. split; intros [Hv Hall]; (split; [done|]).
    + intros VD [Heq|Hin]; [done|by apply Hall].
    + intros VD Hin. apply Hall. by right.
  - rewrite IH. split; intros [Hv Hall]; (split; [done|]).
    + intros VD [Heq|Hin]; [done|by apply Hall].
    + intros VD Hin. apply Hall. by right.
Qed.

Lemma ValidateASTContext_loop_invalid decls : forall valid,
  fst (ValidateASTContext_loop decls valid) = false ->
  valid = false \/
  exists VD, In (Decl_Var VD) decls /\ fst (ValidateVarDecl VD) = false.
Proof.
  induction decls as [|[VD|FD|] rest IH]; intros valid; cbn.
  - by left.
  - destruct (ValidateVarDecl VD) as [ok ev] eqn:EV.
    destruct (ValidateASTContext_loop rest (if negb ok then false else valid))
      as [valid' es] eqn:EL. cbn. intros ->.
    destruct (IH (if negb ok then false else valid)) as [Hv|(VD' & Hin & Hbad)];
      [by rewrite EL| |].
    + destruct ok; cbn in Hv; [by left|].
      right. exists VD. split; [by left|by rewrite EV].
    + right. exists VD'. split; [by right|done].
  - intros Hf. destruct (IH valid Hf) as [Hv|(VD' & Hin & Hbad)]; [by left|].
    right. exists VD'. split; [by right|done].
  - intros Hf. destruct (IH valid Hf) as [Hv|(VD' & Hin & Hbad)]; [by left|].
    right. exists VD'. split; [by right|done].
Qed.

(** Validation of the unit fails exactly when one of its variable
    declarations fails validation. *)
Lemma ValidateASTContext_false TUDecl :
  fst (ValidateASTContext TUDecl) = false <->
  exists VD, In (Decl_Var VD) TUDecl /\ fst (ValidateVarDecl VD) = false.
Proof.
  unfold ValidateASTContext. split.
  - intros Hf. by destruct (ValidateASTContext_loop_invalid TUDecl true Hf).
  - intros (VD & Hin & Hbad).
    destruct (fst (ValidateASTContext_loop TUDecl true)) eqn:E; [|done].
    apply ValidateASTContext_loop_valid in E as [_ Hall].
    rewrite (Hall VD Hin) in Hbad. done.
Qed.

Lemma checkRSPrefix_errors D : reports_are_errors (checkRSPrefix D).
Proof.
  induction D as [|[VD|FD|] rest IH]; cbn [checkRSPrefix]; try done.
  - by intros L Fmt Args [].
  - apply reports_are_errors_app; [|done].
    destruct (startswith (FD_Name FD) "rs"); cbn [negb]; [|by intros ? ? ? []].
    destruct (FD_InRSHeaderFile FD); cbn [negb]; [by intros ? ? ? []|].
    intros L Fmt Args [Heq|[]]. by injection Heq as <-.
Qed.

Lemma AnnotateFunction_no_report FD e :
  In e (AnnotateFunction FD) -> is_Report e = false.
Proof.
  unfold AnnotateFunction.
  destruct (FD_hasBody FD && negb (FD_InRSHeaderFile FD)); cbn;
    intros H; repeat destruct H as [<-|H]; done.
Qed.

Lemma annotateGlobalFunctions_no_report D e :
  In e (annotateGlobalFunctions D) -> is_Report e = false.
Proof.
  induction D as [|[VD|FD|] rest IH]; cbn; try done.
  intros Hin. apply in_app_or in Hin as [Hin|Hin]; [|by apply IH].
  destruct (FD_isGlobal FD); [by apply (AnnotateFunction_no_report FD)|done].
Qed.

Lemma annotateStaticFunctions_no_report D e :
  In e (annotateStaticFunctions D) -> is_Report e = false.
Proof.
  induction D as [|[VD|FD|] rest IH]; cbn; try done.
  intros Hin. apply in_app_or in Hin as [Hin|Hin]; [|by apply IH].
  destruct (FD_isGlobal FD); [done|by apply (AnnotateFunction_no_report FD)].
Qed.

Lemma HandleTopLevelDecl_errors mAllowRSPrefix D :
  reports_are_errors (HandleTopLevelDecl mAllowRSPrefix D).
Proof.
  unfold HandleTopLevelDecl. apply reports_are_errors_app.
  - destruct mAllowRSPrefix; cbn [negb];
      [by intros ? ? ? []|apply checkRSPrefix_errors].
  - apply reports_are_errors_none. intros e Hin.
    apply in_app_or in Hin as [Hin|[<-|[]]]; [|done].
    by apply (annotateGlobalFunctions_no_report D).
Qed.

Lemma checkVersion_errors version : reports_are_errors (checkVersion version).
Proof.
  unfold checkVersion. destruct (version =? 0); [|destruct (version >? 1)].
  - intros L Fmt Args [Heq|[]]. by injection Heq as <-.
  - intros L Fmt Args [Heq|[]]. by injection Heq as <-.
  - by intros ? ? ? [].
Qed.

Lemma validation_no_report TUDecl e :
  In e (snd (ValidateASTContext TUDecl)) -> is_Report e = false.
Proof.
  intros Hin. apply ValidateASTContext_loop_calls in Hin. by destruct e.
Qed.

(** [HandleTranslationUnitPre] when validation passes, and when it fails. *)
Lemma HandleTranslationUnitPre_valid mAllowRSPrefix mContext dtor TUDecl :
  fst (ValidateASTContext TUDecl) = true ->
  HandleTranslationUnitPre mAllowRSPrefix mContext dtor TUDecl
  = snd (ValidateASTContext TUDecl)
    ++ checkVersion (getVersion mContext)
    ++ [RefCount_CreateStaticGlobalDtor]
    ++ match dtor with
       | Some FD => HandleTopLevelDecl mAllowRSPrefix [Decl_Function FD]
       | None => []
       end
    ++ annotateStaticFunctions TUDecl.
Proof.
  intros Hv. unfold HandleTranslationUnitPre.
  destruct (ValidateASTContext TUDecl) as [valid es]. cbn in Hv. by subst.
Qed.

Lemma HandleTranslationUnitPre_invalid mAllowRSPrefix mContext dtor TUDecl :
  fst (ValidateASTContext TUDecl) = false ->
  HandleTranslationUnitPre mAllowRSPrefix mContext dtor TUDecl
  = snd (ValidateASTContext TUDecl).
Proof.
  intros Hv. unfold HandleTranslationUnitPre.
  destruct (ValidateASTContext TUDecl) as [valid es]. cbn in Hv. by subst.
Qed.

(** ** Properties of the unit validator *)

(** C5 (as amended). If a global variable declaration of the unit fails
    validation, [HandleTranslationUnitPre] returns right after the
    validation: its only effects are the validation calls on
    [RSExportType]. It reports no diagnostic of its own, does not ask for
    the static global destructor, and annotates no function body at all,
    so the annotation of the file-local functions is skipped together
    with the version check and the destructor. *)
Theorem validation_failure_abandons_unit
    mAllowRSPrefix mContext dtor TUDecl VD :
  In (Decl_Var VD) TUDecl ->
  fst (ValidateVarDecl VD) = false ->
  let es := HandleTranslationUnitPre mAllowRSPrefix mContext dtor TUDecl in
  es = snd (ValidateASTContext TUDecl) /\
  (forall e, In e es -> is_validation_call e = true) /\
  reports es = [] /\
  ~ In RefCount_CreateStaticGlobalDtor es /\
  (forall FD, ~ In (RefCount_Visit FD) es).
Proof.
  intros Hin Hbad es.
  assert (Hinvalid : fst (ValidateASTContext TUDecl) = false)
    by (apply ValidateASTContext_false; eauto).
  assert (Hes : es = snd (ValidateASTContext TUDecl))
    by (by apply HandleTranslationUnitPre_invalid).
  assert (Hcalls : forall e, In e es -> is_validation_call e = true).
  { intros e He. rewrite Hes in He.
    by apply ValidateASTContext_loop_calls in He. }
  split; [done|]. split; [done|]. split.
  { apply reports_none. intros e He. apply Hcalls in He. by destruct e. }
  split.
  - intros He. by apply Hcalls in He.
  - intros FD He. by apply Hcalls in He.
Qed.

(** ** Properties of the exported variables *)

(** C2. With export processing on, the emitter completed from the state
    the constructor leaves and no object slots list in the module
    beforehand: the operands of [#rs_object_slots] are the decimal
    numerals of positions [i] below the number [N] of exported variables,
    in strictly increasing order, and position [i] is among them exactly
    when the [i]-th exported variable has a primitive type whose data
    type is a reference counted RS object type. The loop counter ends at
    [N]: it advances for every variable, whether it takes a slot or
    not. *)
Theorem object_slots_are_positions mContext w w' :
  processExport mContext = true ->
  this w = RSBackend_new ->
  namedMetadata w RS_OBJECT_SLOTS_MN = None ->
  HandleTranslationUnitPost mContext w = Normal (tt, w') ->
  let vars := export_vars mContext in
  exists slots : list nat,
    operands w' RS_OBJECT_SLOTS_MN
      = map (fun i => [utostr_32 (Z.of_nat i) false]) slots /\
    (forall i, In i slots ->
       (i < length vars)%nat /\
       Decimal.is_decimal_of (utostr_32 (Z.of_nat i) false) (Z.of_nat i)) /\
    StronglySorted lt slots /\
    (forall i, In i slots <->
       exists EV n mType mKind,
         vars !! i = Some EV /\
         EV_Type EV = RSExportPrimitiveType n mType mKind /\
         isRSObjectType mType = true) /\
    (forall w0, mExportVarMetadata (this w0) = Some RS_EXPORT_VAR_MN ->
                slots_ready w0 ->
                exists w1, exportVarLoop vars 0 w0
                           = Normal (Z.of_nat (length vars), w1)).
Proof.
  intros Hproc Hnew Hfresh Hrun vars.
  destruct (HandleTranslationUnitPost_Normal mContext w w' Hproc Hnew Hrun)
    as (Hlen & _ & _ & Hslots & _).
  fold vars in Hlen, Hslots.
  assert (Hin : forall i, In i (objectSlots 0 vars) <->
            exists EV, vars !! i = Some EV /\ takesObjectSlot EV = true).
  { intros i. rewrite objectSlots_In. replace (i - 0)%nat with i by lia.
    split; [intros (EV & _ & H); eauto|intros (EV & H); exists EV].
    split; [lia|done]. }
  exists (objectSlots 0 vars). split.
  { unfold operands. rewrite Hslots. unfold operands. rewrite Hfresh.
    by destruct vars. }
  split.
  { intros i Hi. apply Hin in Hi as (EV & Hlook & _).
    apply lookup_lt_Some in Hlook. split; [done|].
    apply utostr_32_decimal_small. unfold INT_MAX in Hlen.
    change (2 ^ 32) with 4294967296. change (2 ^ 31 - 1) with 2147483647 in Hlen.
    lia. }
  split; [apply objectSlots_sorted|].
  split.
  { intros i. rewrite Hin. split.
    - intros (EV & Hlook & Ht). apply takesObjectSlot_spec in Ht.
      destruct Ht as (n & t & k & HT & Hobj). by exists EV, n, t, k.
    - intros (EV & n & t & k & Hlook & HT & Hobj). exists EV.
      split; [done|]. apply takesObjectSlot_spec. eauto. }
  intros w0 Hv Hs.
  destruct (exportVarLoop_run vars 0 w0 Hv Hs) as (w1 & Hloop & _);
    [by cbn|]. exists w1. exact Hloop.
Qed.

(** C3. With export processing on, the emitter completed from the state
    the constructor leaves and no variable list in the module
    beforehand: [#rs_export_var] holds, for each exported variable in
    order, its name followed by an encoding that depends on the
    exported type alone. A primitive type gives the decimal numeral of
    its data type code, a pointer type gives ["*"] followed by the name
    of the pointee type (so reading the descriptor back yields that
    name), a matrix type of dimension [d] gives the decimal numeral of
    [DataTypeRSMatrix2x2 + d - 2], and a vector, constant array or record
    type gives its own name. The codes are passed to [utostr_32], so the
    numerals are those of the codes as [uint32_t] values. *)
Theorem export_var_descriptor mContext w w' :
  processExport mContext = true ->
  this w = RSBackend_new ->
  namedMetadata w RS_EXPORT_VAR_MN = None ->
  HandleTranslationUnitPost mContext w = Normal (tt, w') ->
  exists enc : RSExportType -> string,
    operands w' RS_EXPORT_VAR_MN
      = map (fun EV => [EV_Name EV; enc (EV_Type EV)]) (export_vars mContext) /\
    (forall n mType mKind,
       0 <= mType < 2 ^ 32 ->
       Decimal.is_decimal_of (enc (RSExportPrimitiveType n mType mKind)) mType) /\
    (forall n P,
       enc (RSExportPointerType n P) = "*" +:+ getName P /\
       decodePointerDescriptor (enc (RSExportPointerType n P))
       = Some (getName P)) /\
    (forall n d,
       0 <= DataTypeRSMatrix2x2 + d - 2 < 2 ^ 32 ->
       Decimal.is_decimal_of (enc (RSExportMatrixType n d))
                             (DataTypeRSMatrix2x2 + d - 2)) /\
    (forall n t k e, enc (RSExportVectorType n t k e) = n) /\
    (forall n E sz, enc (RSExportConstantArrayType n E sz) = n) /\
    (forall n fields, enc (RSExportRecordType n fields) = n).
Proof.
  intros Hproc Hnew Hfresh Hrun.
  destruct (HandleTranslationUnitPost_Normal mContext w w' Hproc Hnew Hrun)
    as (_ & _ & Hvar & _).
  exists (fun ET => fst (exportVarTypeInfo ET)). split.
  { unfold operands. rewrite Hvar. unfold operands. rewrite Hfresh.
    by destruct (export_vars mContext). }
  split. { intros n t k Ht. cbn. by apply utostr_32_decimal_small. }
  split. { intros n P. by cbn. }
  split. { intros n d Hd. cbn. by apply utostr_32_decimal_small. }
  by repeat split.
Qed.

(** C10. With export processing on and at least one exported variable,
    a completed run of the emitter from the state the constructor leaves
    has the list [#rs_object_slots] in the module, also when no variable
    takes a slot: the list is then there without operands. The list is
    obtained in the first iteration of the variable loop, whatever the
    variable of that iteration is. *)
Theorem object_slots_list_exists mContext w w' :
  processExport mContext = true ->
  this w = RSBackend_new ->
  export_vars mContext <> [] ->
  HandleTranslationUnitPost mContext w = Normal (tt, w') ->
  is_Some (namedMetadata w' RS_OBJECT_SLOTS_MN) /\
  (namedMetadata w RS_OBJECT_SLOTS_MN = None ->
   (forall EV, In EV (export_vars mContext) -> takesObjectSlot EV = false) ->
   namedMetadata w' RS_OBJECT_SLOTS_MN = Some []) /\
  (forall EV slotCount w0,
     mExportVarMetadata (this w0) = Some RS_EXPORT_VAR_MN ->
     mRSObjectSlotsMetadata (this w0) = None ->
     exists w1, exportVar EV slotCount w0 = Normal (tt, w1) /\
                is_Some (namedMetadata w1 RS_OBJECT_SLOTS_MN)).
Proof.
  intros Hproc Hnew Hne Hrun.
  destruct (HandleTranslationUnitPost_Normal mContext w w' Hproc Hnew Hrun)
    as (_ & _ & _ & Hslots & _).
  destruct (export_vars mContext) as [|EV0 rest] eqn:E; [done|].
  rewrite <- E in *. split; [rewrite Hslots; eauto|]. split.
  - intros Hfresh Hnone. rewrite Hslots. unfold operands. rewrite Hfresh.
    cbn [default app]. f_equal.
    assert (Hempty : forall vars k,
              (forall EV, In EV vars -> takesObjectSlot EV = false) ->
              objectSlots k vars = []).
    { induction vars as [|EV vars IH]; intros k Hall; [done|]. cbn.
      rewrite (Hall EV) by (by left). cbn. apply IH.
      intros EV' H'. apply Hall. by right. }
    by rewrite Hempty.
  - intros EV k w0 Hv Hs.
    destruct (exportVar_run EV k w0 Hv (or_introl Hs))
      as (w1 & Hstep & _ & _ & _ & _ & Hl & _).
    exists w1. split; [done|]. rewrite Hl. eauto.
Qed.

(** ** Properties of the exported functions *)

(** C1 (as amended). One iteration of the function loop, with the
    function list obtained. For an exported function without parameters
    the record appended to [#rs_export_func] is the function's own name
    and no function is created. For an exported function with
    parameters whose function in the module takes exactly one argument
    per parameter of the exported function (the arguments being numbered
    in 32 bits, as in every LLVM function type), the record appended is
    [".helper_"] followed by the name, and a function of that name is
    added to the module that takes exactly one argument, a pointer to
    the structure of the module function's argument types. *)
Theorem export_func_descriptor EF w :
  mExportFuncMetadata (this w) = Some RS_EXPORT_FUNC_MN ->
  (hasParam EF = true ->
   exists F, lookupFunction (EF_Name EF) (FunctionList (theModule w)) = Some F
             /\ getNumParameters EF = length (F_ArgumentList F)
             /\ Z.of_nat (length (F_ArgumentList F)) <= 2 ^ 32) ->
  exists w',
    exportFunc EF w = Normal (tt, w') /\
    namedMetadata w' RS_EXPORT_FUNC_MN
      = (fun ops => ops ++ [[if hasParam EF then ".helper_" +:+ EF_Name EF
                             else EF_Name EF]])
          <$> namedMetadata w RS_EXPORT_FUNC_MN /\
    if hasParam EF
    then exists F H,
           lookupFunction (EF_Name EF) (FunctionList (theModule w)) = Some F /\
           FunctionList (theModule w') = FunctionList (theModule w) ++ [H] /\
           F_Name H = ".helper_" +:+ EF_Name EF /\
           F_ArgumentList H = [PointerTy (StructTy (F_ArgumentList F))]
    else FunctionList (theModule w') = FunctionList (theModule w).
Proof.
  intros Hh HF. destruct (hasParam EF) eqn:Hp.
  - destruct (HF eq_refl) as (F & Hlook & Hn & H32).
    assert (Hargs := hasParam_arguments EF F Hp Hn).
    exists (afterExportFunc EF (Some F) w).
    split; [by apply exportFunc_helper|]. split.
    + unfold namedMetadata, afterExportFunc, funcDescriptor. cbn.
      by rewrite lookup_alter_eq, Hp.
    + exists F, (helperFunction EF F). split; [done|]. split; [done|].
      split; [done|]. cbn. unfold helperFunctionParameterTy.
      by destruct (F_ArgumentList F).
  - exists (afterExportFunc EF None w).
    split; [by apply exportFunc_noParam|]. split.
    + unfold namedMetadata, afterExportFunc, funcDescriptor. cbn.
      by rewrite lookup_alter_eq, Hp.
    + cbn. by rewrite app_nil_r.
Qed.

(** C4 (as amended). For an exported function with parameters whose
    function [F] in the module takes exactly one argument per parameter
    of the exported function (the arguments being numbered in 32 bits,
    as in every LLVM function type), the iteration completes and adds
    the helper: external linkage, the
    calling convention of [F], the no-inline attribute, the return type
    of [F], and a single parameter, a pointer to the structure whose
    fields are the argument types of [F] in order. Its one block,
    "entry", fetches one value per parameter of the exported function,
    each by the address of field [i] of the packet and a load from it,
    for [i] from 0 upwards; it then calls [F] on the loaded values in
    order under the calling convention of [F], and returns nothing when
    the return type of [F] is void and the result of the call
    otherwise. *)
Theorem helper_function_shape EF F w :
  hasParam EF = true ->
  mExportFuncMetadata (this w) = Some RS_EXPORT_FUNC_MN ->
  lookupFunction (EF_Name EF) (FunctionList (theModule w)) = Some F ->
  getNumParameters EF = length (F_ArgumentList F) ->
  Z.of_nat (length (F_ArgumentList F)) <= 2 ^ 32 ->
  exists w' H,
    exportFunc EF w = Normal (tt, w') /\
    FunctionList (theModule w') = FunctionList (theModule w) ++ [H] /\
    F_Linkage H = GV_ExternalLinkage /\
    F_CallingConv H = F_CallingConv F /\
    F_Attributes H = [NoInline] /\
    F_ReturnType H = F_ReturnType F /\
    F_ArgumentList H = [PointerTy (StructTy (F_ArgumentList F))] /\
    F_BasicBlocks H
      = [mkBasicBlock "entry"
           (concat (map fetchParameter (seq 0 (getNumParameters EF)))
            ++ [Call (F_Name F)
                     (map loadedParameter (seq 0 (getNumParameters EF)))
                     (F_CallingConv F);
                if isVoidTy (F_ReturnType F) then RetVoid
                else Ret (InstResult (2 * getNumParameters EF))])].
Proof.
  intros Hp Hh Hlook Hn H32.
  assert (Hargs := hasParam_arguments EF F Hp Hn).
  exists (afterExportFunc EF (Some F) w), (helperFunction EF F).
  split; [by apply exportFunc_helper|]. split; [done|].
  split; [done|]. split; [done|]. split; [done|]. split; [done|].
  split.
  - cbn. unfold helperFunctionParameterTy. by destruct (F_ArgumentList F).
  - reflexivity.
Qed.

(** ** Properties of the exported types *)

Lemma fieldKind_fieldKindCode FT : fieldKind FT = itostr (fieldKindCode FT).
Proof. by destruct FT. Qed.

(** C8 (as amended). One iteration of the type loop on a record type
    named [n], when the list ["%" n] has no operands as it is obtained:
    the iteration completes and leaves in that list exactly one entry
    per field, in field order, each made of the field name, the name of
    the field type, and the kind code: the kind of the field type when
    that is a primitive or a vector type, [DataKindUser] otherwise. When
    the list has operands as it is obtained, the assertion fails. So
    processing the same record type a second time fails the assertion
    whenever the record has at least one field. *)
Theorem record_field_list key n fields w :
  type_ready w ->
  operands w ("%" +:+ n) = [] ->
  let ET := RSExportRecordType n fields in
  exists w',
    exportType (key, ET) w = Normal (tt, w') /\
    namedMetadata w' ("%" +:+ n)
      = Some (map (fun F => [Field_getName F;
                             getName (Field_getType F);
                             itostr (fieldKindCode (Field_getType F))])
                  fields) /\
    (forall (F : Field),
       fieldKindCode (Field_getType F)
       = match Field_getType F with
         | RSExportPrimitiveType _ _ mKind
         | RSExportVectorType _ _ mKind _ => mKind
         | _ => DataKindUser
         end) /\
    (forall w0, type_ready w0 -> operands w0 ("%" +:+ n) <> [] ->
       exportType (key, ET) w0
       = AssertionFailed "Metadata with same name was created before") /\
    (fields <> [] ->
       exportType (key, ET) w'
       = AssertionFailed "Metadata with same name was created before").
Proof.
  intros Hready Hempty ET.
  destruct (exportType_record key n fields w Hready) as [_ Hok].
  destruct (Hok Hempty) as (w' & Hrun & Hthis & _ & _ & Hl & Hs & _).
  assert (Hfail : forall w0, type_ready w0 -> operands w0 ("%" +:+ n) <> [] ->
            exportType (key, ET) w0
            = AssertionFailed "Metadata with same name was created before").
  { intros w0 Hready0 Hne.
    by destruct (exportType_record key n fields w0 Hready0) as [Hf _]; apply Hf. }
  exists w'. split; [done|]. split.
  { change ("%" +:+ n)
      with (structInfoMetadataName (RSExportRecordType n fields)).
    rewrite Hs. f_equal. apply map_ext. intros F. unfold fieldRecord.
    by rewrite fieldKind_fieldKindCode. }
  split. { intros F. by destruct (Field_getType F). }
  split; [done|].
  intros Hfields. apply Hfail.
  - right. split; [by rewrite Hthis|]. rewrite Hl. eauto.
  - unfold operands. change ("%" +:+ n)
      with (structInfoMetadataName (RSExportRecordType n fields)).
    rewrite Hs. cbn [default]. by destruct fields.
Qed.

(** C9 (as amended). With export processing on, the emitter completed
    from the state the constructor leaves and no type list in the module
    beforehand: [#rs_export_type] receives one name record per exported
    record type, in iteration order, and nothing else. An exported type
    that is not a record type leaves the module as it is: neither a name
    record nor a field list is emitted for it. *)
Theorem export_type_list mContext w w' :
  processExport mContext = true ->
  this w = RSBackend_new ->
  namedMetadata w RS_EXPORT_TYPE_MN = None ->
  HandleTranslationUnitPost mContext w = Normal (tt, w') ->
  operands w' RS_EXPORT_TYPE_MN
    = map (fun ET => [getName ET]) (recordTypes (export_types mContext)) /\
  (recordTypes (export_types mContext) = [] ->
   namedMetadata w' RS_EXPORT_TYPE_MN = None) /\
  (forall entry w0,
     In entry (export_types mContext) ->
     getClass (snd entry) <> ExportClassRecord ->
     exportType entry w0 = Normal (tt, w0)).
Proof.
  intros Hproc Hnew Hfresh Hrun.
  destruct (HandleTranslationUnitPost_Normal mContext w w' Hproc Hnew Hrun)
    as (_ & _ & _ & _ & _ & _ & Htype & _).
  split.
  { unfold operands. rewrite Htype. unfold operands. rewrite Hfresh.
    by destruct (recordTypes (export_types mContext)). }
  split. { intros E. by rewrite Htype, E. }
  intros entry w0 _ Hclass. apply exportType_other.
  by destruct (snd entry).
Qed.

(** ** The declaration guard and the validator, call by call *)

Lemma visits_app es1 es2 : visits (es1 ++ es2) = visits es1 ++ visits es2.
Proof. apply omap_app. Qed.

Lemma forwarded_app es1 es2 :
  forwarded (es1 ++ es2) = forwarded es1 ++ forwarded es2.
Proof. apply omap_app. Qed.

Lemma functionDecls_app D1 D2 :
  functionDecls (D1 ++ D2) = functionDecls D1 ++ functionDecls D2.
Proof. apply omap_app. Qed.

Lemma checkRSPrefix_reports D :
  checkRSPrefix D
  = map (fun FD => Report Error diag_invalid_prefix [FD_Name FD])
        (List.filter usesReservedPrefix (functionDecls D)).
Proof.
  induction D as [|[VD|FD|] rest IH]; cbn; try done.
  unfold usesReservedPrefix.
  destruct (startswith (FD_Name FD) "rs"), (FD_InRSHeaderFile FD); cbn;
    by rewrite IH.
Qed.

Lemma reports_of_reports (l : list FunctionDecl) :
  reports (map (fun FD => Report Error diag_invalid_prefix [FD_Name FD]) l)
  = map (fun FD => Report Error diag_invalid_prefix [FD_Name FD]) l.
Proof. induction l as [|FD l IH]; cbn; [done|]. by f_equal. Qed.

Lemma visits_checkRSPrefix D : visits (checkRSPrefix D) = [].
Proof.
  rewrite checkRSPrefix_reports.
  by induction (List.filter usesReservedPrefix (functionDecls D)).
Qed.

Lemma forwarded_checkRSPrefix D : forwarded (checkRSPrefix D) = [].
Proof.
  rewrite checkRSPrefix_reports.
  by induction (List.filter usesReservedPrefix (functionDecls D)).
Qed.

Lemma visits_AnnotateFunction FD :
  visits (AnnotateFunction FD) = if isAnnotated FD then [FD] else [].
Proof. unfold AnnotateFunction, isAnnotated. by destruct (_ && _). Qed.

Lemma forwarded_AnnotateFunction FD : forwarded (AnnotateFunction FD) = [].
Proof. unfold AnnotateFunction. by destruct (_ && _). Qed.

Lemma visits_annotateGlobalFunctions D :
  visits (annotateGlobalFunctions D)
  = List.filter (fun FD => FD_isGlobal FD && isAnnotated FD) (functionDecls D).
Proof.
  induction D as [|[VD|FD|] rest IH]; cbn; try done.
  rewrite visits_app, IH.
  destruct (FD_isGlobal FD); cbn; [|done].
  rewrite visits_AnnotateFunction. by destruct (isAnnotated FD).
Qed.

Lemma forwarded_annotateGlobalFunctions D :
  forwarded (annotateGlobalFunctions D) = [].
Proof.
  induction D as [|[VD|FD|] rest IH]; cbn; try done.
  rewrite forwarded_app, IH.
  destruct (FD_isGlobal FD); cbn; [|done].
  by rewrite forwarded_AnnotateFunction.
Qed.

Lemma visits_annotateStaticFunctions D :
  visits (annotateStaticFunctions D)
  = List.filter (fun FD => negb (FD_isGlobal FD) && isAnnotated FD)
                (functionDecls D).
Proof.
  induction D as [|[VD|FD|] rest IH]; cbn; try done.
  rewrite visits_app, IH.
  destruct (FD_isGlobal FD); cbn; [done|].
  rewrite visits_AnnotateFunction. by destruct (isAnnotated FD).
Qed.

Lemma visits_HandleTopLevelDecl mAllowRSPrefix D :
  visits (HandleTopLevelDecl mAllowRSPrefix D)
  = List.filter (fun FD => FD_isGlobal FD && isAnnotated FD) (functionDecls D).
Proof.
  unfold HandleTopLevelDecl. rewrite !visits_app.
  rewrite visits_annotateGlobalFunctions. cbn. rewrite app_nil_r.
  destruct mAllowRSPrefix; cbn; [done|]. by rewrite visits_checkRSPrefix.
Qed.

Lemma visits_validation_calls es :
  (forall e, In e es -> is_validation_call e = true) -> visits es = [].
Proof.
  induction es as [|e es IH]; intros H; [done|].
  assert (He := H e (or_introl eq_refl)).
  destruct e; try discriminate; cbn; apply IH; intros e' Hin; apply H; by right.
Qed.

Lemma visits_checkVersion version : visits (checkVersion version) = [].
Proof.
  unfold checkVersion. by destruct (version =? 0), (version >? 1).
Qed.

(** X1. The reserved prefix rule of [HandleTopLevelDecl]. When the
    prefix is not allowed, the diagnostics of a declaration group are
    exactly one error per function declaration of the group whose name
    starts with ["rs"] and which is not declared in an RS header, in the
    order of the group, each carrying the name of the function; variable
    declarations and other declarations are never diagnosed. When the
    prefix is allowed, the group gives no diagnostic at all. *)
Theorem reserved_prefix_reports mAllowRSPrefix D :
  reports (HandleTopLevelDecl mAllowRSPrefix D)
  = if mAllowRSPrefix then []
    else map (fun FD => Report Error diag_invalid_prefix [FD_Name FD])
             (List.filter usesReservedPrefix (functionDecls D)).
Proof.
  unfold HandleTopLevelDecl. rewrite !reports_app.
  rewrite (reports_none (annotateGlobalFunctions D))
    by apply annotateGlobalFunctions_no_report.
  cbn [reports List.filter is_Report]. rewrite !app_nil_r.
  destruct mAllowRSPrefix; cbn [negb]; [done|].
  rewrite checkRSPrefix_reports. apply reports_of_reports.
Qed.

(** X2. The annotation of [HandleTopLevelDecl]. The bodies handed to the
    reference counting visitor for a declaration group are those of the
    function declarations of the group that are global, have a body and
    are not declared in an RS header, in the order of the group. This
    does not depend on the prefix rule: a function whose name is rejected
    is annotated like any other, and static functions are left to the
    unit-level method. *)
Theorem guard_annotates_global_bodies mAllowRSPrefix D :
  visits (HandleTopLevelDecl mAllowRSPrefix D)
  = List.filter (fun FD => FD_isGlobal FD && FD_hasBody FD
                           && negb (FD_InRSHeaderFile FD))
                (functionDecls D).
Proof.
  rewrite visits_HandleTopLevelDecl. apply List.filter_ext.
  intros FD. unfold isAnnotated. by destruct (FD_isGlobal FD), (FD_hasBody FD).
Qed.

(** X3. [HandleTopLevelDecl] hands every declaration group on to the base
    class: once, unchanged, and as its last action, whether or not the
    prefix rule reported an error on it. Over the groups of a unit, the
    base class receives exactly these groups, in order. *)
Theorem guard_forwards_every_group mAllowRSPrefix :
  (forall D,
     forwarded (HandleTopLevelDecl mAllowRSPrefix D) = [D] /\
     last (HandleTopLevelDecl mAllowRSPrefix D)
     = Some (Backend_HandleTopLevelDecl D)) /\
  (forall groups,
     forwarded (flat_map (HandleTopLevelDecl mAllowRSPrefix) groups) = groups).
Proof.
  assert (H1 : forall D, forwarded (HandleTopLevelDecl mAllowRSPrefix D) = [D]).
  { intros D. unfold HandleTopLevelDecl. rewrite !forwarded_app.
    rewrite forwarded_annotateGlobalFunctions. cbn.
    destruct mAllowRSPrefix; cbn; [done|]. by rewrite forwarded_checkRSPrefix. }
  split.
  - intros D. split; [apply H1|].
    unfold HandleTopLevelDecl. rewrite !app_assoc. apply last_snoc.
  - induction groups as [|D groups IH]; [done|].
    cbn [flat_map]. rewrite forwarded_app, H1, IH. done.
Qed.

(** ** The visitor is reset before every body *)

Lemma initBeforeVisit_app es1 es2 :
  initBeforeVisit es1 /\ startsWithoutVisit es1 ->
  initBeforeVisit es2 /\ startsWithoutVisit es2 ->
  initBeforeVisit (es1 ++ es2) /\ startsWithoutVisit (es1 ++ es2).
Proof.
  intros [Hi1 Hs1] [Hi2 Hs2]. split.
  - intros l FD r Heq. apply app_eq_app in Heq.
    destruct Heq as [m [[H1 H2]|[H1 H2]]].
    + destruct m as [|e m].
      * cbn in H2. symmetry in H2. by apply Hs2 in H2.
      * cbn in H2. injection H2 as <- H2. by apply (Hi1 l FD m).
    + destruct (Hi2 m FD r H2) as [es0 ->].
      exists (es1 ++ es0). by rewrite H1, app_assoc.
  - intros FD rest Heq. destruct es1 as [|e es1].
    + by apply (Hs2 FD rest).
    + cbn in Heq. injection Heq as -> _. by apply (Hs1 FD es1).
Qed.

Lemma initBeforeVisit_none es :
  visits es = [] -> initBeforeVisit es /\ startsWithoutVisit es.
Proof.
  intros Hnone. split.
  - intros l FD r ->. rewrite visits_app in Hnone. cbn in Hnone.
    by destruct (visits l).
  - intros FD rest ->. discriminate.
Qed.

Lemma initBeforeVisit_AnnotateFunction FD :
  initBeforeVisit (AnnotateFunction FD) /\
  startsWithoutVisit (AnnotateFunction FD).
Proof.
  unfold AnnotateFunction. destruct (_ && _).
  - split.
    + intros l FD' r Heq. destruct l as [|e1 [|e2 l]]; try discriminate.
      * injection Heq as <-. by exists [].
      * injection Heq as _ _ Heq. by destruct l.
    + intros FD' rest. discriminate.
  - by apply initBeforeVisit_none.
Qed.

Lemma initBeforeVisit_annotateGlobalFunctions D :
  initBeforeVisit (annotateGlobalFunctions D) /\
  startsWithoutVisit (annotateGlobalFunctions D).
Proof.
  induction D as [|[VD|FD|] rest IH]; cbn; try done;
    [by apply initBeforeVisit_none|].
  apply initBeforeVisit_app; [|done].
  destruct (FD_isGlobal FD);
    [apply initBeforeVisit_AnnotateFunction|by apply initBeforeVisit_none].
Qed.

Lemma initBeforeVisit_annotateStaticFunctions D :
  initBeforeVisit (annotateStaticFunctions D) /\
  startsWithoutVisit (annotateStaticFunctions D).
Proof.
  induction D as [|[VD|FD|] rest IH]; cbn; try done;
    [by apply initBeforeVisit_none|].
  apply initBeforeVisit_app; [|done].
  destruct (FD_isGlobal FD); cbn;
    [by apply initBeforeVisit_none|apply initBeforeVisit_AnnotateFunction].
Qed.

Lemma initBeforeVisit_HandleTopLevelDecl mAllowRSPrefix D :
  initBeforeVisit (HandleTopLevelDecl mAllowRSPrefix D) /\
  startsWithoutVisit (HandleTopLevelDecl mAllowRSPrefix D).
Proof.
  unfold HandleTopLevelDecl. apply initBeforeVisit_app.
  - apply initBeforeVisit_none.
    destruct mAllowRSPrefix; cbn; [done|apply visits_checkRSPrefix].
  - apply initBeforeVisit_app; [apply initBeforeVisit_annotateGlobalFunctions|].
    by apply initBeforeVisit_none.
Qed.

(** X4. Every body that the declaration guard or the unit-level method
    hands to the reference counting visitor comes directly after a reset
    of the visitor: in the effects of [HandleTopLevelDecl] and of
    [HandleTranslationUnitPre], whatever precedes a visit ends with
    [mRefCount.Init()]. *)
Theorem visitor_reset_before_every_body :
  (forall mAllowRSPrefix D,
     initBeforeVisit (HandleTopLevelDecl mAllowRSPrefix D)) /\
  (forall mAllowRSPrefix mContext dtor TUDecl,
     initBeforeVisit
       (HandleTranslationUnitPre mAllowRSPrefix mContext dtor TUDecl)).
Proof.
  split; [intros; apply initBeforeVisit_HandleTopLevelDecl|].
  intros mAllowRSPrefix mContext dtor TUDecl.
  assert (Hval : visits (snd (ValidateASTContext TUDecl)) = [])
    by (apply visits_validation_calls, ValidateASTContext_loop_calls).
  destruct (fst (ValidateASTContext TUDecl)) eqn:Hv.
  - rewrite HandleTranslationUnitPre_valid by done.
    apply initBeforeVisit_app; [by apply initBeforeVisit_none|].
    apply initBeforeVisit_app;
      [apply initBeforeVisit_none, visits_checkVersion|].
    apply initBeforeVisit_app; [by apply initBeforeVisit_none|].
    apply initBeforeVisit_app; [|apply initBeforeVisit_annotateStaticFunctions].
    destruct dtor; [apply initBeforeVisit_HandleTopLevelDecl|].
    by apply initBeforeVisit_none.
  - rewrite HandleTranslationUnitPre_invalid by done.
    by apply initBeforeVisit_none.
Qed.

(** ** The validator, variable by variable *)

Lemma ValidateVarDecl_passes VD :
  fst (ValidateVarDecl VD) = passesValidation VD.
Proof.
  unfold ValidateVarDecl, passesValidation, hasExternalLinkage.
  destruct (Linkage_eqb _ _); cbn; [|done]. by destruct (VD_NormalizeType VD).
Qed.

Lemma ValidateASTContext_loop_verdict decls : forall valid,
  fst (ValidateASTContext_loop decls valid)
  = valid && forallb passesValidation (variableDecls decls).
Proof.
  induction decls as [|[VD|FD|] rest IH]; intros valid; cbn; try done.
  - by rewrite andb_true_r.
  - specialize (IH (if negb (fst (ValidateVarDecl VD)) then false else valid)).
    destruct (ValidateVarDecl VD) as [ok e] eqn:E.
    destruct (ValidateASTContext_loop rest _) as [valid' es]. cbn in *.
    rewrite IH. replace ok with (fst (ValidateVarDecl VD)) by (by rewrite E).
    rewrite ValidateVarDecl_passes.
    by destruct (passesValidation VD), valid.
Qed.

Lemma ValidateASTContext_loop_effects decls : forall valid,
  snd (ValidateASTContext_loop decls valid)
  = flat_map (fun VD => snd (ValidateVarDecl VD)) (variableDecls decls).
Proof.
  induction decls as [|[VD|FD|] rest IH]; intros valid; cbn; try done.
  specialize (IH (if negb (fst (ValidateVarDecl VD)) then false else valid)).
  destruct (ValidateVarDecl VD) as [ok e] eqn:E.
  destruct (ValidateASTContext_loop rest _) as [valid' es]. cbn in *.
  by rewrite IH.
Qed.

Lemma validatedDecls_calls (l : list VarDecl) :
  validatedDecls (flat_map (fun VD => snd (ValidateVarDecl VD)) l) = l /\
  normalizedDecls (flat_map (fun VD => snd (ValidateVarDecl VD)) l)
  = List.filter hasExternalLinkage l.
Proof.
  induction l as [|VD l [IH1 IH2]]; [done|].
  cbn [flat_map List.filter]. unfold validatedDecls, normalizedDecls in *.
  rewrite !omap_app, IH1, IH2.
  unfold ValidateVarDecl, hasExternalLinkage.
  by destruct (Linkage_eqb (VD_Linkage VD) ExternalLinkage).
Qed.

(** X5. The verdict of [ValidateASTContext] on a unit: the unit is valid
    exactly when every variable declaration among its declarations passes
    the checks that apply to it, which are [RSExportType::NormalizeType]
    for a variable with external linkage and
    [RSExportType::ValidateVarDecl] for every variable. Function
    declarations and other declarations have no part in the verdict. *)
Theorem validation_verdict TUDecl :
  fst (ValidateASTContext TUDecl)
  = forallb (fun VD =>
               (if Linkage_eqb (VD_Linkage VD) ExternalLinkage
                then VD_NormalizeType VD else true)
               && VD_ValidateVarDecl VD)
            (variableDecls TUDecl).
Proof.
  unfold ValidateASTContext. by rewrite ValidateASTContext_loop_verdict.
Qed.

(** X6. [ValidateASTContext] does not stop at the first failure, and
    [ValidateVarDecl] makes its second check whatever the first one
    answered: [RSExportType::ValidateVarDecl] is called on every variable
    declaration of the unit, once each and in order, and
    [RSExportType::NormalizeType] on exactly those with external linkage.
    So one pass reports the errors of all the variables of the unit, and
    [HandleTranslationUnitPre] makes these same calls whether or not it
    goes on. *)
Theorem validation_checks_every_variable mAllowRSPrefix mContext dtor TUDecl :
  validatedDecls (snd (ValidateASTContext TUDecl)) = variableDecls TUDecl /\
  normalizedDecls (snd (ValidateASTContext TUDecl))
  = List.filter (fun VD => Linkage_eqb (VD_Linkage VD) ExternalLinkage)
                (variableDecls TUDecl) /\
  validatedDecls
    (HandleTranslationUnitPre mAllowRSPrefix mContext dtor TUDecl)
  = variableDecls TUDecl.
Proof.
  unfold ValidateASTContext at 1 2. rewrite ValidateASTContext_loop_effects.
  destruct (validatedDecls_calls (variableDecls TUDecl)) as [H1 H2].
  split; [done|]. split; [done|].
  assert (Hval : validatedDecls (snd (ValidateASTContext TUDecl))
                 = variableDecls TUDecl).
  { unfold ValidateASTContext. by rewrite ValidateASTContext_loop_effects. }
  destruct (fst (ValidateASTContext TUDecl)) eqn:Hv.
  - rewrite HandleTranslationUnitPre_valid by done.
    unfold validatedDecls in *. rewrite !omap_app, Hval.
    assert (Hs : forall D,
      omap (fun e => match e with
                     | RSExportType_ValidateVarDecl VD => Some VD
                     | _ => None
                     end) (annotateStaticFunctions D) = []).
    { induction D as [|[VD|FD|] rest IH]; cbn; try done.
      rewrite omap_app, IH. unfold AnnotateFunction.
      by destruct (FD_isGlobal FD), (_ && _). }
    assert (Hd : forall FD,
      omap (fun e => match e with
                     | RSExportType_ValidateVarDecl VD => Some VD
                     | _ => None
                     end) (HandleTopLevelDecl mAllowRSPrefix [Decl_Function FD])
      = []).
    { intros FD. unfold HandleTopLevelDecl. cbn. unfold AnnotateFunction.
      destruct (startswith _ _), (FD_InRSHeaderFile FD), (FD_isGlobal FD),
               (FD_hasBody FD), mAllowRSPrefix; cbn; done. }
    rewrite Hs. unfold checkVersion.
    destruct dtor as [FD|]; [rewrite Hd|];
      destruct (getVersion mContext =? 0), (getVersion mContext >? 1); cbn;
      by rewrite app_nil_r.
  - by rewrite HandleTranslationUnitPre_invalid.
Qed.

(** ** Which bodies the unit-level method annotates *)

Lemma visits_HandleTranslationUnitPre mAllowRSPrefix mContext dtor TUDecl :
  visits (HandleTranslationUnitPre mAllowRSPrefix mContext dtor TUDecl)
  = if fst (ValidateASTContext TUDecl)
    then match dtor with
         | Some FD =>
             List.filter (fun FD => FD_isGlobal FD && isAnnotated FD) [FD]
         | None => []
         end
         ++ List.filter (fun FD => negb (FD_isGlobal FD) && isAnnotated FD)
                        (functionDecls TUDecl)
    else [].
Proof.
  assert (Hval : visits (snd (ValidateASTContext TUDecl)) = [])
    by (apply visits_validation_calls, ValidateASTContext_loop_calls).
  destruct (fst (ValidateASTContext TUDecl)) eqn:Hv.
  - rewrite HandleTranslationUnitPre_valid by done.
    rewrite !visits_app, Hval, visits_checkVersion,
            visits_annotateStaticFunctions.
    change (visits [RefCount_CreateStaticGlobalDtor]) with (@nil FunctionDecl).
    cbn [app]. f_equal.
    destruct dtor as [FD|]; [|done]. by rewrite visits_HandleTopLevelDecl.
  - by rewrite HandleTranslationUnitPre_invalid.
Qed.

(** X7. The bodies that [HandleTranslationUnitPre] hands to the visitor.
    On a unit that passes validation these are, in order: the body of the
    synthesized destructor (when one was created, and like any global
    function of a group); then the bodies of the function declarations of
    the unit that are not global, have a body and are not declared in an
    RS header. Global functions of the unit are not annotated here. On a
    unit that fails validation no body is visited. *)
Theorem unit_annotates_static_bodies mAllowRSPrefix mContext dtor TUDecl :
  visits (HandleTranslationUnitPre mAllowRSPrefix mContext dtor TUDecl)
  = if fst (ValidateASTContext TUDecl)
    then match dtor with
         | Some FD =>
             if FD_isGlobal FD && FD_hasBody FD && negb (FD_InRSHeaderFile FD)
             then [FD] else []
         | None => []
         end
         ++ List.filter (fun FD => negb (FD_isGlobal FD) && FD_hasBody FD
                                   && negb (FD_InRSHeaderFile FD))
                        (functionDecls TUDecl)
    else [].
Proof.
  rewrite visits_HandleTranslationUnitPre.
  destruct (fst (ValidateASTContext TUDecl)); [|done]. f_equal.
  - destruct dtor as [FD|]; [|done]. cbn. unfold isAnnotated.
    by destruct (FD_isGlobal FD), (FD_hasBody FD), (FD_InRSHeaderFile FD).
  - apply List.filter_ext. intros FD. unfold isAnnotated.
    by destruct (FD_isGlobal FD), (FD_hasBody FD).
Qed.


(** ** The function list and the output of the emitter, exactly *)

Lemma helperFunctions_cons w EF funcs :
  helperFunctions w (EF :: funcs)
  = (if hasParam EF
     then match moduleFunction w EF with
          | Some F => [helperFunction EF F]
          | None => []
          end
     else [])
    ++ helperFunctions w funcs.
Proof.
  unfold helperFunctions. cbn [List.filter].
  destruct (hasParam EF); [|done]. cbn.
  by destruct (moduleFunction w EF).
Qed.

Lemma mismatchOutputs_cons w EF funcs :
  mismatchOutputs w (EF :: funcs)
  = (if hasParam EF
     then match moduleFunction w EF with
          | Some F => mismatchOutput EF (helperFunctionParameterTy F)
          | None => []
          end
     else [])
    ++ mismatchOutputs w funcs.
Proof.
  unfold mismatchOutputs. cbn [List.filter].
  by destruct (hasParam EF).
Qed.

Lemma helperFunctions_same w1 w2 funcs :
  FunctionList (theModule w1) = FunctionList (theModule w2) ->
  helperFunctions w1 funcs = helperFunctions w2 funcs /\
  mismatchOutputs w1 funcs = mismatchOutputs w2 funcs.
Proof.
  intros H. unfold helperFunctions, mismatchOutputs, moduleFunction.
  by rewrite H.
Qed.

Lemma forEach_exportFunc_exact funcs : forall w w',
  mExportFuncMetadata (this w) = Some RS_EXPORT_FUNC_MN ->
  forEach funcs exportFunc w = Normal (tt, w') ->
  FunctionList (theModule w')
  = FunctionList (theModule w) ++ helperFunctions w' funcs /\
  effects w' = effects w ++ mismatchOutputs w' funcs.
Proof.
  induction funcs as [|EF rest IH]; intros w w' Hh Hrun.
  - cbn in Hrun. injection Hrun as <-.
    unfold helperFunctions, mismatchOutputs. cbn. by rewrite !app_nil_r.
  - cbn [forEach] in Hrun. apply bind_Normal in Hrun.
    destruct Hrun as ([] & w1 & Hstep & Hrest).
    assert (Hstep' := exportFunc_Normal EF w w1 Hh Hstep).
    assert (Hh1 : mExportFuncMetadata (this w1) = Some RS_EXPORT_FUNC_MN).
    { destruct Hstep' as [[_ ->]|[_ (F & _ & _ & ->)]]; done. }
    destruct (IH w1 w' Hh1 Hrest) as [Hfs Heff].
    destruct (forEach_exportFunc_Normal rest w1 w' Hh1 Hrest)
      as (_ & Hgrow & _).
    rewrite helperFunctions_cons, mismatchOutputs_cons, Hfs, Heff.
    destruct Hstep' as [[Hp ->]|[Hp (F & HF & _ & ->)]]; rewrite Hp.
    + cbn. by rewrite !app_nil_r.
    + assert (HF' : moduleFunction w' EF = Some F).
      { unfold moduleFunction. eapply grows_lookupFunction; [done|].
        eapply grows_lookupFunction; [apply afterExportFunc_grows|done]. }
      rewrite HF'. cbn. by rewrite <- !app_assoc.
Qed.

Lemma dumpExportFuncs_exact mContext w w' :
  mExportFuncMetadata (this w) = None ->
  dumpExportFuncs mContext w = Normal (tt, w') ->
  FunctionList (theModule w')
  = FunctionList (theModule w) ++ helperFunctions w' (export_funcs mContext) /\
  effects w' = effects w ++ mismatchOutputs w' (export_funcs mContext).
Proof.
  intros Hh Hrun. unfold dumpExportFuncs, hasExportFunc in Hrun.
  destruct (export_funcs mContext) as [|EF rest] eqn:E.
  - cbn in Hrun. injection Hrun as <-.
    unfold helperFunctions, mismatchOutputs. cbn. by rewrite !app_nil_r.
  - rewrite <- E in *. replace (length (export_funcs mContext))
      with (S (length rest)) in Hrun by (by rewrite E).
    cbn [Nat.eqb negb when] in Hrun.
    destruct (ensureMetadata_run mExportFuncMetadata set_mExportFuncMetadata
                RS_EXPORT_FUNC_MN w Hh)
      as (w0 & Hrun0 & Hthis0 & Hfs0 & Heff0 & _).
    rewrite (bind_run _ _ _ _ _ Hrun0) in Hrun.
    assert (Hh0 : mExportFuncMetadata (this w0) = Some RS_EXPORT_FUNC_MN)
      by (by rewrite Hthis0).
    destruct (forEach_exportFunc_exact _ _ _ Hh0 Hrun) as [Hfs Heff].
    by rewrite Hfs, Heff, Hfs0, Heff0.
Qed.

(** What a completed run of [HandleTranslationUnitPost] leaves besides
    the lists of the variables, functions and types: the function list,
    the effects, the list of the kernels, and every other named metadata
    list of the module. *)
Lemma HandleTranslationUnitPost_exact mContext w w' :
  processExport mContext = true ->
  this w = RSBackend_new ->
  HandleTranslationUnitPost mContext w = Normal (tt, w') ->
  FunctionList (theModule w')
  = FunctionList (theModule w) ++ helperFunctions w' (export_funcs mContext) /\
  effects w' = effects w ++ mismatchOutputs w' (export_funcs mContext) /\
  namedMetadata w' RS_EXPORT_FOREACH_MN
    = match export_foreach mContext with
      | [] => namedMetadata w RS_EXPORT_FOREACH_MN
      | _ => Some (operands w RS_EXPORT_FOREACH_MN
                   ++ map forEachRecord (export_foreach mContext))
      end /\
  (forall n,
     n <> RS_EXPORT_VAR_MN -> n <> RS_OBJECT_SLOTS_MN ->
     n <> RS_EXPORT_FUNC_MN -> n <> RS_EXPORT_FOREACH_MN ->
     n <> RS_EXPORT_TYPE_MN ->
     (forall ET, In ET (recordTypes (export_types mContext)) ->
                 n <> structInfoMetadataName ET) ->
     namedMetadata w' n = namedMetadata w n).
Proof.
  intros Hproc Hnew Hrun. unfold HandleTranslationUnitPost in Hrun.
  rewrite Hproc in Hrun. cbn [negb] in Hrun.
  apply bind_Normal in Hrun. destruct Hrun as ([] & w1 & Hvars & Hrun).
  apply bind_Normal in Hrun. destruct Hrun as ([] & w2 & Hfuncs & Hrun).
  apply bind_Normal in Hrun. destruct Hrun as ([] & w3 & Hforeach & Htypes).
  destruct (dumpExportVars_Normal mContext w w1) as
    (Hlen & Hthis1 & Hfs1 & Heff1 & Hvar1 & Hslots1 & Hother1);
    [by rewrite Hnew|by rewrite Hnew|done|].
  assert (Hf1 : mExportFuncMetadata (this w1) = None)
    by (rewrite Hthis1, Hnew; by destruct (export_vars mContext)).
  destruct (dumpExportFuncs_Normal mContext w1 w2 Hf1 Hfuncs)
    as (Hthis2 & _ & _ & Hother2 & _).
  destruct (dumpExportFuncs_exact mContext w1 w2 Hf1 Hfuncs) as [Hfs2 Heff2].
  assert (Hfe2 : mExportForEachMetadata (this w2) = None).
  { rewrite Hthis2, Hthis1, Hnew.
    by destruct (export_vars mContext), (export_funcs mContext). }
  destruct (dumpExportForEach_run mContext w2 Hfe2)
    as (w3' & Hrun3 & Hthis3 & Hfs3 & Heff3 & Hforeach3 & Hother3).
  assert (w3' = w3) as -> by congruence.
  assert (Ht3 : mExportTypeMetadata (this w3) = None).
  { rewrite Hthis3, Hthis2, Hthis1, Hnew.
    by destruct (export_vars mContext), (export_funcs mContext),
                (export_foreach mContext). }
  destruct (dumpExportTypes_Normal mContext w3 w' Ht3 Htypes)
    as (Hfs4 & Heff4 & _ & Hother4 & _).
  assert (Hsame : FunctionList (theModule w') = FunctionList (theModule w2))
    by (by rewrite Hfs4, Hfs3).
  destruct (helperFunctions_same w' w2 (export_funcs mContext) Hsame)
    as [Hh Hm].
  split; [by rewrite Hh, Hsame, Hfs2, Hfs1|].
  split; [by rewrite Hm, Heff4, Heff3, Heff2, Heff1|].
  split.
  { rewrite Hother4;
      [|discriminate|intros ET _ Heq; by apply (structInfoMetadataName_not_foreach ET)].
    rewrite Hforeach3. unfold operands.
    rewrite Hother2, Hother1; done. }
  intros n Hv Hs Hf Hfe Ht Hrec.
  by rewrite Hother4, Hother3, Hother2, Hother1.
Qed.

Lemma lookupFunction_app_None Name fs hs :
  lookupFunction Name fs = None ->
  lookupFunction Name (fs ++ hs) = lookupFunction Name hs.
Proof.
  unfold lookupFunction. induction fs as [|F fs IH]; cbn; [done|].
  destruct (String.eqb (F_Name F) Name); [discriminate|done].
Qed.

Lemma lookupFunction_Some Name fs F :
  lookupFunction Name fs = Some F -> In F fs /\ F_Name F = Name.
Proof.
  unfold lookupFunction. intros H. apply List.find_some in H as [Hin Heq].
  split; [done|]. by apply String.eqb_eq.
Qed.

Lemma helperFunctions_In w funcs H :
  In H (helperFunctions w funcs) ->
  exists EF, In EF funcs /\ hasParam EF = true /\
             F_Name H = helperFunctionName EF.
Proof.
  induction funcs as [|EF rest IH]; [done|].
  rewrite helperFunctions_cons. intros Hin. apply in_app_or in Hin as [Hin|Hin].
  - destruct (hasParam EF) eqn:Hp; [|done].
    destruct (moduleFunction w EF) as [F|]; [|done].
    destruct Hin as [<-|[]]. exists EF. repeat split; [by left|done].
  - destruct (IH Hin) as (EF' & Hin' & Hp & Hname).
    exists EF'. repeat split; [by right|done|done].
Qed.

Lemma helperFunctions_Forall2 w funcs :
  (forall EF, In EF funcs -> hasParam EF = true ->
     exists F, moduleFunction w EF = Some F /\ F_ArgumentList F <> []) ->
  Forall2 (fun EF H =>
             exists F, moduleFunction w EF = Some F /\
                       F_ArgumentList F <> [] /\
                       H = helperFunction EF F)
          (List.filter hasParam funcs) (helperFunctions w funcs).
Proof.
  induction funcs as [|EF rest IH]; intros Hfound; [constructor|].
  rewrite helperFunctions_cons. cbn [List.filter].
  assert (IH' := IH (fun EF' Hin => Hfound EF' (or_intror Hin))).
  destruct (hasParam EF) eqn:Hp; [|done].
  destruct (Hfound EF (or_introl eq_refl) Hp) as (F & HF & Hargs).
  rewrite HF. cbn. constructor; [|done]. by exists F.
Qed.

Lemma mismatchOutputs_accepted w funcs :
  (forall EF T, In EF funcs -> hasParam EF = true ->
                checkParameterPacketType EF T = true) ->
  mismatchOutputs w funcs = [].
Proof.
  induction funcs as [|EF rest IH]; intros Hok; [done|].
  rewrite mismatchOutputs_cons.
  rewrite IH by (intros EF' T Hin; apply Hok; by right).
  rewrite app_nil_r. destruct (hasParam EF) eqn:Hp; [|done].
  destruct (moduleFunction w EF) as [F|]; [|done].
  unfold mismatchOutput. by rewrite (Hok EF _ (or_introl eq_refl) Hp).
Qed.

(** ** What the emitter leaves alone, and when its lists come to be *)

(** X9. A completed run of the emitter, from the state the constructor
    leaves, changes only its own metadata: every named metadata list of
    the module other than the five lists of the emitter and the field
    lists ["%<name>"] of the exported record types is after the run what
    it was before, whether export processing is on or off. *)
Theorem other_metadata_untouched mContext w w' n :
  this w = RSBackend_new ->
  HandleTranslationUnitPost mContext w = Normal (tt, w') ->
  n <> RS_EXPORT_VAR_MN ->
  n <> RS_OBJECT_SLOTS_MN ->
  n <> RS_EXPORT_FUNC_MN ->
  n <> RS_EXPORT_FOREACH_MN ->
  n <> RS_EXPORT_TYPE_MN ->
  (forall ET, In ET (recordTypes (export_types mContext)) ->
              n <> "%" +:+ getName ET) ->
  namedMetadata w' n = namedMetadata w n.
Proof.
  intros Hnew Hrun Hv Hs Hf Hfe Ht Hrec.
  destruct (processExport mContext) eqn:Hproc.
  - by apply (HandleTranslationUnitPost_exact mContext w w' Hproc Hnew Hrun).
  - unfold HandleTranslationUnitPost in Hrun. rewrite Hproc in Hrun.
    cbn in Hrun. by injection Hrun as <-.
Qed.

(** X10. The emitter creates each of its lists on demand. After a
    completed run with export processing on, from the state the
    constructor leaves, [#rs_export_var] and [#rs_object_slots] are in
    the module exactly when they were there before or the unit exports a
    variable, [#rs_export_func] exactly when it was there before or the
    unit exports a function, [#rs_export_foreach] exactly when it was
    there before or the unit exports a kernel, and [#rs_export_type]
    exactly when it was there before or the unit exports a record type. A
    unit that exports nothing of a kind gets no empty list for it. *)
Theorem lists_created_on_demand mContext w w' :
  processExport mContext = true ->
  this w = RSBackend_new ->
  HandleTranslationUnitPost mContext w = Normal (tt, w') ->
  (is_Some (namedMetadata w' RS_EXPORT_VAR_MN) <->
   is_Some (namedMetadata w RS_EXPORT_VAR_MN) \/ export_vars mContext <> []) /\
  (is_Some (namedMetadata w' RS_OBJECT_SLOTS_MN) <->
   is_Some (namedMetadata w RS_OBJECT_SLOTS_MN) \/ export_vars mContext <> []) /\
  (is_Some (namedMetadata w' RS_EXPORT_FUNC_MN) <->
   is_Some (namedMetadata w RS_EXPORT_FUNC_MN) \/ export_funcs mContext <> []) /\
  (is_Some (namedMetadata w' RS_EXPORT_FOREACH_MN) <->
   is_Some (namedMetadata w RS_EXPORT_FOREACH_MN)
   \/ export_foreach mContext <> []) /\
  (is_Some (namedMetadata w' RS_EXPORT_TYPE_MN) <->
   is_Some (namedMetadata w RS_EXPORT_TYPE_MN)
   \/ recordTypes (export_types mContext) <> []).
Proof.
  intros Hproc Hnew Hrun.
  destruct (HandleTranslationUnitPost_Normal mContext w w' Hproc Hnew Hrun)
    as (_ & _ & Hvar & Hslots & Hfunc & _ & Htype & _).
  destruct (HandleTranslationUnitPost_exact mContext w w' Hproc Hnew Hrun)
    as (_ & _ & Hforeach & _).
  rewrite Hvar, Hslots, Hfunc, Hforeach, Htype.
  assert (Hcase : forall (A B : Type) (l : list A) (o : option B) (v : B),
    is_Some (match l with [] => o | _ :: _ => Some v end)
    <-> is_Some o \/ l <> []).
  { intros A B [|a l] o v.
    - split; [by left|]. by intros [H|H].
    - split; [by right|]. by eexists. }
  repeat apply conj; apply Hcase.
Qed.

(** ** The helper functions in the module *)

(** X11. A completed run of the emitter only appends to the function
    list of the module: the functions that were there stay in place,
    unchanged and in front, and behind them comes one helper function per
    exported function with parameters, in the order of the exported
    functions, named [".helper_"] followed by the name of the exported
    function and built over the function of that name in the module.
    Exported functions without parameters add nothing. *)
Theorem helper_functions_appended mContext w w' :
  processExport mContext = true ->
  this w = RSBackend_new ->
  HandleTranslationUnitPost mContext w = Normal (tt, w') ->
  exists hs,
    FunctionList (theModule w') = FunctionList (theModule w) ++ hs /\
    map F_Name hs
    = map (fun EF => ".helper_" +:+ EF_Name EF)
          (List.filter hasParam (export_funcs mContext)) /\
    Forall2 (fun EF H =>
               exists F,
                 lookupFunction (EF_Name EF) (FunctionList (theModule w'))
                 = Some F /\
                 F_ArgumentList F <> [] /\
                 H = helperFunction EF F)
            (List.filter hasParam (export_funcs mContext)) hs.
Proof.
  intros Hproc Hnew Hrun.
  destruct (HandleTranslationUnitPost_Normal mContext w w' Hproc Hnew Hrun)
    as (_ & _ & _ & _ & _ & Hhelp & _).
  destruct (HandleTranslationUnitPost_exact mContext w w' Hproc Hnew Hrun)
    as (Hfs & _).
  exists (helperFunctions w' (export_funcs mContext)).
  split; [done|].
  assert (Hall := helperFunctions_Forall2 w' (export_funcs mContext)).
  unfold moduleFunction in Hall.
  assert (Hfound : forall EF, In EF (export_funcs mContext) ->
    hasParam EF = true ->
    exists F, lookupFunction (EF_Name EF) (FunctionList (theModule w')) = Some F
              /\ F_ArgumentList F <> []).
  { intros EF Hin Hp. destruct (Hhelp EF Hin Hp) as (F & HF & Hargs & _).
    by exists F. }
  specialize (Hall Hfound). split; [|done].
  clear -Hall. induction Hall as [|EF H l hs (F & _ & _ & ->) _ IH]; [done|].
  cbn [map]. by rewrite IH.
Qed.

(** ** The kernels *)

(** X12. The list of the kernels. A completed run of the emitter with
    export processing on, from the state the constructor leaves, appends
    to [#rs_export_foreach] one record per exported kernel, in order,
    whose single string is the decimal numeral of the signature encoding
    of the kernel, taken as a [uint32_t] value; the name of the kernel is
    not part of the record. *)
Theorem export_foreach_list mContext w w' :
  processExport mContext = true ->
  this w = RSBackend_new ->
  HandleTranslationUnitPost mContext w = Normal (tt, w') ->
  exists enc : RSExportForEach -> string,
    operands w' RS_EXPORT_FOREACH_MN
    = operands w RS_EXPORT_FOREACH_MN
      ++ map (fun EFE => [enc EFE]) (export_foreach mContext) /\
    forall EFE,
      Decimal.is_decimal_of (enc EFE) (EFE_MetadataEncoding EFE mod 2 ^ 32).
Proof.
  intros Hproc Hnew Hrun.
  destruct (HandleTranslationUnitPost_exact mContext w w' Hproc Hnew Hrun)
    as (_ & _ & Hforeach & _).
  exists (fun EFE => utostr_32 (EFE_MetadataEncoding EFE) false).
  split; [|intros EFE; apply utostr_32_decimal].
  unfold operands at 1. rewrite Hforeach.
  destruct (export_foreach mContext); [|done]. cbn. by rewrite app_nil_r.
Qed.

(** ** What the emitter writes *)

(** X13. The output of a completed run of the emitter. Besides the
    module, the run changes nothing but [stderr]: its effects are the
    mismatch reports of the exported functions with parameters, in order,
    each written only when the parameter packet check of that function
    fails. When the check accepts every exported function with
    parameters, the run has no effect outside the module at all. *)
Theorem emitter_output mContext w w' :
  processExport mContext = true ->
  this w = RSBackend_new ->
  HandleTranslationUnitPost mContext w = Normal (tt, w') ->
  effects w'
  = effects w
    ++ flat_map
         (fun EF =>
            match lookupFunction (EF_Name EF) (FunctionList (theModule w')) with
            | Some F =>
                if checkParameterPacketType EF (helperFunctionParameterTy F)
                then []
                else mismatchOutput EF (helperFunctionParameterTy F)
            | None => []
            end)
         (List.filter hasParam (export_funcs mContext)) /\
  ((forall EF T, In EF (export_funcs mContext) -> hasParam EF = true ->
                 checkParameterPacketType EF T = true) ->
   effects w' = effects w).
Proof.
  intros Hproc Hnew Hrun.
  destruct (HandleTranslationUnitPost_exact mContext w w' Hproc Hnew Hrun)
    as (_ & Heff & _).
  split.
  - rewrite Heff. f_equal. unfold mismatchOutputs, moduleFunction.
    apply flat_map_ext. intros EF.
    destruct (lookupFunction _ _) as [F|]; [|done].
    unfold mismatchOutput.
    by destruct (checkParameterPacketType EF (helperFunctionParameterTy F)).
  - intros Hok. rewrite Heff, mismatchOutputs_accepted by done.
    by rewrite app_nil_r.
Qed.

(** X15. What a completed run of the emitter tells about its input. If
    the emitter completes with export processing on, from the state the
    constructor leaves, then the exported variables can be counted in an
    [int], and every exported function with parameters, unless its name
    is the helper name of an exported function, names a function that
    was in the module before the run and has at least one argument. So a
    unit that exports a function with parameters which is missing from
    the module, or whose function in the module takes no argument, never
    gets its metadata. *)
Theorem emitter_completes_only_if mContext w w' :
  processExport mContext = true ->
  this w = RSBackend_new ->
  HandleTranslationUnitPost mContext w = Normal (tt, w') ->
  Z.of_nat (length (export_vars mContext)) <= INT_MAX /\
  forall EF,
    In EF (export_funcs mContext) -> hasParam EF = true ->
    (forall EF', In EF' (export_funcs mContext) -> hasParam EF' = true ->
                 ".helper_" +:+ EF_Name EF' <> EF_Name EF) ->
    exists F,
      lookupFunction (EF_Name EF) (FunctionList (theModule w)) = Some F /\
      F_ArgumentList F <> [].
Proof.
  intros Hproc Hnew Hrun.
  destruct (HandleTranslationUnitPost_Normal mContext w w' Hproc Hnew Hrun)
    as (Hlen & _ & _ & _ & _ & Hhelp & _).
  destruct (HandleTranslationUnitPost_exact mContext w w' Hproc Hnew Hrun)
    as (Hfs & _).
  split; [done|]. intros EF Hin Hp Hclash.
  destruct (Hhelp EF Hin Hp) as (F & HF & Hargs & _).
  destruct (lookupFunction (EF_Name EF) (FunctionList (theModule w)))
    as [F0|] eqn:E.
  - exists F0. split; [done|].
    rewrite Hfs in HF. rewrite (lookupFunction_app _ _ _ _ E) in HF.
    by injection HF as ->.
  - exfalso. rewrite Hfs, (lookupFunction_app_None _ _ _ E) in HF.
    apply lookupFunction_Some in HF as [HinF Hname].
    apply helperFunctions_In in HinF as (EF' & Hin' & Hp' & Hname').
    apply (Hclash EF' Hin' Hp'). unfold helperFunctionName in Hname'.
    congruence.
Qed.

(** ** The body of a helper function is well formed *)

Lemma fetchParameters_lookup n : forall pos I,
  concat (map fetchParameter (seq 0 n)) !! pos = Some I ->
  exists i, (i < n)%nat /\
    ((pos = (2 * i)%nat /\
      I = GetElementPtr true (Argument 0)
            [ConstantInt (IntegerTy 32) 0;
             ConstantInt (IntegerTy 32) (Z.of_nat i mod 2 ^ 32)]) \/
     (pos = (2 * i + 1)%nat /\ I = Load (InstResult (2 * i)))).
Proof.
  induction n as [|n IH]; intros pos I Hpos; [done|].
  rewrite seq_S, map_app, concat_app in Hpos. cbn [map concat Nat.add] in Hpos.
  rewrite app_nil_r in Hpos.
  apply lookup_app_Some in Hpos as [Hpos|[Hge Hpos]].
  - destruct (IH pos I Hpos) as (i & Hi & Hcase). exists i. split; [lia|done].
  - rewrite length_fetchParameters in Hge, Hpos. exists n. split; [lia|].
    unfold fetchParameter in Hpos.
    destruct (pos - 2 * n)%nat as [|[|k]] eqn:E; cbn in Hpos; [| |done].
    + left. split; [lia|]. by injection Hpos as <-.
    + right. split; [lia|]. by injection Hpos as <-.
Qed.

(** X16. The body that [HandleTranslationUnitPost] builds for a helper
    function is a well formed block. Whenever the builder builds the
    body, it has two instructions per parameter of the exported function,
    then the call and the return: [2 * n + 2] instructions. Every
    instruction reads only the packet argument, constants, and results of
    instructions that come earlier in the block; the last instruction is
    the only one that ends the block; and the only call is the
    instruction before it. *)
Theorem helper_body_well_formed EF F T BB :
  createHelperFunctionBody EF F (Argument 0, T) = Normal BB ->
  let n := getNumParameters EF in
  length BB = (2 * n + 2)%nat /\
  (forall pos I V, BB !! pos = Some I -> In V (usedValues I) ->
     match V with
     | Argument ArgNo => ArgNo = 0%nat
     | ConstantInt _ _ => True
     | InstResult p => (p < pos)%nat
     end) /\
  (forall pos I, BB !! pos = Some I ->
     (isTerminator I = true <-> pos = (2 * n + 1)%nat)) /\
  (forall pos I Callee Args CC, BB !! pos = Some I -> I = Call Callee Args CC ->
     pos = (2 * n)%nat /\ Callee = F_Name F /\ CC = F_CallingConv F).
Proof.
  intros Hbuilt n. apply createHelperFunctionBody_Normal in Hbuilt as ->.
  fold n. unfold helperBody.
  assert (Hlen := length_fetchParameters n 0).
  split; [rewrite length_app, Hlen; cbn; lia|].
  repeat apply conj.
  - intros pos I V Hpos HV.
    apply lookup_app_Some in Hpos as [Hpos|[Hge Hpos]].
    + apply fetchParameters_lookup in Hpos as (i & Hi & [[-> ->]|[-> ->]]).
      * cbn in HV. destruct HV as [<-|[<-|[<-|[]]]]; done.
      * cbn in HV. destruct HV as [<-|[]]. lia.
    + rewrite Hlen in Hge, Hpos.
      destruct (pos - 2 * n)%nat as [|[|k]] eqn:E; cbn in Hpos; [| |done].
      * injection Hpos as <-. cbn in HV.
        apply in_map_iff in HV as (i & <- & Hin). apply in_seq in Hin.
        unfold loadedParameter. lia.
      * injection Hpos as <-.
        destruct (isVoidTy (F_ReturnType F)); cbn in HV; [done|].
        destruct HV as [<-|[]]. lia.
  - intros pos I Hpos.
    apply lookup_app_Some in Hpos as [Hpos|[Hge Hpos]].
    + assert (Hlt := lookup_lt_Some _ _ _ Hpos). rewrite Hlen in Hlt.
      apply fetchParameters_lookup in Hpos as (i & Hi & [[-> ->]|[-> ->]]);
        cbn; split; (done || lia).
    + rewrite Hlen in Hge, Hpos.
      destruct (pos - 2 * n)%nat as [|[|k]] eqn:E; cbn in Hpos; [| |done].
      * injection Hpos as <-. cbn. split; [done|lia].
      * injection Hpos as <-. split; [lia|].
        by destruct (isVoidTy (F_ReturnType F)).
  - intros pos I Callee Args CC Hpos ->.
    apply lookup_app_Some in Hpos as [Hpos|[Hge Hpos]].
    + apply fetchParameters_lookup in Hpos as (i & Hi & [[_ H]|[_ H]]);
        discriminate.
    + rewrite Hlen in Hge, Hpos.
      destruct (pos - 2 * n)%nat as [|[|k]] eqn:E; cbn in Hpos; [| |done].
      * injection Hpos as <- _ <-. repeat split. lia.
      * injection Hpos as Hpos.
        by destruct (isVoidTy (F_ReturnType F)).
Qed.

(** ** The lists of a unit agree with each other *)

(** X17. The object slots point into the list of the variables. After a
    completed run of the emitter with export processing on, from the
    state the constructor leaves and without the two lists in the module
    beforehand, every record of [#rs_object_slots] is the numeral of a
    position [i] such that the [i]-th record of [#rs_export_var] is the
    descriptor of the [i]-th exported variable, whose type is a primitive
    type with a reference counted RS object data type; and the slot list
    is never longer than the variable list. *)
Theorem object_slots_index_variable_records mContext w w' :
  processExport mContext = true ->
  this w = RSBackend_new ->
  namedMetadata w RS_EXPORT_VAR_MN = None ->
  namedMetadata w RS_OBJECT_SLOTS_MN = None ->
  HandleTranslationUnitPost mContext w = Normal (tt, w') ->
  (forall rec, In rec (operands w' RS_OBJECT_SLOTS_MN) ->
     exists (i : nat) EV n mType mKind,
       rec = [utostr_32 (Z.of_nat i) false] /\
       export_vars mContext !! i = Some EV /\
       EV_Type EV = RSExportPrimitiveType n mType mKind /\
       isRSObjectType mType = true /\
       operands w' RS_EXPORT_VAR_MN !! i
       = Some [EV_Name EV; utostr_32 mType false]) /\
  (length (operands w' RS_OBJECT_SLOTS_MN)
   <= length (operands w' RS_EXPORT_VAR_MN))%nat.
Proof.
  intros Hproc Hnew Hvar0 Hslots0 Hrun.
  destruct (HandleTranslationUnitPost_Normal mContext w w' Hproc Hnew Hrun)
    as (_ & _ & Hvar & Hslots & _).
  assert (Hv : operands w' RS_EXPORT_VAR_MN
               = map varRecord (export_vars mContext)).
  { unfold operands. rewrite Hvar. unfold operands. rewrite !Hvar0.
    by destruct (export_vars mContext). }
  assert (Hs : operands w' RS_OBJECT_SLOTS_MN
               = map (fun i => slotRecord (Z.of_nat i))
                     (objectSlots 0 (export_vars mContext))).
  { unfold operands. rewrite Hslots. unfold operands. rewrite !Hslots0.
    by destruct (export_vars mContext). }
  rewrite Hv, Hs. split.
  - intros rec Hin. apply in_map_iff in Hin as (i & <- & Hin).
    apply objectSlots_In in Hin as (EV & _ & Hi & Htakes).
    rewrite Nat.sub_0_r in Hi.
    apply takesObjectSlot_spec in Htakes as (n & mType & mKind & HT & Hobj).
    exists i, EV, n, mType, mKind. repeat split; try done.
    rewrite list_lookup_fmap, Hi. cbn. unfold varRecord. by rewrite HT.
  - rewrite !length_map. clear.
    generalize 0%nat. induction (export_vars mContext) as [|EV vars IH];
      intros k; [done|].
    cbn [objectSlots length]. rewrite length_app. specialize (IH (S k)).
    destruct (takesObjectSlot EV); cbn; lia.
Qed.

(** X18. The field lists of a unit. After a completed run of the emitter
    with export processing on, from the state the constructor leaves,
    on a unit whose exported record types have distinct names and with
    no type list in the module beforehand: every record of
    [#rs_export_type] is the name of an exported record type, and for
    every exported record type the list ["%<name>"] is in the module and
    holds exactly one entry per field of the type, in field order, each
    made of the field name, the name of the field type and the kind
    code. A field of record type is one entry: its own fields are not
    expanded. *)
Theorem unit_field_lists mContext w w' :
  processExport mContext = true ->
  this w = RSBackend_new ->
  namedMetadata w RS_EXPORT_TYPE_MN = None ->
  NoDup (map getName (recordTypes (export_types mContext))) ->
  HandleTranslationUnitPost mContext w = Normal (tt, w') ->
  (forall rec, In rec (operands w' RS_EXPORT_TYPE_MN) ->
     exists n fields,
       rec = [n] /\
       In (RSExportRecordType n fields) (map snd (export_types mContext))) /\
  (forall n fields,
     In (RSExportRecordType n fields) (map snd (export_types mContext)) ->
     In [n] (operands w' RS_EXPORT_TYPE_MN) /\
     namedMetadata w' ("%" +:+ n)
     = Some (map (fun F => [Field_getName F;
                            getName (Field_getType F);
                            itostr (fieldKindCode (Field_getType F))])
                 fields)).
Proof.
  intros Hproc Hnew Htype0 Hnodup Hrun.
  destruct (HandleTranslationUnitPost_Normal mContext w w' Hproc Hnew Hrun)
    as (_ & _ & _ & _ & _ & _ & Htype & Hfields).
  assert (Ht : operands w' RS_EXPORT_TYPE_MN
               = map typeRecord (recordTypes (export_types mContext))).
  { unfold operands. rewrite Htype. unfold operands. rewrite !Htype0.
    by destruct (recordTypes (export_types mContext)). }
  rewrite Ht. split.
  - intros rec Hin. apply in_map_iff in Hin as (ET & <- & Hin).
    unfold recordTypes in Hin. apply List.filter_In in Hin as [Hin Hrec].
    destruct ET as [| | | | |n fields]; try discriminate.
    by exists n, fields.
  - intros n fields Hin. split.
    + apply in_map_iff. exists (RSExportRecordType n fields).
      split; [done|]. by apply In_recordTypes.
    + specialize (Hfields Hnodup n fields Hin).
      change (structInfoMetadataName (RSExportRecordType n fields))
        with ("%" +:+ n) in Hfields.
      rewrite Hfields. f_equal. apply map_ext. intros F.
      unfold fieldRecord. by rewrite fieldKind_fieldKindCode.
Qed.

(** X19. The list of the functions of a unit. After a completed run of
    the emitter with export processing on, from the state the constructor
    leaves and without a function list in the module beforehand,
    [#rs_export_func] holds one record per exported function, in order:
    the name of the function when it has no parameter, [".helper_"]
    followed by the name when it has. Every record of the second kind
    names a function that is in the module after the run and takes one
    argument, a pointer to a structure; for a function without parameters
    the emitter neither looks the function up nor creates one. *)
Theorem export_func_list mContext w w' :
  processExport mContext = true ->
  this w = RSBackend_new ->
  namedMetadata w RS_EXPORT_FUNC_MN = None ->
  HandleTranslationUnitPost mContext w = Normal (tt, w') ->
  operands w' RS_EXPORT_FUNC_MN
  = map (fun EF => [if hasParam EF then ".helper_" +:+ EF_Name EF
                    else EF_Name EF])
        (export_funcs mContext) /\
  (forall EF, In EF (export_funcs mContext) -> hasParam EF = true ->
     exists H Tys,
       In H (FunctionList (theModule w')) /\
       F_Name H = ".helper_" +:+ EF_Name EF /\
       F_ArgumentList H = [PointerTy (StructTy Tys)]) /\
  length (FunctionList (theModule w'))
  = (length (FunctionList (theModule w))
     + length (List.filter hasParam (export_funcs mContext)))%nat.
Proof.
  intros Hproc Hnew Hfunc0 Hrun.
  destruct (HandleTranslationUnitPost_Normal mContext w w' Hproc Hnew Hrun)
    as (_ & _ & _ & _ & Hfunc & Hhelp & _).
  destruct (HandleTranslationUnitPost_exact mContext w w' Hproc Hnew Hrun)
    as (Hfs & _).
  repeat apply conj.
  - unfold operands. rewrite Hfunc. unfold operands. rewrite !Hfunc0.
    by destruct (export_funcs mContext).
  - intros EF Hin Hp. destruct (Hhelp EF Hin Hp) as (F & _ & Hargs & HinH).
    exists (helperFunction EF F), (F_ArgumentList F).
    split; [done|]. split; [done|].
    unfold helperFunction, helperFunctionParameterTy. cbn.
    by destruct (F_ArgumentList F).
  - rewrite Hfs, length_app. f_equal.
    assert (Hall := helperFunctions_Forall2 w' (export_funcs mContext)).
    symmetry. eapply Forall2_length. apply Hall.
    intros EF Hin Hp. destruct (Hhelp EF Hin Hp) as (F & HF & Hargs & _).
    by exists F.
Qed.

(** ** Where the emitter stops *)

Lemma forEach_app {A} (l1 l2 : list A) (body : A -> Emit unit) w :
  forEach (l1 ++ l2) body w = (forEach l1 body ;; forEach l2 body) w.
Proof.
  revert w. induction l1 as [|a l1 IH]; intros w; [done|].
  cbn [app forEach]. unfold bind.
  destruct (body a w) as [[[] w1]| |]; [|done|done].
  rewrite IH. done.
Qed.

Lemma bind_AssertionFailed {A B} (m : Emit A) (k : A -> Emit B) w msg :
  m w = AssertionFailed msg -> bind m k w = AssertionFailed msg.
Proof. unfold bind. by intros ->. Qed.

Lemma bind_Undefined {A B} (m : Emit A) (k : A -> Emit B) w what :
  m w = Undefined what -> bind m k w = Undefined what.
Proof. unfold bind. by intros ->. Qed.

Lemma dumpExportVars_completes mContext w :
  this w = RSBackend_new ->
  Z.of_nat (length (export_vars mContext)) <= INT_MAX ->
  exists w1,
    dumpExportVars mContext w = Normal (tt, w1) /\
    mExportFuncMetadata (this w1) = None /\
    mExportForEachMetadata (this w1) = None /\
    mExportTypeMetadata (this w1) = None /\
    FunctionList (theModule w1) = FunctionList (theModule w) /\
    (forall n, n <> RS_EXPORT_VAR_MN -> n <> RS_OBJECT_SLOTS_MN ->
               namedMetadata w1 n = namedMetadata w n).
Proof.
  intros Hnew Hlen.
  destruct (export_vars mContext) as [|EV rest] eqn:E.
  - exists w. rewrite (dumpExportVars_empty mContext w E), Hnew. done.
  - destruct (dumpExportVars_run mContext w)
      as (w1 & Hrun & Hthis & Hfs & _ & _ & _ & Hother);
      [by rewrite Hnew|by rewrite Hnew|by rewrite E|by rewrite E|].
    exists w1. rewrite Hthis, Hnew. done.
Qed.

(** The function loop up to the first exported function that cannot be
    wrapped. *)
Lemma forEach_exportFunc_stops pre EF post w :
  mExportFuncMetadata (this w) = Some RS_EXPORT_FUNC_MN ->
  (forall EF', In EF' pre -> hasParam EF' = true ->
     (exists F,
        lookupFunction (EF_Name EF') (FunctionList (theModule w)) = Some F /\
        getNumParameters EF' = length (F_ArgumentList F) /\
        Z.of_nat (length (F_ArgumentList F)) <= 2 ^ 32) /\
     helperFunctionName EF' <> EF_Name EF) ->
  hasParam EF = true ->
  match lookupFunction (EF_Name EF) (FunctionList (theModule w)) with
  | None =>
      forEach (pre ++ EF :: post) exportFunc w
      = AssertionFailed "Function marked as exported disappeared in Bitcode"
  | Some F =>
      getNumParameters EF <> length (F_ArgumentList F) ->
      Z.of_nat (length (F_ArgumentList F)) < 2 ^ 32 ->
      forEach (pre ++ EF :: post) exportFunc w
      = Undefined (miscountFault (length (F_ArgumentList F))
                                 (getNumParameters EF))
  end.
Proof.
  intros Hh Hpre Hp.
  destruct (forEach_exportFunc_completes pre w Hh) as [w1 Hrun1].
  { intros EF' Hin Hp'. by destruct (Hpre EF' Hin Hp'). }
  destruct (forEach_exportFunc_Normal pre w w1 Hh Hrun1) as (Hthis & _).
  destruct (forEach_exportFunc_exact pre w w1 Hh Hrun1) as [Hfs _].
  rewrite forEach_app, (bind_run _ _ _ _ _ Hrun1). cbn [forEach].
  destruct (lookupFunction (EF_Name EF) (FunctionList (theModule w)))
    as [F|] eqn:E.
  - intros Hn H32. apply bind_Undefined.
    assert (HF : lookupFunction (EF_Name EF) (FunctionList (theModule w1))
                 = Some F)
      by (rewrite Hfs; by apply lookupFunction_app).
    unfold miscountFault. destruct (F_ArgumentList F) as [|T Ts] eqn:EA.
    + by apply (exportFunc_noArguments EF F w1 Hp).
    + rewrite <- EA in *.
      replace (Nat.eqb (length (F_ArgumentList F)) 0) with false
        by (by rewrite EA).
      apply exportFunc_miscounted; try done; [congruence|by rewrite EA].
  - apply bind_AssertionFailed. apply exportFunc_disappeared; [done|].
    rewrite Hfs, (lookupFunction_app_None _ _ _ E).
    destruct (lookupFunction _ (helperFunctions w1 pre)) as [H|] eqn:EH;
      [|done].
    exfalso. apply lookupFunction_Some in EH as [HinH Hname].
    apply helperFunctions_In in HinH as (EF' & Hin' & Hp' & Hname').
    destruct (Hpre EF' Hin' Hp') as [_ Hclash]. congruence.
Qed.


(** ** The version check and the diagnostics, over the whole unit *)

Lemma operands_appended {A} (w w' : World) n (f : A -> MDNode) (l : list A) :
  namedMetadata w' n
  = match l with
    | [] => namedMetadata w n
    | _ :: _ => Some (operands w n ++ map f l)
    end ->
  operands w' n = operands w n ++ map f l.
Proof.
  intros H. unfold operands at 1. rewrite H. destruct l; [|done].
  cbn. by rewrite app_nil_r.
Qed.

(** C6. When the validation of the unit passes, the version value is
    checked next: 0 gives exactly one error diagnostic (the pragma is
    missing), a value above 1 gives exactly one error diagnostic (the
    version is not supported), 1 gives none. Whatever the value, the
    method goes on: it asks for the static global destructor and
    annotates the static functions. The emitter does not read the
    version, and when the unit is driven to its end with export
    processing on, the emitter runs on the generated module after the
    diagnostics were reported and appends every record of the unit to
    its four lists, whatever the version value is. *)
Theorem version_check mAllowRSPrefix mContext dtor TUDecl :
  fst (ValidateASTContext TUDecl) = true ->
  let version := getVersion mContext in
  let es := HandleTranslationUnitPre mAllowRSPrefix mContext dtor TUDecl in
  (version = 0 ->
     checkVersion version = [Report Error diag_missing_version []]) /\
  (version > 1 ->
     checkVersion version = [Report Error diag_bad_version []]) /\
  (version = 1 -> checkVersion version = []) /\
  es = snd (ValidateASTContext TUDecl)
       ++ checkVersion version
       ++ [RefCount_CreateStaticGlobalDtor]
       ++ match dtor with
          | Some FD => HandleTopLevelDecl mAllowRSPrefix [Decl_Function FD]
          | None => []
          end
       ++ annotateStaticFunctions TUDecl /\
  reports es
    = checkVersion version
      ++ match dtor with
         | Some FD => reports (HandleTopLevelDecl mAllowRSPrefix
                                 [Decl_Function FD])
         | None => []
         end /\
  In RefCount_CreateStaticGlobalDtor es /\
  (forall version' w,
     HandleTranslationUnitPost (withVersion version' mContext) w
     = HandleTranslationUnitPost mContext w) /\
  (forall generated w w',
     processExport mContext = true ->
     this w = RSBackend_new ->
     HandleTranslationUnit mAllowRSPrefix mContext dtor TUDecl generated w
     = Normal (tt, w') ->
     let g := afterCodeGeneration mAllowRSPrefix mContext dtor TUDecl
                                  generated w in
     reports (effects w') = reports (effects w) ++ reports es /\
     operands w' RS_EXPORT_VAR_MN
     = operands g RS_EXPORT_VAR_MN ++ map varRecord (export_vars mContext) /\
     operands w' RS_EXPORT_FUNC_MN
     = operands g RS_EXPORT_FUNC_MN
       ++ map funcRecord (export_funcs mContext) /\
     operands w' RS_EXPORT_FOREACH_MN
     = operands g RS_EXPORT_FOREACH_MN
       ++ map forEachRecord (export_foreach mContext) /\
     operands w' RS_EXPORT_TYPE_MN
     = operands g RS_EXPORT_TYPE_MN
       ++ map typeRecord (recordTypes (export_types mContext))).
Proof.
  intros Hvalid version es.
  assert (Hes := HandleTranslationUnitPre_valid mAllowRSPrefix mContext dtor
                   TUDecl Hvalid).
  fold es version in Hes.
  split. { intros E. by rewrite E. }
  split.
  { intros E. unfold checkVersion.
    destruct (Z.eqb_spec version 0); [lia|].
    destruct (Z.gtb_spec version 1); [done|lia]. }
  split. { intros E. by rewrite E. }
  split; [done|].
  split.
  { rewrite Hes, !reports_app.
    rewrite (reports_none (snd (ValidateASTContext TUDecl)))
      by apply validation_no_report.
    rewrite (reports_none (annotateStaticFunctions TUDecl))
      by apply annotateStaticFunctions_no_report.
    rewrite app_nil_r. cbn [app].
    assert (Hv : reports (checkVersion version) = checkVersion version).
    { unfold checkVersion. destruct (version =? 0); [done|].
      by destruct (version >? 1). }
    rewrite Hv. cbn. by destruct dtor. }
  split.
  { rewrite Hes. apply in_or_app. right. apply in_or_app. right. by left. }
  split; [reflexivity|].
  intros generated w w' Hproc Hnew Hrun g. unfold HandleTranslationUnit in Hrun.
  fold g in Hrun.
  assert (Hnew' : this g = RSBackend_new) by done.
  destruct (HandleTranslationUnitPost_Normal mContext g w' Hproc Hnew' Hrun)
    as (_ & [_ (out & Heff & Hout)] & Hvar & _ & Hfunc & _ & Htype & _).
  destruct (HandleTranslationUnitPost_exact mContext g w' Hproc Hnew' Hrun)
    as (_ & _ & Hforeach & _).
  split.
  { rewrite Heff, reports_app, Hout, app_nil_r. subst g. cbn [effects].
    apply reports_app. }
  repeat apply conj; by apply operands_appended.
Qed.

Lemma sinkReports_In TypeFormat ShapeFormat es e r :
  In e es ->
  In r (if is_Report e then [e]
        else RSExportType_reports TypeFormat ShapeFormat e) ->
  In r (sinkReports TypeFormat ShapeFormat es).
Proof. intros He Hr. apply in_flat_map. by exists e. Qed.

Lemma sinkReports_errors TypeFormat ShapeFormat es :
  reports_are_errors es ->
  reports_are_errors (sinkReports TypeFormat ShapeFormat es).
Proof.
  intros Hes L Format Args Hin. apply in_flat_map in Hin as (e & He & Hin).
  destruct e; cbn in Hin; try done.
  - destruct Hin as [[= -> -> ->]|[]]. by apply (Hes _ _ _ He).
  - destruct (VD_NormalizeType VD); [done|]. by destruct Hin as [[= <-]|[]].
  - destruct (VD_ValidateVarDecl VD); [done|]. by destruct Hin as [[= <-]|[]].
Qed.

Lemma validation_in_HandleTranslationUnitPre
    mAllowRSPrefix mContext dtor TUDecl e :
  In e (snd (ValidateASTContext TUDecl)) ->
  In e (HandleTranslationUnitPre mAllowRSPrefix mContext dtor TUDecl).
Proof.
  intros Hin. destruct (fst (ValidateASTContext TUDecl)) eqn:Hv.
  - rewrite HandleTranslationUnitPre_valid by done.
    apply in_or_app. by left.
  - by rewrite HandleTranslationUnitPre_invalid.
Qed.

Lemma ValidateVarDecl_in_validation TUDecl VD e :
  In (Decl_Var VD) TUDecl ->
  In e (snd (ValidateVarDecl VD)) ->
  In e (snd (ValidateASTContext TUDecl)).
Proof.
  intros Hin He. unfold ValidateASTContext.
  rewrite ValidateASTContext_loop_effects. apply in_flat_map.
  exists VD. split; [|done]. apply list_elem_of_In.
  unfold variableDecls. apply list_elem_of_omap.
  exists (Decl_Var VD). split; [by apply list_elem_of_In|done].
Qed.

Lemma backend_reports_are_errors mAllowRSPrefix mContext dtor TUDecl :
  reports_are_errors
    (HandleTranslationUnitPre mAllowRSPrefix mContext dtor TUDecl).
Proof.
  destruct (fst (ValidateASTContext TUDecl)) eqn:Hv.
  - rewrite HandleTranslationUnitPre_valid by done.
    apply reports_are_errors_app.
    { apply reports_are_errors_none, validation_no_report. }
    apply reports_are_errors_app; [apply checkVersion_errors|].
    apply reports_are_errors_app.
    { apply reports_are_errors_none. by intros e [<-|[]]. }
    apply reports_are_errors_app.
    + destruct dtor; [apply HandleTopLevelDecl_errors|by intros ? ? ? []].
    + apply reports_are_errors_none, annotateStaticFunctions_no_report.
  - rewrite HandleTranslationUnitPre_invalid by done.
    apply reports_are_errors_none, validation_no_report.
Qed.


End Emitter.


(** * The statements on the sample units *)

Section Samples.
Import StringExtras.

(** The emitter under the sample header: [DataTypeRSMatrix2x2] is 17,
    [DataKindUser] is 0. *)
#[local] Abbreviation sample_Post :=
  (HandleTranslationUnitPost 17 0 sample_isRSObjectType).

(** The world the emitter leaves on the sample unit. *)
#[local] Abbreviation sample_after :=
  (worldOf (sample_Post packet_accepted sample_context sample_world)
           sample_world).

(** The same when the parameter packet check fails. *)
#[local] Abbreviation rejected_after :=
  (worldOf (sample_Post packet_rejected sample_context sample_world)
           sample_world).

(** The empty-structure unit in the middle of the function loop. *)
#[local] Abbreviation empty_struct_world_obtained :=
  (mkWorld (set_mExportFuncMetadata RS_EXPORT_FUNC_MN RSBackend_new)
           (theModule empty_struct_world) []).

(** The short-packet unit in the middle of the function loop. *)
#[local] Abbreviation short_packet_world_obtained :=
  (mkWorld (set_mExportFuncMetadata RS_EXPORT_FUNC_MN RSBackend_new)
           (theModule short_packet_world) []).

(** The world after the record type [E] was processed once, and twice. *)
#[local] Abbreviation once_E :=
  (worldOf (exportType 0 ("E", sample_empty_record) sample_world_obtained)
           sample_world_obtained).
#[local] Abbreviation twice_E :=
  (worldOf (exportType 0 ("E", sample_empty_record) once_E) once_E).

Lemma sample_Post_run :
  sample_Post packet_accepted sample_context sample_world
  = Normal (tt, sample_after).
Proof. vm_compute. reflexivity. Qed.

(** ** Instances of the theorems *)

(** C1 on [bar], which has parameters. *)
Lemma export_func_descriptor_sample :
  exists w',
    exportFunc packet_accepted sample_bar sample_world_obtained
    = Normal (tt, w') /\
    namedMetadata w' RS_EXPORT_FUNC_MN = Some [[".helper_bar"]].
Proof.
  destruct (export_func_descriptor packet_accepted sample_bar
              sample_world_obtained eq_refl)
    as (w' & Hrun & Hlist & _).
  { intros _. exists sample_bar_function.
    split; [reflexivity|]. split; [reflexivity|]. vm_compute. discriminate. }
  exists w'. split; [exact Hrun|]. rewrite Hlist. vm_compute. reflexivity.
Defined.

(** C2 on the sample unit. *)
Lemma object_slots_are_positions_sample :
  sample_Post packet_accepted sample_context sample_world
  = Normal (tt, sample_after) /\
  exists slots : list nat,
    operands sample_after RS_OBJECT_SLOTS_MN
    = map (fun i => [utostr_32 (Z.of_nat i) false]) slots /\
    StronglySorted lt slots.
Proof.
  assert (Hfresh : namedMetadata sample_world RS_OBJECT_SLOTS_MN = None)
    by (vm_compute; reflexivity).
  split; [exact sample_Post_run|].
  destruct (object_slots_are_positions 17 0 sample_isRSObjectType
              packet_accepted sample_context sample_world _
              eq_refl eq_refl Hfresh sample_Post_run)
    as (slots & Hops & _ & Hsorted & _).
  exists slots. split; [exact Hops|exact Hsorted].
Defined.

(** C3 on the sample unit. *)
Lemma export_var_descriptor_sample :
  exists enc : RSExportType -> string,
    operands sample_after RS_EXPORT_VAR_MN
    = map (fun EV => [EV_Name EV; enc (EV_Type EV)])
          (export_vars sample_context) /\
    Decimal.is_decimal_of (enc sample_int) 7.
Proof.
  assert (Hfresh : namedMetadata sample_world RS_EXPORT_VAR_MN = None)
    by (vm_compute; reflexivity).
  destruct (export_var_descriptor 17 0 sample_isRSObjectType
              packet_accepted sample_context sample_world _
              eq_refl eq_refl Hfresh sample_Post_run)
    as (enc & Hops & Hprim & _).
  exists enc. split; [exact Hops|]. apply Hprim. lia.
Defined.

(** C4 on [bar]. *)
Lemma helper_function_shape_sample :
  exists w' H,
    exportFunc packet_accepted sample_bar sample_world_obtained
    = Normal (tt, w') /\
    FunctionList (theModule w') = [sample_bar_function; H] /\
    F_ArgumentList H = [PointerTy (StructTy [IntegerTy 32; FloatTy])] /\
    F_CallingConv H = 5.
Proof.
  destruct (helper_function_shape packet_accepted sample_bar
              sample_bar_function sample_world_obtained
              eq_refl eq_refl eq_refl eq_refl
              ltac:(vm_compute; discriminate))
    as (w' & H & Hrun & Hfs & _ & Hcc & _ & _ & Hargs & _).
  exists w', H. split; [exact Hrun|]. split; [exact Hfs|].
  split; [exact Hargs|exact Hcc].
Defined.

(** C5 on the unit whose variable fails validation. *)
Lemma validation_failure_abandons_unit_sample :
  HandleTranslationUnitPre false sample_context None invalid_unit
  = snd (ValidateASTContext invalid_unit).
Proof.
  exact (proj1 (validation_failure_abandons_unit false sample_context None
                  invalid_unit (mkVarDecl "v" ExternalLinkage false true)
                  (or_introl eq_refl) eq_refl)).
Defined.

(** The world the driver leaves on the valid unit without a version
    pragma. *)
#[local] Abbreviation unversioned_after :=
  (worldOf (HandleTranslationUnit 17 0 sample_isRSObjectType packet_accepted
              false (withVersion 0 sample_context) None valid_unit
              sample_module sample_world)
           sample_world).

(** C6 on the valid unit without a version pragma: one error, and the
    functions are emitted all the same. *)
Lemma version_check_sample :
  reports (HandleTranslationUnitPre false (withVersion 0 sample_context)
                                    None valid_unit)
  = [Report Error diag_missing_version []] /\
  operands unversioned_after RS_EXPORT_FUNC_MN = [[".helper_bar"]; ["baz"]].
Proof.
  assert (Hrun :
    HandleTranslationUnit 17 0 sample_isRSObjectType packet_accepted
      false (withVersion 0 sample_context) None valid_unit
      sample_module sample_world
    = Normal (tt, unversioned_after)) by (vm_compute; reflexivity).
  destruct (version_check 17 0 sample_isRSObjectType packet_accepted
              false (withVersion 0 sample_context) None valid_unit eq_refl)
    as (H0 & _ & _ & _ & Hreports & _ & _ & Hemit).
  split; [rewrite Hreports, (H0 eq_refl); reflexivity|].
  destruct (Hemit sample_module sample_world unversioned_after
                  eq_refl eq_refl Hrun) as (_ & _ & Hfunc & _).
  rewrite Hfunc. vm_compute. reflexivity.
Defined.

(** C8 on the record type [S]. *)
Lemma record_field_list_sample :
  exists w',
    exportType 0 ("S", sample_record) sample_world_obtained = Normal (tt, w') /\
    namedMetadata w' "%S" = Some [["x"; "int"; "1"]; ["e"; "E"; "0"]] /\
    exportType 0 ("S", sample_record) w'
    = AssertionFailed "Metadata with same name was created before".
Proof.
  destruct (record_field_list 0 "S" "S"
              [("x", sample_int); ("e", sample_empty_record)]
              sample_world_obtained)
    as (w' & Hrun & Hlist & _ & _ & Hagain).
  { right. split; [reflexivity|]. vm_compute. eauto. }
  { vm_compute. reflexivity. }
  exists w'. split; [exact Hrun|]. split; [exact Hlist|].
  apply Hagain. discriminate.
Defined.

(** C9 on the sample unit. *)
Lemma export_type_list_sample :
  operands sample_after RS_EXPORT_TYPE_MN = [["S"]].
Proof.
  assert (Hfresh : namedMetadata sample_world RS_EXPORT_TYPE_MN = None)
    by (vm_compute; reflexivity).
  exact (proj1 (export_type_list 17 0 sample_isRSObjectType packet_accepted
                  sample_context sample_world _
                  eq_refl eq_refl Hfresh sample_Post_run)).
Defined.

(** C10 on the sample unit. *)
Lemma object_slots_list_exists_sample :
  is_Some (namedMetadata sample_after RS_OBJECT_SLOTS_MN).
Proof.
  exact (proj1 (object_slots_list_exists 17 0 sample_isRSObjectType
                  packet_accepted sample_context sample_world _
                  eq_refl eq_refl ltac:(discriminate) sample_Post_run)).
Defined.

(** ** Instances of the further properties *)

(** The world the emitter leaves on the sample unit when the module
    holds a metadata list of another producer. *)
#[local] Abbreviation ident_after :=
  (worldOf (sample_Post packet_accepted sample_context sample_ident_world)
           sample_ident_world).

Lemma ident_Post_run :
  sample_Post packet_accepted sample_context sample_ident_world
  = Normal (tt, ident_after).
Proof. vm_compute. reflexivity. Qed.

(** X9 on the sample unit: the list [llvm.ident] is left as it was. *)
Lemma other_metadata_untouched_sample :
  namedMetadata ident_after "llvm.ident" = Some [["slang"]].
Proof.
  assert (Hrec : forall ET,
    In ET (recordTypes (export_types sample_context)) ->
    "llvm.ident" <> "%" +:+ getName ET)
    by (intros ET [<-|[]]; discriminate).
  exact (other_metadata_untouched 17 0 sample_isRSObjectType packet_accepted
           sample_context sample_ident_world ident_after "llvm.ident"
           eq_refl ident_Post_run
           ltac:(discriminate) ltac:(discriminate) ltac:(discriminate)
           ltac:(discriminate) ltac:(discriminate) Hrec).
Defined.

(** X10 on the sample unit, which exports a kernel. *)
Lemma lists_created_on_demand_sample :
  is_Some (namedMetadata sample_after RS_EXPORT_FOREACH_MN).
Proof.
  destruct (lists_created_on_demand 17 0 sample_isRSObjectType packet_accepted
              sample_context sample_world sample_after
              eq_refl eq_refl sample_Post_run) as (_ & _ & _ & [_ H] & _).
  apply H. right. discriminate.
Defined.

(** X11 on the sample unit: [bar] is followed by its helper. *)
Lemma helper_functions_appended_sample :
  exists hs,
    FunctionList (theModule sample_after) = [sample_bar_function] ++ hs /\
    map F_Name hs = [".helper_bar"].
Proof.
  destruct (helper_functions_appended 17 0 sample_isRSObjectType
              packet_accepted sample_context sample_world sample_after
              eq_refl eq_refl sample_Post_run) as (hs & H1 & H2 & _).
  exists hs. split; [exact H1|exact H2].
Defined.

(** X12 on the sample unit: the kernel [root] with encoding 5. *)
Lemma export_foreach_list_sample :
  exists enc : RSExportForEach -> string,
    operands sample_after RS_EXPORT_FOREACH_MN
    = [[enc (mkRSExportForEach "root" 5)]] /\
    Decimal.is_decimal_of (enc (mkRSExportForEach "root" 5)) 5.
Proof.
  destruct (export_foreach_list 17 0 sample_isRSObjectType packet_accepted
              sample_context sample_world sample_after
              eq_refl eq_refl sample_Post_run) as (enc & H1 & H2).
  exists enc. split; [exact H1|exact (H2 (mkRSExportForEach "root" 5))].
Defined.

(** X13 on the sample unit, whose parameter packets are accepted. *)
Lemma emitter_output_sample : effects sample_after = [].
Proof.
  destruct (emitter_output 17 0 sample_isRSObjectType packet_accepted
              sample_context sample_world sample_after
              eq_refl eq_refl sample_Post_run) as [_ H].
  apply H. reflexivity.
Defined.

(** X14 on the sample unit. *)
Lemma HandleTranslationUnitPost_completes_sample :
  exists w',
    sample_Post packet_accepted sample_context sample_world = Normal (tt, w').
Proof.
  apply (HandleTranslationUnitPost_completes 17 0 sample_isRSObjectType
           packet_accepted sample_context sample_world eq_refl).
  - vm_compute. discriminate.
  - intros EF [<-|[<-|[]]] Hp; [|discriminate].
    exists sample_bar_function.
    split; [reflexivity|]. split; [reflexivity|]. vm_compute. discriminate.
  - apply NoDup_singleton.
  - intros ET [<-|[]]. reflexivity.
Defined.

(** X15 on the sample unit: [bar] was in the module before the run. *)
Lemma emitter_completes_only_if_sample :
  exists F,
    lookupFunction "bar" (FunctionList sample_module) = Some F /\
    F_ArgumentList F <> [].
Proof.
  destruct (emitter_completes_only_if 17 0 sample_isRSObjectType
              packet_accepted sample_context sample_world sample_after
              eq_refl eq_refl sample_Post_run) as [_ H].
  apply (H sample_bar); [by left|reflexivity|].
  intros EF' [<-|[<-|[]]] _; discriminate.
Defined.

(** X17 on the sample unit: the one slot is position 1, the variable
    [a]. *)
Lemma object_slots_index_variable_records_sample :
  (length (operands sample_after RS_OBJECT_SLOTS_MN)
   <= length (operands sample_after RS_EXPORT_VAR_MN))%nat.
Proof.
  apply (object_slots_index_variable_records 17 0 sample_isRSObjectType
           packet_accepted sample_context sample_world sample_after
           eq_refl eq_refl eq_refl eq_refl sample_Post_run).
Defined.

(** X18 on the sample unit: the field list of [S]. *)
Lemma unit_field_lists_sample :
  namedMetadata sample_after "%S" = Some [["x"; "int"; "1"]; ["e"; "E"; "0"]].
Proof.
  assert (Hnodup : NoDup (map getName (recordTypes (export_types sample_context))))
    by apply NoDup_singleton.
  destruct (unit_field_lists 17 0 sample_isRSObjectType packet_accepted
              sample_context sample_world sample_after
              eq_refl eq_refl eq_refl Hnodup sample_Post_run) as [_ H].
  destruct (H "S" [("x", sample_int); ("e", sample_empty_record)]) as [_ H2];
    [by left|].
  etransitivity; [exact H2|]. vm_compute. reflexivity.
Defined.

(** X19 on the sample unit: [bar] has parameters, [baz] has none. *)
Lemma export_func_list_sample :
  operands sample_after RS_EXPORT_FUNC_MN = [[".helper_bar"]; ["baz"]].
Proof.
  apply (export_func_list 17 0 sample_isRSObjectType packet_accepted
           sample_context sample_world sample_after
           eq_refl eq_refl eq_refl sample_Post_run).
Defined.


(** X16 on the helper of [bar]. *)
Lemma helper_body_well_formed_sample :
  exists BB,
    createHelperFunctionBody sample_bar sample_bar_function
      (Argument 0, PointerTy (StructTy [IntegerTy 32; FloatTy]))
    = Normal BB /\
    length BB = 6%nat.
Proof.
  eexists. split; [vm_compute; reflexivity|].
  apply (helper_body_well_formed sample_bar sample_bar_function
           (PointerTy (StructTy [IntegerTy 32; FloatTy])) _ eq_refl).
Defined.

(** ** Where the specification goes beyond the code *)

(** C1. The exported function [f] has a parameter and the function [f]
    of the module has no argument: the helper [.helper_f] is created
    without any parameter, and the emitter does not complete. The
    exported function [g] has two parameters and the function [g] of the
    module has one argument: the packet has one field, the address of a
    second one cannot be built, and the emitter does not complete
    either; no record is appended. *)
Lemma helper_without_argument :
  hasParam empty_struct_func = true /\
  lookupFunction (EF_Name empty_struct_func)
                 (FunctionList (theModule empty_struct_world))
  = Some empty_struct_function /\
  F_Name (createHelperFunction empty_struct_function
            (helperFunctionName empty_struct_func)
            (helperFunctionParameterTy empty_struct_function))
  = ".helper_f" /\
  F_ArgumentList (createHelperFunction empty_struct_function
                    (helperFunctionName empty_struct_func)
                    (helperFunctionParameterTy empty_struct_function))
  = [] /\
  sample_Post packet_accepted empty_struct_context empty_struct_world
  = Undefined "arg_begin() of a function without arguments" /\
  hasParam short_packet_func = true /\
  lookupFunction (EF_Name short_packet_func)
                 (FunctionList (theModule short_packet_world))
  = Some short_packet_function /\
  F_ArgumentList short_packet_function = [IntegerTy 32] /\
  sample_Post packet_accepted short_packet_context short_packet_world
  = Undefined "getelementptr with invalid indices for the type".
Proof. repeat apply conj; vm_compute; reflexivity. Qed.

(** C4. For the exported function [f] the trampoline has no parameter
    at all, so no packet to load from, and the iteration of the function
    loop does not complete. For the exported function [g], with two
    parameters over a module function with one argument, the packet has
    one field: there is no second field to load from, and the iteration
    does not complete either. *)
Lemma trampoline_without_parameter :
  hasParam empty_struct_func = true /\
  F_ArgumentList (helperFunction empty_struct_func empty_struct_function)
  = [] /\
  exportFunc packet_accepted empty_struct_func empty_struct_world_obtained
  = Undefined "arg_begin() of a function without arguments" /\
  getNumParameters short_packet_func = 2%nat /\
  helperFunctionParameterTy short_packet_function
  = Some (StructTy [IntegerTy 32]) /\
  exportFunc packet_accepted short_packet_func short_packet_world_obtained
  = Undefined "getelementptr with invalid indices for the type".
Proof. repeat apply conj; vm_compute; reflexivity. Qed.

(** C5. The static function [helper] is annotated when the unit is valid
    and is not annotated when a variable of the unit fails validation:
    the early return skips the annotation of the file-local functions
    too. *)
Lemma static_annotation_skipped :
  fst (ValidateASTContext invalid_unit) = false /\
  In (RefCount_Visit sample_static_function)
     (HandleTranslationUnitPre false sample_context None valid_unit) /\
  ~ In (RefCount_Visit sample_static_function)
       (HandleTranslationUnitPre false sample_context None invalid_unit).
Proof.
  split; [reflexivity|]. split.
  - vm_compute. tauto.
  - intros H. vm_compute in H. intuition discriminate.
Qed.


(** C8. The record type [E] has no field: processing it a second time
    finds its list without operands again and passes the assertion. *)
Lemma empty_record_processed_twice :
  exportType 0 ("E", sample_empty_record) sample_world_obtained
  = Normal (tt, once_E) /\
  exportType 0 ("E", sample_empty_record) once_E = Normal (tt, twice_E) /\
  namedMetadata twice_E "%E" = Some [].
Proof. repeat apply conj; vm_compute; reflexivity. Qed.

(** C9. The unit exports the type [int], which is not a record type: the
    emitter completes and leaves the module as it was, without any
    [#rs_export_type] list. *)
Lemma non_record_type_not_listed :
  In ("int", sample_int) (export_types int_only_context) /\
  getClass sample_int = ExportClassPrimitive /\
  sample_Post packet_accepted int_only_context sample_world
  = Normal (tt, sample_world) /\
  namedMetadata sample_world RS_EXPORT_TYPE_MN = None.
Proof.
  split; [by left|]. repeat apply conj; vm_compute; reflexivity.
Qed.

End Samples.
